(** * autoz-control-tower: connection registry and fan-out engine

    A shallow embedding of the Go packages [internal/config],
    [internal/cluster] and [internal/workload] and of the parts of the
    commands in [cmd/mcm] that call them, followed by the properties proved
    about them.

    Conventions of the embedding:
    - a Go [error] is [option string]: [None] is [nil], [Some msg] an error
      whose [Error()] text is [msg]; [fmt.Errorf] is string concatenation;
    - a Go pair [(T, error)] is a sum [T + string];
    - a Go [map[string]V] is a [gmap string V]; the order in which [range]
      visits it is not fixed by the language, so every function that ranges
      over a map takes the visiting order as an argument, and the theorems
      quantify over every permutation of the map's entries;
    - goroutines that only read and report through a channel or a
      mutex-guarded map finish in an order the scheduler picks: the
      functions take that completion order as an argument, and the theorems
      quantify over every permutation;
    - goroutines that write to the servers ([DeployToMultipleClusters]) are
      run step by step, a step being what a goroutine does up to and
      including its next request to a server or its store under the mutex:
      the function takes the scheduler's picks as an argument, the
      goroutines' requests interleave as the picks say, and the theorems
      quantify over every list of picks;
    - a nil dereference or a call through a nil interface is [Panic];
    - the operating system, client-go, the YAML decoder, the clock and the
      remote API servers are interfaces ([Class]es) the code is written
      against; a remote call is a function of the servers' state, so the
      deadlines of [context.WithTimeout] show only as errors the call may
      return; console output ([fmt.Printf]) is not modelled. *)

From stdpp Require Import gmap strings list fin_maps pretty sorting.
From Stdlib Require Import ZArith Ascii.

Open Scope Z_scope.
Open Scope string_scope.

(** ** Go values *)

Definition error := option string.

(** [%v] of an error value. *)
Definition fmt_v (e : error) : string :=
  match e with
  | Some msg => msg
  | None => "<nil>"
  end.

(** [strings.Join]. *)
Fixpoint strings_Join (elems : list string) (sep : string) : string :=
  match elems with
  | [] => ""
  | [e] => e
  | e :: rest => e +:+ sep +:+ strings_Join rest sep
  end.

(** [strings.HasPrefix]. *)
Definition strings_HasPrefix (s prefix : string) : bool := String.prefix prefix s.

(** The slice expression [s[n:]]. *)
Definition string_from (n : nat) (s : string) : string :=
  String.substring n (String.length s - n) s.

(** A line feed. *)
Definition nl : string := String (Ascii.ascii_of_nat 10) EmptyString.

(** Outcome of a computation that may hit a run-time panic. *)
Inductive result (A : Type) : Type :=
  | Ok (a : A)
  | Panic (msg : string).
Arguments Ok {A} a.
Arguments Panic {A} msg.

#[global] Instance result_ret : MRet result := λ A a, Ok a.

#[global] Instance result_bind : MBind result := λ A B k r,
  match r with
  | Ok a => k a
  | Panic msg => Panic msg
  end.

(** The run-time error of a nil dereference. *)
Definition nil_dereference : string :=
  "invalid memory address or nil pointer dereference".

(** [*p] for a pointer that may be nil, and a method call through an
    interface value that may be nil. *)
Definition deref {A} (p : option A) : result A :=
  match p with
  | Some a => Ok a
  | None => Panic nil_dereference
  end.

(** The loop [for _, x := range xs { ...; result = append(result, f(x)) }]
    whose body may panic. *)
Fixpoint result_mapM {A B} (f : A → result B) (xs : list A) : result (list B) :=
  match xs with
  | [] => Ok []
  | x :: rest =>
      y ← f x;
      ys ← result_mapM f rest;
      Ok (y :: ys)
  end.

Definition is_Ok {A} (r : result A) : Prop := ∃ a, r = Ok a.

(** ** External types (k8s.io) *)

Module rest.
(** [rest.Config]: the fields this code reads or writes. *)
Record Config := mkConfig {
  Host : string;
  Timeout : Z;               (* time.Duration, nanoseconds *)
}.
End rest.

Module kubernetes.
(** A clientset, as [kubernetes.NewForConfig] builds it from a copy of the
    REST configuration. *)
Record Clientset := mkClientset {
  restConfig : rest.Config;
}.
End kubernetes.

Module appsv1.
Record Container := mkContainer {
  Image : string;
}.

Record DeploymentSpec := mkSpec {
  Replicas : option Z;                 (* *int32 *)
  Containers : list Container;         (* Template.Spec.Containers *)
}.

Record DeploymentStatus := mkStatus {
  ReadyReplicas : Z;                   (* int32 *)
}.

Record Deployment := mkDeployment {
  Namespace : string;
  Name : string;
  ResourceVersion : string;
  CreationTimestamp : Z;
  Spec : DeploymentSpec;
  Status : DeploymentStatus;
}.

Definition set_Namespace (ns : string) (d : Deployment) : Deployment :=
  mkDeployment ns (Name d) (ResourceVersion d) (CreationTimestamp d) (Spec d) (Status d).

Definition set_ResourceVersion (rv : string) (d : Deployment) : Deployment :=
  mkDeployment (Namespace d) (Name d) rv (CreationTimestamp d) (Spec d) (Status d).
End appsv1.

(** A decoded YAML document: what [yaml.Unmarshal] stores in an
    [interface{}]. *)
#[local] Unset Elimination Schemes.
Inductive YamlValue : Type :=
  | YNull
  | YBool (b : bool)
  | YNumber (n : Z)
  | YString (s : string)
  | YSeq (items : list YamlValue)
  | YMap (fields : list (string * YamlValue)).
#[local] Set Elimination Schemes.

(** ** The environment the code runs against *)

(** The operating system and client-go's constructors.
    [clientcmd_ClientConfig path context] is
    [clientcmd.NewNonInteractiveDeferredLoadingClientConfig(rules,
    overrides).ClientConfig()] for the explicit path and the context;
    [time_Since_Round t] is [time.Since(t).Round(time.Second)];
    [formatDuration] works in floating point ([d.Seconds()],
    [d.Minutes()], [d.Hours()]) and is left to the host. *)
Class Host := {
  os_UserHomeDir : string + string;
  os_Stat : string → error;
  os_Getenv : string → string;
  os_ReadFile : string → string + string;
  filepath_Join : list string → string;
  clientcmd_ClientConfig : string → string → rest.Config + string;
  kubernetes_NewForConfig : rest.Config → kubernetes.Clientset + string;
  time_Since_Round : Z → Z;
  formatDuration : Z → string;
}.

(** The YAML decoder ([k8s.io/apimachinery/pkg/util/yaml]) at the two types
    the workload package decodes into. *)
Class Yaml := {
  yaml_Unmarshal_map : string → gmap string YamlValue + string;
  yaml_Unmarshal_Deployment : string → appsv1.Deployment + string;
}.

(** The remote API servers, reached through a clientset
    ([kubernetes.Interface]).  [World] is the state of all of them. *)
Class KubeAPI (World : Type) := {
  Discovery_ServerVersion : World → kubernetes.Clientset → error;
  Deployments_List :
    World → kubernetes.Clientset → string → list appsv1.Deployment + string;
  Deployments_Get :
    World → kubernetes.Clientset → string → string → appsv1.Deployment + string;
  Deployments_Update :
    World → kubernetes.Clientset → string → appsv1.Deployment →
    World * (appsv1.Deployment + string);
  Deployments_Create :
    World → kubernetes.Clientset → string → appsv1.Deployment →
    World * (appsv1.Deployment + string);
}.


(** A request issued to an API server by the mutation path. *)
Inductive ApiCall : Type :=
  | CallGet (clientset : kubernetes.Clientset) (namespace name : string)
  | CallUpdate (clientset : kubernetes.Clientset) (namespace : string)
      (deployment : appsv1.Deployment)
  | CallCreate (clientset : kubernetes.Clientset) (namespace : string)
      (deployment : appsv1.Deployment).

(** ** Package config *)

Module config.

Record ClusterConfig := mkClusterConfig {
  Name : string;
  Context : string;
  KubeConfig : string;
  Region : string;
  Environment : string;
  IsDefault : bool;
}.

Record MultiClusterConfig := mkMultiClusterConfig {
  Clusters : list ClusterConfig;
  DefaultNamespace : string;
  Timeout : Z;
}.

Definition set_IsDefault (b : bool) (c : ClusterConfig) : ClusterConfig :=
  mkClusterConfig (Name c) (Context c) (KubeConfig c) (Region c) (Environment c) b.

(** The YAML decoder ([sigs.k8s.io/yaml]) at the configuration type. *)
Class ConfigYaml := {
  yaml_Unmarshal_config : string → MultiClusterConfig + string;
}.

Section with_host.
Context {hostI : Host} {configYamlI : ConfigYaml}.

(** The loop of [validateConfig]: [i] is the index, [clusterNames] the
    names seen so far. *)
Fixpoint validateClusters (i : nat) (clusterNames : gset string)
    (cs : list ClusterConfig) : error :=
  match cs with
  | [] => None
  | cluster :: rest =>
      if bool_decide (Name cluster = "") then
        Some ("cluster at index " +:+ pretty i +:+ " has no name")
      else if bool_decide (Context cluster = "") then
        Some ("cluster '" +:+ Name cluster +:+ "' has no context specified")
      else if bool_decide (Name cluster ∈ clusterNames) then
        Some ("duplicate cluster name: " +:+ Name cluster)
      else if bool_decide (KubeConfig cluster ≠ "")
              && bool_decide (os_Stat (KubeConfig cluster) ≠ None) then
        Some ("kubeconfig file not found for cluster '" +:+ Name cluster
              +:+ "': " +:+ KubeConfig cluster)
      else validateClusters (S i) ({[Name cluster]} ∪ clusterNames) rest
  end.

Definition validateConfig (config : MultiClusterConfig) : error :=
  if bool_decide (length (Clusters config) = 0%nat) then
    Some "no clusters defined in configuration"
  else validateClusters 0 ∅ (Clusters config).

(** [config.Clusters[0].IsDefault = true] is an update in place of the
    first element. *)
Definition setDefaults (config : MultiClusterConfig) : MultiClusterConfig :=
  let ns := if bool_decide (DefaultNamespace config = "")
            then "default" else DefaultNamespace config in
  let timeout := if bool_decide (Timeout config = 0) then 30 else Timeout config in
  let hasDefault := existsb IsDefault (Clusters config) in
  let clusters :=
    if negb hasDefault && bool_decide (0 < length (Clusters config))%nat
    then alter (set_IsDefault true) 0%nat (Clusters config)
    else Clusters config in
  mkMultiClusterConfig clusters ns timeout.

Definition findDefaultConfigPath : string :=
  if bool_decide (os_Stat "./mcm-config.yaml" = None) then "./mcm-config.yaml"
  else
    let home := match os_UserHomeDir with inl d => Some d | inr _ => None end in
    let homeDir := default "" home in
    let inHome := filepath_Join [homeDir; ".mcm"; "config.yaml"] in
    if bool_decide (is_Some home) && bool_decide (os_Stat inHome = None) then inHome
    else
      let xdg := os_Getenv "XDG_CONFIG_HOME" in
      let configDir :=
        if bool_decide (xdg = "") && bool_decide (homeDir ≠ "")
        then filepath_Join [homeDir; ".config"] else xdg in
      let inXdg := filepath_Join [configDir; "mcm"; "config.yaml"] in
      if bool_decide (configDir ≠ "") && bool_decide (os_Stat inXdg = None) then inXdg
      else if bool_decide (homeDir ≠ "") then inHome
      else "./mcm-config.yaml".

Definition LoadConfig (configPath : string) : MultiClusterConfig + string :=
  let configPath :=
    if bool_decide (configPath = "") then findDefaultConfigPath else configPath in
  match os_ReadFile configPath with
  | inr err => inr ("failed to read config file " +:+ configPath +:+ ": " +:+ err)
  | inl data =>
      match yaml_Unmarshal_config data with
      | inr err => inr ("failed to parse config file " +:+ configPath +:+ ": " +:+ err)
      | inl config =>
          match validateConfig config with
          | Some err => inr ("invalid configuration: " +:+ err)
          | None => inl (setDefaults config)
          end
      end
  end.
End with_host.

End config.

(** ** Package cluster *)

(** [time.Duration] arithmetic is on [int64]. *)
Definition wrap64 (z : Z) : Z := (z + 2^63) `mod` 2^64 - 2^63.

Definition time_Second : Z := 1000000000.

Module cluster.

Record ClusterClient := mkClusterClient {
  Config : config.ClusterConfig;
  RestConfig : option rest.Config;            (* *rest.Config *)
  Clientset : option kubernetes.Clientset;    (* kubernetes.Interface *)
  Connected : bool;
  Error : error;
}.

Record Manager := mkManager {
  clients : gmap string ClusterClient;
  config : config.MultiClusterConfig;
}.

Module ClusterStatus.
Record t := mk {
  Name : string;
  Environment : string;
  Region : string;
  Connected : bool;
  IsDefault : bool;
  Error : string;
}.
End ClusterStatus.

(** A method with receiver [m *Manager]: it reads the manager and leaves
    the manager it finishes with. *)
Definition method (A : Type) : Type := Manager → A * Manager.

#[global] Instance method_ret : MRet method := λ A a m, (a, m).

#[global] Instance method_bind : MBind method := λ A B k c m,
  let '(a, m') := c m in k a m'.

(** The receiver itself. *)
Definition this : method Manager := λ m, (m, m).

(** Reading [m.clients] under [m.mutex.RLock()]. *)
Definition RLock_clients : method (gmap string ClusterClient) :=
  λ m, (clients m, m).

(** Reading [m.config]. *)
Definition get_config : method config.MultiClusterConfig :=
  λ m, (config m, m).

(** [m.clients[name] = client] under [m.mutex.Lock()]. *)
Definition Lock_store (name : string) (client : ClusterClient) : method unit :=
  λ m, (tt, mkManager (<[name := client]> (clients m)) (config m)).

(** The order in which one [range] over the map visits its entries: any
    rearrangement of them. *)
Definition RangeOrder : Type :=
  list (string * ClusterClient) → list (string * ClusterClient).

Definition range (order : RangeOrder) (cs : gmap string ClusterClient)
    : list (string * ClusterClient) :=
  order (map_to_list cs).

Definition range_order_ok (order : RangeOrder) (m : Manager) : Prop :=
  range order (clients m) ≡ₚ map_to_list (clients m).

(** The order in which the goroutines of one fan-out finish, as a
    rearrangement of the jobs they were started for. *)
Definition Schedule (A : Type) : Type := list A → list A.

Definition schedule_ok {A} (sched : Schedule A) (jobs : list A) : Prop :=
  sched jobs ≡ₚ jobs.

(** The map after the handles [arrived] were stored in it, one after the
    other, each under its cluster's name. *)
Definition stored (cs : gmap string ClusterClient) (arrived : list ClusterClient)
    : gmap string ClusterClient :=
  foldl (λ acc client, <[config.Name (Config client) := client]> acc) cs arrived.

(** Every handle marked connected holds a clientset.
    [connectToAllClusters] builds only such maps. *)
Definition handles_live (m : Manager) : Prop :=
  ∀ name client, clients m !! name = Some client →
    Connected client = true → is_Some (Clientset client).

Section with_env.
Context {hostI : Host} {World : Type} {apiI : KubeAPI World}.

(** The handle [connectToCluster] returns from one of its failure exits:
    [Connected] stays false and [Error] is set. *)
Definition unconnected (clusterConfig : config.ClusterConfig) (err : string)
    : ClusterClient :=
  mkClusterClient clusterConfig None None false (Some err).

Definition connectToCluster (m : Manager) (w : World)
    (clusterConfig : config.ClusterConfig) : ClusterClient :=
  (* Step 1: which kubeconfig file *)
  let step1 : string + ClusterClient :=
    if bool_decide (config.KubeConfig clusterConfig = "") then
      match os_UserHomeDir with
      | inr err =>
          inr (unconnected clusterConfig ("cannot determine home directory: " +:+ err))
      | inl homeDir => inl (filepath_Join [homeDir; ".kube"; "config"])
      end
    else inl (config.KubeConfig clusterConfig) in
  match step1 with
  | inr client => client
  | inl kubeconfigPath =>
  let expanded : string + ClusterClient :=
    if strings_HasPrefix kubeconfigPath "~/" then
      match os_UserHomeDir with
      | inr err =>
          inr (unconnected clusterConfig ("cannot expand tilde in path: " +:+ err))
      | inl homeDir => inl (filepath_Join [homeDir; string_from 2 kubeconfigPath])
      end
    else inl kubeconfigPath in
  match expanded with
  | inr client => client
  | inl kubeconfigPath =>
  (* Step 2: REST config *)
  match clientcmd_ClientConfig kubeconfigPath (config.Context clusterConfig) with
  | inr err => unconnected clusterConfig ("failed to load kubeconfig: " +:+ err)
  | inl restConfig =>
  (* Step 3: timeout *)
  let timeout := wrap64 (config.Timeout (config m) * time_Second) in
  let restConfig := rest.mkConfig (rest.Host restConfig) timeout in
  (* Step 4: clientset *)
  match kubernetes_NewForConfig restConfig with
  | inr err => unconnected clusterConfig ("failed to create Kubernetes client: " +:+ err)
  | inl clientset =>
  (* Step 5: probe *)
  match Discovery_ServerVersion w clientset with
  | Some err => unconnected clusterConfig ("failed to connect to cluster: " +:+ err)
  | None => mkClusterClient clusterConfig (Some restConfig) (Some clientset) true None
  end end end end end.

(** The line [connectToAllClusters] records for a handle that did not
    connect. *)
Definition failureLine (client : ClusterClient) : string :=
  "Failed to connect to " +:+ config.Name (Config client) +:+ ": "
  +:+ fmt_v (Error client).

(** One turn of the loop [for client := range connectionResults]. *)
Definition collect (st : list string * nat) (client : ClusterClient)
    : method (list string * nat) :=
  let '(connectionErrors, successfulConnections) := st in
  _ ← Lock_store (config.Name (Config client)) client;
  if Connected client then mret (connectionErrors, S successfulConnections)
  else mret ((connectionErrors ++ [failureLine client])%list,
             successfulConnections).

Fixpoint collect_all (arrived : list ClusterClient) (st : list string * nat)
    : method (list string * nat) :=
  match arrived with
  | [] => mret st
  | client :: rest => st' ← collect st client; collect_all rest st'
  end.

(** Every configured cluster gets a goroutine that sends the handle
    [connectToCluster] built; the handles reach the collecting loop in the
    order the goroutines finish. *)
Definition connectToAllClusters (w : World) (sched : Schedule config.ClusterConfig)
    : method error :=
  m ← this;
  let arrived := map (connectToCluster m w) (sched (config.Clusters (config m))) in
  st ← collect_all arrived ([], 0%nat);
  let '(connectionErrors, successfulConnections) := st in
  if bool_decide (successfulConnections = 0%nat) then
    mret (Some ("failed to connect to any clusters:" +:+ nl
                +:+ strings_Join connectionErrors nl))
  else mret None.

(** The handles the goroutines of [NewManager] build, in configuration
    order. *)
Definition attempts (cfg : config.MultiClusterConfig) (w : World)
    : list ClusterClient :=
  map (connectToCluster (mkManager ∅ cfg) w) (config.Clusters cfg).

Definition NewManager (cfg : config.MultiClusterConfig) (w : World)
    (sched : Schedule config.ClusterConfig) : Manager + string :=
  let manager := mkManager ∅ cfg in
  match connectToAllClusters w sched manager with
  | (Some err, _) => inr ("failed to connect to clusters: " +:+ err)
  | (None, manager) => inl manager
  end.

Definition GetClient (clusterName : string) : method (ClusterClient + string) :=
  cs ← RLock_clients;
  match cs !! clusterName with
  | None => mret (inr ("cluster '" +:+ clusterName +:+ "' not found in configuration"))
  | Some client =>
      if negb (Connected client) then
        mret (inr ("cluster '" +:+ clusterName +:+ "' is not connected: "
                   +:+ fmt_v (Error client)))
      else mret (inl client)
  end.

Definition GetDefaultClient (order : RangeOrder) : method (ClusterClient + string) :=
  cfg ← get_config;
  match List.find config.IsDefault (config.Clusters cfg) with
  | Some clusterConfig => GetClient (config.Name clusterConfig)
  | None =>
      (* If no default is set, return the first available cluster *)
      cs ← RLock_clients;
      match List.find (λ e, Connected e.2) (range order cs) with
      | Some (_, client) => mret (inl client)
      | None => mret (inr "no connected clusters available")
      end
  end.

Definition statusOf (client : ClusterClient) : ClusterStatus.t :=
  ClusterStatus.mk
    (config.Name (Config client))
    (config.Environment (Config client))
    (config.Region (Config client))
    (Connected client)
    (config.IsDefault (Config client))
    (match Error client with Some err => err | None => "" end).

Definition ListClusters (order : RangeOrder) : method (list ClusterStatus.t) :=
  cs ← RLock_clients;
  mret (map (λ e, statusOf e.2) (range order cs)).

(** The loop of [TestConnections] over the visited entries. *)
Fixpoint probe_all (w : World) (entries : list (string * ClusterClient))
    (errors : list string) : result (list string) :=
  match entries with
  | [] => Ok errors
  | (name, client) :: rest =>
      if negb (Connected client) then probe_all w rest errors
      else
        clientset ← deref (Clientset client);
        match Discovery_ServerVersion w clientset with
        | Some err => probe_all w rest (errors ++ ["Cluster " +:+ name +:+ ": " +:+ err])%list
        | None => probe_all w rest errors
        end
  end.

Definition TestConnections (w : World) (order : RangeOrder) : method (result error) :=
  cs ← RLock_clients;
  mret (errors ← probe_all w (range order cs) [];
        if bool_decide (0 < length errors)%nat then
          Ok (Some ("connection test failed:" +:+ nl +:+ strings_Join errors nl))
        else Ok None).

End with_env.

End cluster.

(** ** Package workload *)

Module workload.

Record Manager := mkManager {
  clusterManager : cluster.Manager;
}.

Definition NewManager (clusterManager : cluster.Manager) : Manager :=
  mkManager clusterManager.

Module DeploymentInfo.
Record t := mk {
  ClusterName : string;
  Namespace : string;
  Name : string;
  Replicas : Z;                (* int32 *)
  ReadyReplicas : Z;           (* int32 *)
  Image : string;
  Status : string;
  Age : string;
  Error : string;
}.
End DeploymentInfo.

(** The status chain of [getDeploymentsFromCluster], on the desired count
    (the value [*deployment.Spec.Replicas]) and the ready count. *)
Definition deploymentStatus (desired ready : Z) : string :=
  if bool_decide (ready = desired) then "Ready"
  else if bool_decide (ready > 0) then "Partial"
  else if bool_decide (ready = 0) then "NotReady"
  else "Unknown".

(** What the mutation path acts on: the API servers and the requests issued
    to them so far. *)
Record Sys (World : Type) := mkSys {
  world : World;
  calls : list ApiCall;
}.
Arguments mkSys {World} world calls.
Arguments world {World} s.
Arguments calls {World} s.

(** A computation that issues requests and may panic. *)
Definition W (World A : Type) : Type := Sys World → result (A * Sys World).

#[global] Instance W_ret {World} : MRet (W World) := λ A a s, Ok (a, s).

#[global] Instance W_bind {World} : MBind (W World) := λ A B k c s,
  match c s with
  | Ok (a, s') => k a s'
  | Panic msg => Panic msg
  end.

Definition lift {World A} (r : result A) : W World A := λ s,
  match r with
  | Ok a => Ok (a, s)
  | Panic msg => Panic msg
  end.

(** A goroutine of [DeployToMultipleClusters], by how far it has come: not
    yet at its first request; its Get answered; [DeployToCluster] returned;
    the outcome stored and [wg.Done()] called.  Only the store is under the
    mutex: between the Get of one goroutine and its Update or Create the
    others may send their requests. *)
Inductive Goroutine : Type :=
  | Started (name : string)
  | Fetched (name : string) (clientset : kubernetes.Clientset)
      (deployment : appsv1.Deployment) (got : appsv1.Deployment + string)
  | Returned (name : string) (err : error)
  | Stored (name : string) (err : error).

Section with_env.
Context {hostI : Host} {World : Type} {apiI : KubeAPI World} {yamlI : Yaml}.

(** The single-entry slice returned for a cluster that could not be
    queried: only [ClusterName] and [Error] are set. *)
Definition errorEntry (clusterName err : string) : DeploymentInfo.t :=
  DeploymentInfo.mk clusterName "" "" 0 0 "" "" "" err.

(** The body of the loop over [deployments.Items]. *)
Definition deploymentInfo (clusterName : string) (deployment : appsv1.Deployment)
    : result DeploymentInfo.t :=
  let image :=
    match appsv1.Containers (appsv1.Spec deployment) with
    | c :: _ => appsv1.Image c
    | [] => "unknown"
    end in
  let ready := appsv1.ReadyReplicas (appsv1.Status deployment) in
  desired ← deref (appsv1.Replicas (appsv1.Spec deployment));
  let status := deploymentStatus desired ready in
  let age := time_Since_Round (appsv1.CreationTimestamp deployment) in
  replicas ← deref (appsv1.Replicas (appsv1.Spec deployment));
  Ok (DeploymentInfo.mk clusterName (appsv1.Namespace deployment)
        (appsv1.Name deployment) replicas ready image status
        (formatDuration age) "").

Definition getDeploymentsFromCluster (m : Manager) (w : World)
    (clusterName namespace : string) : result (list DeploymentInfo.t) :=
  match (cluster.GetClient clusterName (clusterManager m)).1 with
  | inr err =>
      Ok [errorEntry clusterName ("Failed to get cluster client: " +:+ err)]
  | inl client =>
      clientset ← deref (cluster.Clientset client);
      match Deployments_List w clientset namespace with
      | inr err =>
          Ok [errorEntry clusterName ("Failed to list deployments: " +:+ err)]
      | inl items => result_mapM (deploymentInfo clusterName) items
      end
  end.

(** A target whose query fails: the client lookup or the list call returns
    an error. *)
Definition targetFails (m : Manager) (w : World) (namespace clusterName : string)
    : bool :=
  match (cluster.GetClient clusterName (clusterManager m)).1 with
  | inr _ => true
  | inl client =>
      match cluster.Clientset client with
      | None => false
      | Some clientset =>
          match Deployments_List w clientset namespace with
          | inr _ => true
          | inl _ => false
          end
      end
  end.

(** The deployments a target lists when its query goes through. *)
Definition listedBy (m : Manager) (w : World) (namespace clusterName : string)
    : list appsv1.Deployment :=
  match (cluster.GetClient clusterName (clusterManager m)).1 with
  | inr _ => []
  | inl client =>
      match cluster.Clientset client with
      | None => []
      | Some clientset =>
          match Deployments_List w clientset namespace with
          | inr _ => []
          | inl items => items
          end
      end
  end.

(** An entry that reports a failure: [deployment.Error != ""]. *)
Definition isErrorEntry (e : DeploymentInfo.t) : bool :=
  negb (String.eqb (DeploymentInfo.Error e) "").

(** The clusters a listing with no names given goes to. *)
Definition connectedNames (m : Manager) (order : cluster.RangeOrder) : list string :=
  map cluster.ClusterStatus.Name
    (List.filter cluster.ClusterStatus.Connected
       (cluster.ListClusters order (clusterManager m)).1).

Definition listTargets (m : Manager) (order : cluster.RangeOrder)
    (clusterNames : list string) : list string :=
  if bool_decide (length clusterNames = 0%nat) then connectedNames m order
  else clusterNames.

(** One goroutine per target sends its slice; the slices are appended in
    the order the goroutines finish.  A panic in a goroutine ends the
    process. *)
Definition ListDeployments (m : Manager) (w : World) (order : cluster.RangeOrder)
    (sched : cluster.Schedule string) (clusterNames : list string)
    (namespace : string) : result (list DeploymentInfo.t * error) :=
  let clusterNames := listTargets m order clusterNames in
  delivered ← result_mapM (λ name, getDeploymentsFromCluster m w name namespace)
                (sched clusterNames);
  Ok (concat delivered, None).

Definition api_Get (clientset : kubernetes.Clientset) (namespace name : string)
    : W World (appsv1.Deployment + string) := λ s,
  Ok (Deployments_Get (world s) clientset namespace name,
      mkSys (world s) (calls s ++ [CallGet clientset namespace name])).

Definition api_Update (clientset : kubernetes.Clientset) (namespace : string)
    (deployment : appsv1.Deployment) : W World (appsv1.Deployment + string) := λ s,
  let '(w', r) := Deployments_Update (world s) clientset namespace deployment in
  Ok (r, mkSys w' (calls s ++ [CallUpdate clientset namespace deployment])).

Definition api_Create (clientset : kubernetes.Clientset) (namespace : string)
    (deployment : appsv1.Deployment) : W World (appsv1.Deployment + string) := λ s,
  let '(w', r) := Deployments_Create (world s) clientset namespace deployment in
  Ok (r, mkSys w' (calls s ++ [CallCreate clientset namespace deployment])).

(** The document's [kind]: [obj["kind"].(string)]. *)
Definition kindOf (obj : gmap string YamlValue) : option string :=
  match obj !! "kind" with
  | Some (YString kind) => Some kind
  | _ => None
  end.

(** The kind a manifest declares, if it decodes and has one. *)
Definition declaredKind (yamlContent : string) : option string :=
  match yaml_Unmarshal_map yamlContent with
  | inl obj => kindOf obj
  | inr _ => None
  end.

(** [if deployment.Namespace == "" { deployment.Namespace = namespace }]. *)
Definition inNamespace (namespace : string) (deployment : appsv1.Deployment)
    : appsv1.Deployment :=
  if bool_decide (appsv1.Namespace deployment = "")
  then appsv1.set_Namespace namespace deployment else deployment.

(** The [case "Deployment"] branch of [DeployToCluster]. *)
Definition applyDeployment (client : cluster.ClusterClient)
    (clusterName namespace yamlContent : string) : W World error :=
  match yaml_Unmarshal_Deployment yamlContent with
  | inr err => mret (Some ("failed to parse Deployment YAML: " +:+ err))
  | inl deployment =>
      let deployment := inNamespace namespace deployment in
      clientset ← lift (deref (cluster.Clientset client));
      got ← api_Get clientset (appsv1.Namespace deployment) (appsv1.Name deployment);
      match got with
      | inl existing =>
          let deployment :=
            appsv1.set_ResourceVersion (appsv1.ResourceVersion existing) deployment in
          updated ← api_Update clientset (appsv1.Namespace deployment) deployment;
          match updated with
          | inr err => mret (Some ("failed to update deployment: " +:+ err))
          | inl _ => mret None
          end
      | inr _ =>
          created ← api_Create clientset (appsv1.Namespace deployment) deployment;
          match created with
          | inr err => mret (Some ("failed to create deployment: " +:+ err))
          | inl _ => mret None
          end
      end
  end.

Definition DeployToCluster (m : Manager) (clusterName namespace yamlContent : string)
    : W World error :=
  match (cluster.GetClient clusterName (clusterManager m)).1 with
  | inr err =>
      mret (Some ("failed to get cluster client for " +:+ clusterName +:+ ": " +:+ err))
  | inl client =>
      match yaml_Unmarshal_map yamlContent with
      | inr err => mret (Some ("failed to parse YAML: " +:+ err))
      | inl obj =>
          match kindOf obj with
          | None => mret (Some "YAML must specify a 'kind' field")
          | Some kind =>
              if bool_decide (kind = "Deployment")
              then applyDeployment client clusterName namespace yamlContent
              else mret (Some ("resource kind '" +:+ kind +:+ "' is not supported yet"))
          end
      end
  end.

(** [DeployToCluster] from its entry to the moment its Get has returned:
    the goroutine has either returned already, or holds the decoded
    manifest and the answer to its Get. *)
Definition deployUntilGet (m : Manager) (name namespace yamlContent : string)
    : W World Goroutine :=
  match (cluster.GetClient name (clusterManager m)).1 with
  | inr err =>
      mret (Returned name
              (Some ("failed to get cluster client for " +:+ name +:+ ": " +:+ err)))
  | inl client =>
      match yaml_Unmarshal_map yamlContent with
      | inr err => mret (Returned name (Some ("failed to parse YAML: " +:+ err)))
      | inl obj =>
          match kindOf obj with
          | None => mret (Returned name (Some "YAML must specify a 'kind' field"))
          | Some kind =>
              if bool_decide (kind = "Deployment") then
                match yaml_Unmarshal_Deployment yamlContent with
                | inr err =>
                    mret (Returned name
                            (Some ("failed to parse Deployment YAML: " +:+ err)))
                | inl deployment =>
                    let deployment := inNamespace namespace deployment in
                    clientset ← lift (deref (cluster.Clientset client));
                    got ← api_Get clientset
                            (appsv1.Namespace deployment) (appsv1.Name deployment);
                    mret (Fetched name clientset deployment got)
                end
              else
                mret (Returned name
                        (Some ("resource kind '" +:+ kind +:+ "' is not supported yet")))
          end
      end
  end.

(** [DeployToCluster] from the return of its Get to its own return: one
    Update or one Create. *)
Definition deployAfterGet (clientset : kubernetes.Clientset)
    (deployment : appsv1.Deployment) (got : appsv1.Deployment + string)
    : W World error :=
  match got with
  | inl existing =>
      let deployment :=
        appsv1.set_ResourceVersion (appsv1.ResourceVersion existing) deployment in
      updated ← api_Update clientset (appsv1.Namespace deployment) deployment;
      match updated with
      | inr err => mret (Some ("failed to update deployment: " +:+ err))
      | inl _ => mret None
      end
  | inr _ =>
      created ← api_Create clientset (appsv1.Namespace deployment) deployment;
      match created with
      | inr err => mret (Some ("failed to create deployment: " +:+ err))
      | inl _ => mret None
      end
  end.

(** One step of a goroutine of [DeployToMultipleClusters]: up to its Get,
    then its Update or Create, then [results[name] = err] under the mutex.
    Between two steps of one goroutine the others may take theirs. *)
Definition advance (m : Manager) (namespace yamlContent : string)
    (g : Goroutine) (results : gmap string error)
    : W World (Goroutine * gmap string error) :=
  match g with
  | Started name =>
      g' ← deployUntilGet m name namespace yamlContent;
      mret (g', results)
  | Fetched name clientset deployment got =>
      err ← deployAfterGet clientset deployment got;
      mret (Returned name err, results)
  | Returned name err => mret (Stored name err, <[name := err]> results)
  | Stored name err => mret (Stored name err, results)
  end.

(** The goroutines under a scheduler: [picks] names, step after step, the
    goroutine (by its position in [clusterNames]) that takes its next
    step; a pick of no goroutine is passed over, and a goroutine that has
    stored its outcome has no step left to take. *)
Fixpoint runGoroutines (m : Manager) (namespace yamlContent : string)
    (picks : list nat) (goroutines : list Goroutine) (results : gmap string error)
    : W World (list Goroutine * gmap string error) :=
  match picks with
  | [] => mret (goroutines, results)
  | i :: picks =>
      match goroutines !! i with
      | None => runGoroutines m namespace yamlContent picks goroutines results
      | Some g =>
          r ← advance m namespace yamlContent g results;
          runGoroutines m namespace yamlContent picks (<[i := r.1]> goroutines) r.2
      end
  end.

(** [wg.Wait()] returns once every goroutine has called [wg.Done()]: the
    goroutines that [picks] has not yet brought to their end take their
    remaining steps (at most three each).  After picks that bring every
    goroutine to its end these steps change nothing, so [picks] ranges
    over every interleaving. *)
Definition untilAllDone (n : nat) : list nat :=
  flat_map (λ i, [i; i; i]) (seq 0 n).

(** One goroutine per requested name; [picks] is the order in which the
    scheduler lets them step. *)
Definition DeployToMultipleClusters (m : Manager) (picks : list nat)
    (clusterNames : list string) (namespace yamlContent : string)
    : W World (gmap string error) :=
  r ← runGoroutines m namespace yamlContent
        (picks ++ untilAllDone (length clusterNames))
        (map Started clusterNames) ∅;
  mret r.2.

End with_env.

End workload.

(** ** A concrete environment

    In-memory API servers in the manner of client-go's fake clientset (one
    object store per host, optimistic concurrency on the resource version),
    a host with a home directory, and a decoder that knows three
    documents.  The theorems below hold for every environment; this one
    shows their hypotheses can be met. *)

Module fake.

Definition World : Type := gmap string (gmap string appsv1.Deployment).

(** The key of an object in its server's store. *)
Definition objectKey (namespace name : string) : string :=
  namespace +:+ "/" +:+ name.

Definition hostOf (clientset : kubernetes.Clientset) : string :=
  rest.Host (kubernetes.restConfig clientset).

Definition host : Host := {|
  os_UserHomeDir := inl "/home/op";
  os_Stat := λ _, None;
  os_Getenv := λ _, "";
  os_ReadFile := λ _, inr "no such file or directory";
  filepath_Join := λ parts, strings_Join parts "/";
  clientcmd_ClientConfig := λ path context,
    if bool_decide (context = "") then inr "context was not found"
    else inl (rest.mkConfig context 0);
  kubernetes_NewForConfig := λ restConfig, inl (kubernetes.mkClientset restConfig);
  time_Since_Round := λ _, 0;
  formatDuration := λ _, "0s";
|}.

Definition api : KubeAPI World := {|
  Discovery_ServerVersion := λ w clientset,
    match w !! hostOf clientset with
    | Some _ => None
    | None => Some "connection refused"
    end;
  Deployments_List := λ w clientset namespace,
    match w !! hostOf clientset with
    | None => inr "connection refused"
    | Some objects =>
        inl (map snd
               (List.filter
                  (λ e, bool_decide (namespace = "")
                        || String.prefix (namespace +:+ "/") e.1)
                  (map_to_list objects)))
    end;
  Deployments_Get := λ w clientset namespace name,
    match w !! hostOf clientset with
    | None => inr "connection refused"
    | Some objects =>
        match objects !! objectKey namespace name with
        | Some found => inl found
        | None => inr "not found"
        end
    end;
  Deployments_Update := λ w clientset namespace deployment,
    match w !! hostOf clientset with
    | None => (w, inr "connection refused")
    | Some objects =>
        match objects !! objectKey namespace (appsv1.Name deployment) with
        | None => (w, inr "not found")
        | Some stored =>
            if bool_decide (appsv1.ResourceVersion deployment
                            = appsv1.ResourceVersion stored) then
              let saved :=
                appsv1.set_ResourceVersion
                  (appsv1.ResourceVersion stored +:+ "+") deployment in
              (<[hostOf clientset :=
                   <[objectKey namespace (appsv1.Name deployment) := saved]> objects]> w,
               inl saved)
            else (w, inr "the object has been modified")
        end
    end;
  Deployments_Create := λ w clientset namespace deployment,
    match w !! hostOf clientset with
    | None => (w, inr "connection refused")
    | Some objects =>
        match objects !! objectKey namespace (appsv1.Name deployment) with
        | Some _ => (w, inr "already exists")
        | None =>
            let saved := appsv1.set_ResourceVersion "1" deployment in
            (<[hostOf clientset :=
                 <[objectKey namespace (appsv1.Name deployment) := saved]> objects]> w,
             inl saved)
        end
    end;
|}.

Definition webManifest : string := "kind: Deployment, name: web".
Definition serviceManifest : string := "kind: Service, name: web".
Definition kindlessManifest : string := "name: web".

Definition web (replicas : option Z) (ready : Z) : appsv1.Deployment :=
  appsv1.mkDeployment "" "web" "" 0
    (appsv1.mkSpec replicas [appsv1.mkContainer "nginx:1.25"])
    (appsv1.mkStatus ready).

Definition yaml : Yaml := {|
  yaml_Unmarshal_map := λ text,
    if bool_decide (text = webManifest) then
      inl {[ "kind" := YString "Deployment" ]}
    else if bool_decide (text = serviceManifest) then
      inl {[ "kind" := YString "Service" ]}
    else if bool_decide (text = kindlessManifest) then
      inl {[ "name" := YString "web" ]}
    else inr "error converting YAML to JSON";
  yaml_Unmarshal_Deployment := λ text,
    if bool_decide (text = webManifest) then inl (web (Some 3) 0)
    else inr "error unmarshaling JSON";
|}.

Definition clusterA : config.ClusterConfig :=
  config.mkClusterConfig "A" "ctx-a" "" "" "" true.
Definition clusterB : config.ClusterConfig :=
  config.mkClusterConfig "B" "ctx-b" "" "" "" false.
Definition clusterC : config.ClusterConfig :=
  config.mkClusterConfig "C" "ctx-c" "" "" "" false.

Definition cfg (clusters : list config.ClusterConfig) : config.MultiClusterConfig :=
  config.mkMultiClusterConfig clusters "default" 30.

(** Only the server behind [ctx-a] answers; it holds no object. *)
Definition onlyA : World := {[ "ctx-a" := ∅ ]}.

(** Only the server behind [ctx-b] answers. *)
Definition onlyB : World := {[ "ctx-b" := ∅ ]}.

(** The servers behind [ctx-a] and [ctx-b] answer; [ctx-a] holds a
    deployment with three desired and two ready replicas, [ctx-b] none. *)
Definition bothUp : World :=
  {[ "ctx-a" := {[ objectKey "default" "web" := web (Some 3) 2 ]}; "ctx-b" := ∅ ]}.

(** As [bothUp], but the deployment on [ctx-a] carries no desired count. *)
Definition nilReplicas : World :=
  {[ "ctx-a" := {[ objectKey "default" "web" := web None 2 ]}; "ctx-b" := ∅ ]}.

(** The manager [NewManager] builds, or an empty one when it fails. *)
Definition managerOf (c : config.MultiClusterConfig) (w : World) : cluster.Manager :=
  match cluster.NewManager (hostI := host) (apiI := api) c w id with
  | inl m => m
  | inr _ => cluster.mkManager ∅ c
  end.

(** The registry over two clusters that both answer, the state before a
    first mutation, and the state a first deployment of the web manifest
    to B leaves. *)
Definition fleet : workload.Manager :=
  workload.mkManager (managerOf (cfg [clusterA; clusterB]) bothUp).

Definition start : workload.Sys World := workload.mkSys bothUp [].

Definition afterFirst : workload.Sys World :=
  match workload.DeployToCluster (apiI := api) (yamlI := yaml)
          fleet "B" "default" webManifest start with
  | Ok (_, s) => s
  | Panic _ => start
  end.

End fake.

(** ** More of the Go library *)

(** [strings.Contains]. *)
Fixpoint strings_Contains (s substr : string) : bool :=
  String.prefix substr s
  || match s with
     | EmptyString => false
     | String _ rest => strings_Contains rest substr
     end.

(** [strings.Split(s, sep)] for a separator of one byte, the only kind the
    commands use ([","] and ["/"]): the pieces between the separators, a
    single piece when there is none. *)
Fixpoint strings_Split (s : string) (sep : Ascii.ascii) : list string :=
  match s with
  | EmptyString => [EmptyString]
  | String c rest =>
      if Ascii.eqb c sep then EmptyString :: strings_Split rest sep
      else
        match strings_Split rest sep with
        | piece :: pieces => String c piece :: pieces
        | [] => [String c EmptyString]
        end
  end.

(** The slice expression [s[:n]], for [n] within the string. *)
Definition string_to (n : nat) (s : string) : string := String.substring 0 n s.

(** [sort.Strings]: the ascending arrangement under Go's [<] on strings,
    the byte-wise lexicographic order that [String.leb] decides. *)
Definition sort_Strings (xs : list string) : list string :=
  merge_sort (λ a b : string, String.leb a b) xs.

(** [int32] arithmetic. *)
Definition wrap32 (z : Z) : Z := (z + 2^31) `mod` 2^32 - 2^31.

(** [strings.TrimSpace] removes the leading and trailing white space, as
    Unicode defines it; the classification of code points is the
    library's. *)
Class GoStrings := {
  strings_TrimSpace : string → string;
}.

(** [time.Since], not rounded. *)
Class Clock := {
  time_Since : Z → Z;
}.

Module corev1.
Record ContainerStatus := mkContainerStatus {
  Ready : bool;
  RestartCount : Z;                    (* int32 *)
}.

Record Pod := mkPod {
  Namespace : string;
  Name : string;
  CreationTimestamp : Z;
  Containers : list appsv1.Container;  (* Spec.Containers *)
  NodeName : string;                   (* Spec.NodeName *)
  Phase : string;                      (* Status.Phase *)
  ContainerStatuses : list ContainerStatus;
}.
End corev1.

(** The pod endpoints of the API servers:
    [clientset.CoreV1().Pods(namespace).List(ctx, options)], with the label
    selector the only option the code sets. *)
Class PodsAPI (World : Type) := {
  Pods_List :
    World → kubernetes.Clientset → string → string → list corev1.Pod + string;
}.

(** ** Package workload: the pod listing *)

Module workload_pods.

Module PodInfo.
Record t := mk {
  ClusterName : string;
  Namespace : string;
  Name : string;
  Status : string;
  Ready : string;
  Restarts : Z;                (* int32 *)
  Age : string;
  Node : string;
  CreatedAt : Z;               (* time.Time, 0 the zero value *)
}.
End PodInfo.

Section with_env.
Context {hostI : Host} {clockI : Clock} {World : Type} {apiI : KubeAPI World}
  {podsI : PodsAPI World}.

(** The single-entry slice returned for a cluster that could not be
    queried: the name is ["error"] and the message goes into [Status]. *)
Definition errorPod (clusterName status : string) : PodInfo.t :=
  PodInfo.mk clusterName "" "error" status "" 0 "" "" 0.

(** The two loops over [pod.Status.ContainerStatuses]. *)
Definition readyContainers (statuses : list corev1.ContainerStatus) : nat :=
  foldl (λ n condition, if corev1.Ready condition then S n else n) 0%nat statuses.

Definition totalRestarts (statuses : list corev1.ContainerStatus) : Z :=
  foldl (λ total containerStatus,
           wrap32 (total + corev1.RestartCount containerStatus)) 0 statuses.

(** The body of the loop over [pods.Items]. *)
Definition podInfo (clusterName : string) (pod : corev1.Pod) : PodInfo.t :=
  let totalContainers := length (corev1.Containers pod) in
  let nodeName :=
    if bool_decide (corev1.NodeName pod = "") then "unscheduled"
    else corev1.NodeName pod in
  PodInfo.mk clusterName (corev1.Namespace pod) (corev1.Name pod)
    (corev1.Phase pod)
    (pretty (readyContainers (corev1.ContainerStatuses pod)) +:+ "/"
     +:+ pretty totalContainers)
    (totalRestarts (corev1.ContainerStatuses pod))
    (formatDuration (time_Since (corev1.CreationTimestamp pod)))
    nodeName
    (corev1.CreationTimestamp pod).

Definition getPodsFromCluster (m : workload.Manager) (w : World)
    (clusterName namespace labelSelector : string) : result (list PodInfo.t) :=
  match (cluster.GetClient clusterName (workload.clusterManager m)).1 with
  | inr err =>
      Ok [errorPod clusterName ("Failed to get cluster client: " +:+ err)]
  | inl client =>
      let listOptions :=
        if bool_decide (labelSelector ≠ "") then labelSelector else "" in
      clientset ← deref (cluster.Clientset client);
      match Pods_List w clientset namespace listOptions with
      | inr err => Ok [errorPod clusterName ("Failed to list pods: " +:+ err)]
      | inl items => Ok (map (podInfo clusterName) items)
      end
  end.

(** As in [ListDeployments]: the targets default to the connected
    clusters, one goroutine per target sends its slice, and the slices are
    appended in the order the goroutines finish. *)
Definition ListPods (m : workload.Manager) (w : World) (order : cluster.RangeOrder)
    (sched : cluster.Schedule string) (clusterNames : list string)
    (namespace labelSelector : string) : result (list PodInfo.t * error) :=
  let clusterNames := workload.listTargets m order clusterNames in
  delivered ← result_mapM
                (λ name, getPodsFromCluster m w name namespace labelSelector)
                (sched clusterNames);
  Ok (concat delivered, None).

End with_env.

End workload_pods.

(** ** Package main (cmd/mcm) *)

Module mcm.

(** The order in which one [range] over a map visits its entries. *)
Definition MapOrder (V : Type) : Type := list (string * V) → list (string * V).

Definition map_order_ok {V} (order : MapOrder V) (m : gmap string V) : Prop :=
  order (map_to_list m) ≡ₚ map_to_list m.

Module PodSummary.
Record t := mk {
  Running : nat;
  Pending : nat;
  Failed : nat;
  Succeeded : nat;
  Unknown : nat;
  Other : nat;
}.
End PodSummary.

(** What the deploy command reads from its flags. *)
Record DeployFlags := mkDeployFlags {
  clustersFlag : string;       (* --clusters *)
  allClusters : bool;          (* --all-clusters *)
  excludeFlag : string;        (* --exclude *)
}.

(** *** The deployments command *)

(** The comparison handed to [sort.Slice] by the deployments command. *)
Definition deploymentLess (a b : workload.DeploymentInfo.t) : bool :=
  if bool_decide (workload.DeploymentInfo.ClusterName a
                  ≠ workload.DeploymentInfo.ClusterName b) then
    String.ltb (workload.DeploymentInfo.ClusterName a)
      (workload.DeploymentInfo.ClusterName b)
  else if bool_decide (workload.DeploymentInfo.Namespace a
                       ≠ workload.DeploymentInfo.Namespace b) then
    String.ltb (workload.DeploymentInfo.Namespace a)
      (workload.DeploymentInfo.Namespace b)
  else
    String.ltb (workload.DeploymentInfo.Name a) (workload.DeploymentInfo.Name b).

(** The image column of [outputDeploymentsTable].  [parts[0]] and
    [parts[len(parts)-1]] are read only when there are two parts or more. *)
Definition imageCell (image : string) : string :=
  if bool_decide (40 < String.length image)%nat then
    let parts := strings_Split image "/"%char in
    let image :=
      if bool_decide (1 < length parts)%nat then
        default "" (head parts) +:+ "/..." +:+ default "" (last parts)
      else image in
    if bool_decide (40 < String.length image)%nat then string_to 37 image +:+ "..."
    else image
  else image.

(** The set built by [countUniqueClusters] and [getUniqueClusters]. *)
Definition clusterSetOf (deployments : list workload.DeploymentInfo.t)
    : gmap string bool :=
  foldl (λ clusters deployment,
           <[workload.DeploymentInfo.ClusterName deployment := true]> clusters)
    ∅ deployments.

Definition countUniqueClusters (deployments : list workload.DeploymentInfo.t) : nat :=
  size (clusterSetOf deployments).

Definition getUniqueClusters (order : MapOrder bool)
    (deployments : list workload.DeploymentInfo.t) : list string :=
  let clusterSet := clusterSetOf deployments in
  let clusters := map fst (order (map_to_list clusterSet)) in
  sort_Strings clusters.

(** *** The pods command *)

(** The rows [outputPodsTable] prints as [ERROR]. *)
Definition isErrorRow (pod : workload_pods.PodInfo.t) : bool :=
  strings_Contains (workload_pods.PodInfo.Status pod) "Failed to"
  || strings_Contains (workload_pods.PodInfo.Name pod) "error".

(** The name and node columns of [outputPodsTable]. *)
Definition podNameCell (podName : string) : string :=
  if bool_decide (35 < String.length podName)%nat then string_to 32 podName +:+ "..."
  else podName.

Definition nodeCell (nodeName : string) : string :=
  if bool_decide (20 < String.length nodeName)%nat then string_to 17 nodeName +:+ "..."
  else nodeName.

Definition generatePodSummary (pods : list workload_pods.PodInfo.t) : PodSummary.t :=
  foldl (λ summary pod,
           let '(PodSummary.mk running pending failed succeeded unknown other) :=
             summary in
           let status := workload_pods.PodInfo.Status pod in
           if bool_decide (status = "Running") then
             PodSummary.mk (S running) pending failed succeeded unknown other
           else if bool_decide (status = "Pending") then
             PodSummary.mk running (S pending) failed succeeded unknown other
           else if bool_decide (status = "Failed") then
             PodSummary.mk running pending (S failed) succeeded unknown other
           else if bool_decide (status = "Succeeded") then
             PodSummary.mk running pending failed (S succeeded) unknown other
           else if bool_decide (status = "Unknown") then
             PodSummary.mk running pending failed succeeded (S unknown) other
           else
             PodSummary.mk running pending failed succeeded unknown (S other))
    (PodSummary.mk 0 0 0 0 0 0) pods.

Definition countPodsByStatus (pods : list workload_pods.PodInfo.t) (status : string)
    : nat :=
  foldl (λ count pod,
           if bool_decide (workload_pods.PodInfo.Status pod = status) then S count
           else count)
    0%nat pods.

(** *** The clusters and deploy commands (clusters.go) *)

(** The error column of [outputClustersTable]. *)
Definition errorCell (errorMsg : string) : string :=
  let errorMsg :=
    if bool_decide (50 < String.length errorMsg)%nat
    then string_to 47 errorMsg +:+ "..." else errorMsg in
  if bool_decide (errorMsg = "") then "-" else errorMsg.

(** An error [reportDeploymentResults] files under the warnings. *)
Definition isWarning (errorMsg : string) : bool :=
  strings_Contains errorMsg "already exists"
  || strings_Contains errorMsg "no changes".

(** One turn of the loop of [reportDeploymentResults] over the results:
    the success count, the failures and the warnings. *)
Definition tally (st : nat * list string * list string) (entry : string * error)
    : nat * list string * list string :=
  let '(successCount, failures, warnings) := st in
  let '(clusterName, err) := entry in
  match err with
  | None => (S successCount, failures, warnings)
  | Some errorMsg =>
      if isWarning errorMsg then
        (successCount, failures,
         (warnings ++ [clusterName +:+ ": " +:+ errorMsg])%list)
      else
        (successCount,
         (failures ++ [clusterName +:+ ": " +:+ errorMsg])%list, warnings)
  end.

Definition reportDeploymentResults (order : MapOrder error)
    (results : gmap string error) (yamlFile : string) : error :=
  let '(successCount, failures, warnings) :=
    foldl tally (0%nat, [], []) (order (map_to_list results)) in
  let totalClusters := size results in
  if bool_decide (successCount = totalClusters) then None
  else if bool_decide (0 < length failures)%nat then
    Some ("deployment failed on " +:+ pretty (length failures) +:+ "/"
          +:+ pretty totalClusters +:+ " clusters")
  else None.

Section with_env.
Context {hostI : Host} {stringsI : GoStrings} {configYamlI : config.ConfigYaml}
  {World : Type} {apiI : KubeAPI World}.

(** *** The deployments command, continued *)

Definition parseClusterList (clusterString : string) : list string :=
  if bool_decide (clusterString = "") then []
  else
    let clusters := strings_Split clusterString ","%char in
    foldl (λ result cluster,
             let cluster := strings_TrimSpace cluster in
             if bool_decide (cluster ≠ "") then (result ++ [cluster])%list
             else result)
      [] clusters.

(** *** The deploy command, continued *)

(** The loop of [parseDeploymentTargets] that checks the clusters named
    by [--clusters]. *)
Fixpoint validateTargets (m : cluster.Manager) (targetClusters : list string)
    : error :=
  match targetClusters with
  | [] => None
  | clusterName :: rest =>
      match (cluster.GetClient clusterName m).1 with
      | inr err =>
          Some ("cluster '" +:+ clusterName +:+ "' is not available: " +:+ err)
      | inl client =>
          if negb (cluster.Connected client) then
            Some ("cluster '" +:+ clusterName +:+ "' is not connected")
          else validateTargets m rest
      end
  end.

(** The loop of [parseDeploymentTargets] over the statuses under
    [--all-clusters]. *)
Definition allTargets (excludeList : list string)
    (statuses : list cluster.ClusterStatus.t) : list string :=
  foldl (λ targetClusters status,
           if negb (cluster.ClusterStatus.Connected status) then targetClusters
           else
             let excluded :=
               existsb (λ excludeCluster,
                          bool_decide (cluster.ClusterStatus.Name status
                                       = excludeCluster))
                 excludeList in
             if negb excluded
             then (targetClusters ++ [cluster.ClusterStatus.Name status])%list
             else targetClusters)
    [] statuses.

(** [clusterManager] is the registry the command runs with. *)
Definition parseDeploymentTargets (clusterManager : cluster.Manager)
    (order : cluster.RangeOrder) (flags : DeployFlags) : list string + string :=
  let excludeList :=
    if bool_decide (excludeFlag flags ≠ "") then parseClusterList (excludeFlag flags)
    else [] in
  let chosen : list string + string :=
    if allClusters flags then
      inl (allTargets excludeList (cluster.ListClusters order clusterManager).1)
    else if bool_decide (clustersFlag flags ≠ "") then
      let targetClusters := parseClusterList (clustersFlag flags) in
      match validateTargets clusterManager targetClusters with
      | Some err => inr err
      | None => inl targetClusters
      end
    else
      match (cluster.GetDefaultClient order clusterManager).1 with
      | inr err =>
          inr ("no default cluster available and no clusters specified: " +:+ err)
      | inl defaultClient => inl [config.Name (cluster.Config defaultClient)]
      end in
  match chosen with
  | inr err => inr err
  | inl targetClusters =>
      if bool_decide (length targetClusters = 0%nat) then
        inr "no target clusters identified for deployment"
      else inl targetClusters
  end.

(** *** The config command (config.go) *)

Definition getConfigInitPath : string + string :=
  match os_UserHomeDir with
  | inr err => inr err
  | inl homeDir =>
      let xdg := os_Getenv "XDG_CONFIG_HOME" in
      let configDir :=
        if bool_decide (xdg = "") then filepath_Join [homeDir; ".config"]
        else xdg in
      inl (filepath_Join [configDir; "mcm"; "config.yaml"])
  end.

Definition findConfigPath : string :=
  if bool_decide (os_Stat "./mcm-config.yaml" = None) then "./mcm-config.yaml"
  else
    match os_UserHomeDir with
    | inr _ => ""
    | inl homeDir =>
        let path := filepath_Join [homeDir; ".mcm"; "config.yaml"] in
        if bool_decide (os_Stat path = None) then path
        else
          let xdg := os_Getenv "XDG_CONFIG_HOME" in
          let configDir :=
            if bool_decide (xdg = "") then filepath_Join [homeDir; ".config"]
            else xdg in
          let path := filepath_Join [configDir; "mcm"; "config.yaml"] in
          if bool_decide (os_Stat path = None) then path else ""
    end.

(** *** The root command (main.go) *)

(** The root command's [PersistentPreRunE]: what it leaves in
    [appConfig], [clusterManager] and [workloadManager]. *)
Definition PersistentPreRunE (configPath : string) (w : World)
    (sched : cluster.Schedule config.ClusterConfig)
    : (config.MultiClusterConfig * cluster.Manager * workload.Manager) + string :=
  match config.LoadConfig configPath with
  | inr err => inr ("failed to load configuration: " +:+ err)
  | inl cfg =>
      match cluster.NewManager cfg w sched with
      | inr err => inr ("failed to initialize cluster manager: " +:+ err)
      | inl mgr => inl (cfg, mgr, workload.NewManager mgr)
      end
  end.

End with_env.

End mcm.

(** ** More of the concrete environment

    A host that holds a configuration file and a kubeconfig, the decoder
    for that file, a [TrimSpace] for ASCII blanks, and a pod endpoint. *)

Module sample.

Definition configFile : string := "clusters: [A, B]".

Definition host : Host := {|
  os_UserHomeDir := inl "/home/op";
  os_Stat := λ path,
    if bool_decide (path = "/home/op/.mcm/config.yaml")
       || bool_decide (path = "/home/op/.kube/config")
    then None else Some "no such file or directory";
  os_Getenv := λ _, "";
  os_ReadFile := λ path,
    if bool_decide (path = "/home/op/.mcm/config.yaml") then inl configFile
    else inr "no such file or directory";
  filepath_Join := λ parts, strings_Join parts "/";
  clientcmd_ClientConfig := λ path context,
    if bool_decide (context = "") then inr "context was not found"
    else inl (rest.mkConfig context 0);
  kubernetes_NewForConfig := λ restConfig, inl (kubernetes.mkClientset restConfig);
  time_Since_Round := λ _, 0;
  formatDuration := λ _, "0s";
|}.

(** Two clusters, neither marked as the default; the first names its
    kubeconfig. *)
Definition decoded : config.MultiClusterConfig :=
  config.mkMultiClusterConfig
    [config.mkClusterConfig "A" "ctx-a" "/home/op/.kube/config" "" "" false;
     config.mkClusterConfig "B" "ctx-b" "" "" "" false]
    "" 0.

Definition configYaml : config.ConfigYaml := {|
  config.yaml_Unmarshal_config := λ text,
    if bool_decide (text = configFile) then inl decoded
    else inr "error converting YAML to JSON";
|}.

(** The same host after [mcm config init] on a machine without a
    configuration: the only file is the one written under [.config]. *)
Definition hostAfterInit : Host := {|
  os_UserHomeDir := inl "/home/op";
  os_Stat := λ path,
    if bool_decide (path = "/home/op/.config/mcm/config.yaml")
    then None else Some "no such file or directory";
  os_Getenv := λ _, "";
  os_ReadFile := λ path,
    if bool_decide (path = "/home/op/.config/mcm/config.yaml") then inl configFile
    else inr "no such file or directory";
  filepath_Join := λ parts, strings_Join parts "/";
  clientcmd_ClientConfig := λ path context,
    if bool_decide (context = "") then inr "context was not found"
    else inl (rest.mkConfig context 0);
  kubernetes_NewForConfig := λ restConfig, inl (kubernetes.mkClientset restConfig);
  time_Since_Round := λ _, 0;
  formatDuration := λ _, "0s";
|}.

Definition isBlank (c : Ascii.ascii) : bool :=
  Ascii.eqb c " "%char || Ascii.eqb c (Ascii.ascii_of_nat 9).

Fixpoint trimLeft (s : string) : string :=
  match s with
  | String c rest => if isBlank c then trimLeft rest else s
  | EmptyString => EmptyString
  end.

Definition strings : GoStrings := {|
  strings_TrimSpace := λ s, String.rev (trimLeft (String.rev (trimLeft s)));
|}.

Definition clock : Clock := {| time_Since := λ _, 0 |}.

Definition pod (name node : string) (statuses : list corev1.ContainerStatus)
    : corev1.Pod :=
  corev1.mkPod "default" name 0 [appsv1.mkContainer "nginx:1.25"] node "Running"
    statuses.

(** Every server that answers lists the same two pods. *)
Definition pods : PodsAPI fake.World := {|
  Pods_List := λ w clientset namespace labelSelector,
    match w !! fake.hostOf clientset with
    | None => inr "connection refused"
    | Some _ =>
        inl [pod "web-1" "node-1" [corev1.mkContainerStatus true 2];
             pod "web-2" "" [corev1.mkContainerStatus false 7]]
    end;
|}.

(** The registry the root command builds on this host when both servers
    answer. *)
Definition manager : cluster.Manager :=
  match mcm.PersistentPreRunE (hostI := host) (configYamlI := configYaml)
          (apiI := fake.api) "" fake.bothUp id with
  | inl (_, mgr, _) => mgr
  | inr _ => cluster.mkManager ∅ decoded
  end.

(** The handle of cluster B in the fleet, and its clientset. *)
Definition clientsetB : kubernetes.Clientset :=
  kubernetes.mkClientset (rest.mkConfig "ctx-b" (wrap64 (30 * time_Second))).

Definition handleB : cluster.ClusterClient :=
  cluster.connectToCluster (hostI := fake.host) (apiI := fake.api)
    (cluster.mkManager ∅ (fake.cfg [fake.clusterA; fake.clusterB])) fake.bothUp
    fake.clusterB.










End sample.

(** ** Notions used in the statements and proofs *)

(** What [validateConfig] asks of one cluster entry: a name, a context,
    and a kubeconfig path that exists when one is given. *)
Definition entry_ok {hostI : Host} (c : config.ClusterConfig) : Prop :=
  config.Name c ≠ ""
  ∧ config.Context c ≠ ""
  ∧ (config.KubeConfig c ≠ "" → os_Stat (config.KubeConfig c) = None).

(** The line [TestConnections] reports for a map entry: none for a handle
    that is not connected or whose probe succeeds. *)
Definition probeLine {World : Type} {apiI : KubeAPI World} (w : World)
    (entry : string * cluster.ClusterClient) : option string :=
  if cluster.Connected entry.2 then
    match cluster.Clientset entry.2 with
    | Some clientset =>
        match Discovery_ServerVersion w clientset with
        | Some err => Some ("Cluster " +:+ entry.1 +:+ ": " +:+ err)
        | None => None
        end
    | None => None
    end
  else None.

(** A result [reportDeploymentResults] counts as a failure: an error that
    is not one of the warnings. *)
Definition hardFailure (entry : string * error) : bool :=
  match entry.2 with
  | Some errorMsg => negb (mcm.isWarning errorMsg)
  | None => false
  end.

(** The entry [e] reports the deployment [d] of the cluster
    [clusterName]: the deployment's namespace and name, its desired count
    (which it must carry) and ready count, the image of its first
    container or "unknown", the status of the two counts, its age, and no
    error. *)
Definition reports {hostI : Host} (clusterName : string) (d : appsv1.Deployment)
    (e : workload.DeploymentInfo.t) : Prop :=
  ∃ desired,
    appsv1.Replicas (appsv1.Spec d) = Some desired
    ∧ e = workload.DeploymentInfo.mk clusterName (appsv1.Namespace d) (appsv1.Name d)
            desired (appsv1.ReadyReplicas (appsv1.Status d))
            (match appsv1.Containers (appsv1.Spec d) with
             | c :: _ => appsv1.Image c
             | [] => "unknown"
             end)
            (workload.deploymentStatus desired (appsv1.ReadyReplicas (appsv1.Status d)))
            (formatDuration (time_Since_Round (appsv1.CreationTimestamp d)))
            "".

(** [msg] is the message a target that fails is reported with: the error
    of the client lookup, or else the error of the list call. *)
Definition failureReported {World : Type} {apiI : KubeAPI World}
    (m : workload.Manager) (w : World) (namespace name msg : string) : Prop :=
  match (cluster.GetClient name (workload.clusterManager m)).1 with
  | inr err => msg = "Failed to get cluster client: " +:+ err
  | inl client =>
      ∃ clientset err,
        cluster.Clientset client = Some clientset
        ∧ Deployments_List w clientset namespace = inr err
        ∧ msg = "Failed to list deployments: " +:+ err
  end.

(** [sent] is the manifest [d] with the resource version [rv] written
    into it and nothing else changed. *)
Definition carries (rv : string) (d sent : appsv1.Deployment) : Prop :=
  appsv1.ResourceVersion sent = rv
  ∧ appsv1.Namespace sent = appsv1.Namespace d
  ∧ appsv1.Name sent = appsv1.Name d
  ∧ appsv1.CreationTimestamp sent = appsv1.CreationTimestamp d
  ∧ appsv1.Spec sent = appsv1.Spec d
  ∧ appsv1.Status sent = appsv1.Status d.

(** What the requests of a log do to the servers, in the log's order. *)
Definition replay {World : Type} {apiI : KubeAPI World} (w : World)
    (log : list ApiCall) : World :=
  foldl (λ w call,
           match call with
           | CallGet _ _ _ => w
           | CallUpdate clientset namespace deployment =>
               (Deployments_Update w clientset namespace deployment).1
           | CallCreate clientset namespace deployment =>
               (Deployments_Create w clientset namespace deployment).1
           end) w log.

(** The system after the requests of [log] were served from [s0] on. *)
Definition served {World : Type} {apiI : KubeAPI World} (s0 : workload.Sys World)
    (log : list ApiCall) : workload.Sys World :=
  workload.mkSys (replay (workload.world s0) log) (workload.calls s0 ++ log).

(** A goroutine sent the two requests [reqs] for the manifest [d] and
    returned [err]: its Get and, later, its write stand in [log], the
    requests of all goroutines in the order the servers took them from the
    state [w0]; the write is an Update carrying the read resource version
    when the Get, answered by the servers as they stood then, found the
    object, and a Create otherwise; [err] is nil when the servers, as
    they stood at the write, accepted it, and their error otherwise. *)
Definition requested {World : Type} {apiI : KubeAPI World} (w0 : World)
    (log : list ApiCall) (clientset : kubernetes.Clientset) (d : appsv1.Deployment)
    (err : error) (reqs : list ApiCall) : Prop :=
  let get := CallGet clientset (appsv1.Namespace d) (appsv1.Name d) in
  ∃ before between after write,
    log = (before ++ get :: between ++ write :: after)%list
    ∧ reqs = [get; write]
    ∧ let atWrite := replay w0 (before ++ get :: between) in
      match Deployments_Get (replay w0 before) clientset
              (appsv1.Namespace d) (appsv1.Name d) with
      | inl existing =>
          ∃ sent,
            write = CallUpdate clientset (appsv1.Namespace d) sent
            ∧ carries (appsv1.ResourceVersion existing) d sent
            ∧ err = match (Deployments_Update atWrite clientset
                             (appsv1.Namespace d) sent).2 with
                    | inl _ => None
                    | inr e => Some ("failed to update deployment: " +:+ e)
                    end
      | inr _ =>
          write = CallCreate clientset (appsv1.Namespace d) d
          ∧ err = match (Deployments_Create atWrite clientset
                           (appsv1.Namespace d) d).2 with
                  | inl _ => None
                  | inr e => Some ("failed to create deployment: " +:+ e)
                  end
      end.

(** The goroutine of [DeployToMultipleClusters] started for [name] made
    its attempt: it sent [reqs] and returned [err].  Either it sent
    nothing and [err] is the error of its own lookup or of the decoding,
    or it sent a Get and a write to the clientset of its own cluster. *)
Definition attempted {World : Type} {apiI : KubeAPI World} {yamlI : Yaml}
    (m : workload.Manager) (namespace yamlContent : string) (w0 : World)
    (log : list ApiCall) (name : string) (err : error) (reqs : list ApiCall)
    : Prop :=
  match (cluster.GetClient name (workload.clusterManager m)).1 with
  | inr e =>
      reqs = []
      ∧ err = Some ("failed to get cluster client for " +:+ name +:+ ": " +:+ e)
  | inl client =>
      match yaml_Unmarshal_map yamlContent with
      | inr e => reqs = [] ∧ err = Some ("failed to parse YAML: " +:+ e)
      | inl obj =>
          match workload.kindOf obj with
          | None => reqs = [] ∧ err = Some "YAML must specify a 'kind' field"
          | Some kind =>
              if bool_decide (kind = "Deployment") then
                match yaml_Unmarshal_Deployment yamlContent with
                | inr e =>
                    reqs = []
                    ∧ err = Some ("failed to parse Deployment YAML: " +:+ e)
                | inl decoded =>
                    ∃ clientset,
                      cluster.Clientset client = Some clientset
                      ∧ requested w0 log clientset
                          (workload.inNamespace namespace decoded) err reqs
                end
              else
                reqs = []
                ∧ err = Some ("resource kind '" +:+ kind +:+ "' is not supported yet")
          end
      end
  end.

(** Where the goroutine started for [name] stands, with the requests
    [reqs] it has sent so far. *)
Definition standing {World : Type} {apiI : KubeAPI World} {yamlI : Yaml}
    (m : workload.Manager) (namespace yamlContent : string) (w0 : World)
    (log : list ApiCall) (name : string) (g : workload.Goroutine)
    (reqs : list ApiCall) : Prop :=
  match g with
  | workload.Started n => n = name ∧ reqs = []
  | workload.Fetched n clientset d got =>
      n = name
      ∧ ∃ client obj decoded before between,
          (cluster.GetClient name (workload.clusterManager m)).1 = inl client
          ∧ yaml_Unmarshal_map yamlContent = inl obj
          ∧ workload.kindOf obj = Some "Deployment"
          ∧ yaml_Unmarshal_Deployment yamlContent = inl decoded
          ∧ cluster.Clientset client = Some clientset
          ∧ d = workload.inNamespace namespace decoded
          ∧ log = (before
                   ++ CallGet clientset (appsv1.Namespace d) (appsv1.Name d)
                   :: between)%list
          ∧ got = Deployments_Get (replay w0 before) clientset
                    (appsv1.Namespace d) (appsv1.Name d)
          ∧ reqs = [CallGet clientset (appsv1.Namespace d) (appsv1.Name d)]
  | workload.Returned n err | workload.Stored n err =>
      n = name ∧ attempted m namespace yamlContent w0 log name err reqs
  end.

(** What a goroutine that has returned has returned. *)
Definition outcomeOf (g : workload.Goroutine) : error :=
  match g with
  | workload.Returned _ err | workload.Stored _ err => err
  | _ => None
  end.

(** The steps a goroutine has still to take. *)
Definition stepsLeft (g : workload.Goroutine) : nat :=
  match g with
  | workload.Started _ => 3
  | workload.Fetched _ _ _ _ => 2
  | workload.Returned _ _ => 1
  | workload.Stored _ _ => 0
  end.

(** What holds of the goroutines of one [DeployToMultipleClusters] between
    any two steps: the servers are where the requests sent so far have
    brought them, these are the goroutines' own, and [results] holds what
    the goroutines that have stored returned, under their own names. *)
Definition inFlight {World : Type} {apiI : KubeAPI World} {yamlI : Yaml}
    (m : workload.Manager) (namespace yamlContent : string)
    (s0 : workload.Sys World) (clusterNames : list string)
    (goroutines : list workload.Goroutine) (results : gmap string error)
    (s : workload.Sys World) (log : list ApiCall) (sent : list (list ApiCall))
    : Prop :=
  s = served s0 log
  ∧ log ≡ₚ concat sent
  ∧ length goroutines = length clusterNames
  ∧ length sent = length clusterNames
  ∧ (∀ i name g reqs,
       clusterNames !! i = Some name → goroutines !! i = Some g →
       sent !! i = Some reqs →
       standing m namespace yamlContent (workload.world s0) log name g reqs)
  ∧ (∀ name err,
       results !! name = Some err →
       ∃ i, goroutines !! i = Some (workload.Stored name err))
  ∧ (∀ i name err,
       goroutines !! i = Some (workload.Stored name err) →
       is_Some (results !! name)).

(** * Properties *)

#[local] Set Warnings "-clear-no-such-hyp".

(** Closes an equation between closed terms by evaluating its left side. *)
Ltac by_vm :=
  lazymatch goal with
  | |- ?lhs = ?rhs => vm_cast_no_check (@eq_refl _ rhs)
  end.

(** ** Status classification *)

Lemma deploymentStatus_cases (desired ready : Z) :
  workload.deploymentStatus desired ready ∈ ["Ready"; "Partial"; "NotReady"; "Unknown"].
Proof.
  unfold workload.deploymentStatus.
  repeat case_bool_decide; set_solver.
Qed.

(** C3, as stated, fails: with one desired and two ready replicas the pair
    is in none of the rows Ready, Partial, NotReady, so the claim asks for
    Unknown, and the code answers Partial. *)
Lemma deploymentStatus_surplus_is_Partial :
  2 ≠ 1 ∧ ¬ (0 < 2 < 1) ∧ 2 ≠ 0
  ∧ workload.deploymentStatus 1 2 = "Partial"
  ∧ workload.deploymentStatus 1 2 ≠ "Unknown".
Proof. repeat split; (lia || done). Qed.

(** C3, amended: for every pair of integers (desired D, ready R) the
    classification is a total function whose value is Ready iff R = D,
    Partial iff R > 0 and R differs from D (so also when R > D), NotReady
    iff R = 0 and D is not 0, and Unknown iff R < 0 and R differs from D. *)
Theorem deploymentStatus_table (D R : Z) :
  (workload.deploymentStatus D R = "Ready" ↔ R = D)
  ∧ (workload.deploymentStatus D R = "Partial" ↔ R ≠ D ∧ 0 < R)
  ∧ (workload.deploymentStatus D R = "NotReady" ↔ R = 0 ∧ D ≠ 0)
  ∧ (workload.deploymentStatus D R = "Unknown" ↔ R < 0 ∧ R ≠ D).
Proof.
  unfold workload.deploymentStatus.
  repeat case_bool_decide; repeat split; intros; try done; lia.
Qed.

(** ** Default cluster after loading *)

Lemma existsb_false_Forall {A} (p : A → bool) (l : list A) :
  existsb p l = false ↔ Forall (λ x, p x = false) l.
Proof.
  induction l as [|x l IH]; simpl.
  - split; [constructor | done].
  - rewrite orb_false_iff, IH, Forall_cons. done.
Qed.

Lemma filter_none {A} (p : A → bool) (l : list A) :
  Forall (λ x, p x = false) l → List.filter p l = [].
Proof.
  induction 1 as [|x l Hx _ IH]; simpl; [done|].
  rewrite Hx. done.
Qed.

(** C6: if the cluster list is not empty and no entry is marked default,
    then after [setDefaults] the first cluster, and only the first, has
    its default flag set; nothing else about the list changes. *)
Theorem setDefaults_marks_first (c : config.MultiClusterConfig) :
  config.Clusters c ≠ [] →
  existsb config.IsDefault (config.Clusters c) = false →
  ∃ first rest,
    config.Clusters c = first :: rest
    ∧ config.Clusters (config.setDefaults c) = config.set_IsDefault true first :: rest
    ∧ (∀ i x, config.Clusters (config.setDefaults c) !! i = Some x →
         (config.IsDefault x = true ↔ i = 0%nat))
    ∧ length (List.filter config.IsDefault (config.Clusters (config.setDefaults c)))
      = 1%nat.
Proof.
  intros Hne Hnone.
  destruct (config.Clusters c) as [|first rest] eqn:Hcs; [done|].
  exists first, rest. split; [done|].
  assert (Hset : config.Clusters (config.setDefaults c)
                 = config.set_IsDefault true first :: rest).
  { unfold config.setDefaults. rewrite Hcs, Hnone. done. }
  rewrite Hset.
  apply existsb_false_Forall in Hnone.
  apply Forall_cons in Hnone as [_ Hrest].
  split; [|split]; [done| |].
  - intros [|i] x Hx; simpl in Hx.
    + injection Hx as <-. done.
    + split; [|done]. intros Hd.
      rewrite Forall_forall in Hrest.
      apply list_elem_of_lookup_2 in Hx. apply Hrest in Hx. congruence.
  - simpl. rewrite (filter_none _ _ Hrest). done.
Qed.

(** C6 at a configuration of two clusters, none marked default. *)
Lemma setDefaults_marks_first_example :
  config.Clusters (fake.cfg [fake.clusterB; fake.clusterC]) ≠ []
  ∧ ∃ first rest,
      config.Clusters (fake.cfg [fake.clusterB; fake.clusterC]) = first :: rest
      ∧ config.Clusters (config.setDefaults (fake.cfg [fake.clusterB; fake.clusterC]))
        = config.set_IsDefault true first :: rest
      ∧ (∀ i x,
           config.Clusters (config.setDefaults (fake.cfg [fake.clusterB; fake.clusterC]))
             !! i = Some x →
           (config.IsDefault x = true ↔ i = 0%nat))
      ∧ length (List.filter config.IsDefault
                  (config.Clusters
                     (config.setDefaults (fake.cfg [fake.clusterB; fake.clusterC]))))
        = 1%nat.
Proof.
  split; [done|].
  apply (setDefaults_marks_first (fake.cfg [fake.clusterB; fake.clusterC]));
    [done | reflexivity].
Defined.

(** ** The nil guard missing in the deployment listing *)

Section listing.
Context {hostI : Host} {World : Type} {apiI : KubeAPI World}.

Lemma deploymentInfo_Some (clusterName : string) (d : appsv1.Deployment) (desired : Z) :
  appsv1.Replicas (appsv1.Spec d) = Some desired →
  ∃ info,
    workload.deploymentInfo clusterName d = Ok info
    ∧ workload.DeploymentInfo.ClusterName info = clusterName
    ∧ workload.DeploymentInfo.Namespace info = appsv1.Namespace d
    ∧ workload.DeploymentInfo.Name info = appsv1.Name d
    ∧ workload.DeploymentInfo.Replicas info = desired
    ∧ workload.DeploymentInfo.Status info
      = workload.deploymentStatus desired (appsv1.ReadyReplicas (appsv1.Status d))
    ∧ workload.DeploymentInfo.Error info = "".
Proof.
  intros Hd. unfold workload.deploymentInfo. rewrite Hd. simpl.
  eexists. split; [reflexivity|]. done.
Qed.

Lemma deploymentInfo_None (clusterName : string) (d : appsv1.Deployment) :
  appsv1.Replicas (appsv1.Spec d) = None →
  workload.deploymentInfo clusterName d = Panic nil_dereference.
Proof. intros Hd. unfold workload.deploymentInfo. rewrite Hd. done. Qed.

Lemma result_mapM_Ok_iff {A B} (f : A → result B) (xs : list A) :
  is_Ok (result_mapM f xs) ↔ Forall (λ x, is_Ok (f x)) xs.
Proof.
  induction xs as [|x xs IH]; simpl.
  - split; [constructor | by eexists].
  - rewrite Forall_cons, <- IH. unfold is_Ok.
    destruct (f x) as [y|msg]; simpl.
    + destruct (result_mapM f xs) as [ys|msg]; simpl.
      * split; [eauto | intros _; by eexists].
      * split; [intros [? [=]] | intros [_ [? [=]]]].
    + split; [intros [? [=]] | intros [[? [=]] _]].
Qed.

Lemma result_mapM_Ok_length {A B} (f : A → result B) (xs : list A) (ys : list B) :
  result_mapM f xs = Ok ys → length ys = length xs.
Proof.
  revert ys. induction xs as [|x xs IH]; simpl; intros ys.
  - intros [= <-]. done.
  - destruct (f x) as [y|msg]; simpl; [|done].
    destruct (result_mapM f xs) as [ys'|msg]; simpl; [|done].
    intros [= <-]. simpl. f_equal. by apply IH.
Qed.

Lemma result_mapM_Panic {A B} (f : A → result B) (msg : string) (xs : list A) :
  (∀ x r, f x = Panic r → r = msg) →
  ¬ Forall (λ x, is_Ok (f x)) xs →
  result_mapM f xs = Panic msg.
Proof.
  intros Hmsg. induction xs as [|x xs IH]; simpl; intros Hnot.
  - destruct Hnot. constructor.
  - destruct (f x) as [y|r] eqn:Hfx; simpl.
    + rewrite IH; [done|]. intros Hall. apply Hnot. constructor; [by eexists | done].
    + by rewrite (Hmsg _ _ Hfx).
Qed.

Lemma deploymentInfo_Ok_iff (clusterName : string) (d : appsv1.Deployment) :
  is_Ok (workload.deploymentInfo clusterName d)
  ↔ is_Some (appsv1.Replicas (appsv1.Spec d)).
Proof.
  destruct (appsv1.Replicas (appsv1.Spec d)) as [desired|] eqn:Hd.
  - destruct (deploymentInfo_Some clusterName d desired Hd) as (info & Hinfo & _).
    split; [by eexists | intros _; by exists info].
  - rewrite (deploymentInfo_None clusterName d Hd).
    split; [intros [? [=]] | intros [? [=]]].
Qed.

(** C10: the loop body of [getDeploymentsFromCluster] dereferences the
    desired-replica pointer unguarded.  It returns a record exactly when
    the pointer is set and panics with a nil dereference when it is not;
    hence, for a connected cluster whose list call succeeds, the function
    returns exactly when every listed deployment carries a desired count,
    and panics as soon as one does not. *)
Theorem getDeploymentsFromCluster_needs_replicas (clusterName : string) :
  (∀ d, is_Ok (workload.deploymentInfo clusterName d)
        ↔ is_Some (appsv1.Replicas (appsv1.Spec d)))
  ∧ (∀ d, appsv1.Replicas (appsv1.Spec d) = None →
          workload.deploymentInfo clusterName d = Panic nil_dereference)
  ∧ (∀ m w namespace client clientset items,
       (cluster.GetClient clusterName (workload.clusterManager m)).1 = inl client →
       cluster.Clientset client = Some clientset →
       Deployments_List w clientset namespace = inl items →
       (is_Ok (workload.getDeploymentsFromCluster m w clusterName namespace)
        ↔ Forall (λ d, is_Some (appsv1.Replicas (appsv1.Spec d))) items)
       ∧ (¬ Forall (λ d, is_Some (appsv1.Replicas (appsv1.Spec d))) items →
          workload.getDeploymentsFromCluster m w clusterName namespace
          = Panic nil_dereference)).
Proof.
  split; [apply deploymentInfo_Ok_iff|].
  split; [apply deploymentInfo_None|].
  intros m w namespace client clientset items Hclient Hcs Hlist.
  unfold workload.getDeploymentsFromCluster.
  rewrite Hclient, Hcs. simpl. rewrite Hlist.
  assert (Hiff : Forall (λ d, is_Ok (workload.deploymentInfo clusterName d)) items
                 ↔ Forall (λ d, is_Some (appsv1.Replicas (appsv1.Spec d))) items).
  { apply Forall_iff. intros d. apply deploymentInfo_Ok_iff. }
  split.
  - rewrite result_mapM_Ok_iff. done.
  - intros Hnot. apply result_mapM_Panic.
    + intros d r Hr.
      destruct (appsv1.Replicas (appsv1.Spec d)) as [desired|] eqn:Hd.
      * destruct (deploymentInfo_Some clusterName d desired Hd) as (info & Hinfo & _).
        congruence.
      * rewrite (deploymentInfo_None clusterName d Hd) in Hr. congruence.
    + rewrite Hiff. done.
Qed.

End listing.

(** C10 at a concrete input: the nil dereference is reached, the cluster
    behind [ctx-a] being connected and listing one deployment without a
    desired count. *)
Lemma getDeploymentsFromCluster_nil_reached :
  workload.getDeploymentsFromCluster (hostI := fake.host) (apiI := fake.api)
    (workload.mkManager (fake.managerOf (fake.cfg [fake.clusterA]) fake.nilReplicas))
    fake.nilReplicas "A" "default"
  = Panic nil_dereference.
Proof.
  pose proof (getDeploymentsFromCluster_needs_replicas
                (hostI := fake.host) (apiI := fake.api) "A") as (_ & _ & Hlist).
  eapply Hlist.
  - vm_compute. reflexivity.
  - reflexivity.
  - vm_compute. reflexivity.
  - intros Hall. apply Forall_cons in Hall as [[? [=]] _].
Defined.

(** ** The connection registry *)

Section registry.
Context {hostI : Host} {World : Type} {apiI : KubeAPI World}.

Lemma connectToCluster_cases (m : cluster.Manager) (w : World) (cc : config.ClusterConfig) :
  (∃ err, cluster.connectToCluster m w cc = cluster.unconnected cc err)
  ∨ (∃ restConfig clientset,
       cluster.connectToCluster m w cc
       = cluster.mkClusterClient cc (Some restConfig) (Some clientset) true None).
Proof.
  unfold cluster.connectToCluster.
  repeat case_match; simplify_eq;
    first [left; eexists; reflexivity | right; do 2 eexists; reflexivity].
Qed.

Lemma connectToCluster_Config (m : cluster.Manager) (w : World) (cc : config.ClusterConfig) :
  cluster.Config (cluster.connectToCluster m w cc) = cc.
Proof.
  destruct (connectToCluster_cases m w cc) as [[err ->]|(rc & cs & ->)]; done.
Qed.

Lemma connectToCluster_unconnected (m : cluster.Manager) (w : World)
    (cc : config.ClusterConfig) :
  cluster.Connected (cluster.connectToCluster m w cc) = false →
  is_Some (cluster.Error (cluster.connectToCluster m w cc))
  ∧ cluster.Clientset (cluster.connectToCluster m w cc) = None.
Proof.
  destruct (connectToCluster_cases m w cc) as [[err ->]|(rc & cs & ->)]; simpl.
  - intros _. split; [by eexists | done].
  - done.
Qed.

Lemma connectToCluster_connected (m : cluster.Manager) (w : World)
    (cc : config.ClusterConfig) :
  cluster.Connected (cluster.connectToCluster m w cc) = true →
  is_Some (cluster.Clientset (cluster.connectToCluster m w cc))
  ∧ cluster.Error (cluster.connectToCluster m w cc) = None.
Proof.
  destruct (connectToCluster_cases m w cc) as [[err ->]|(rc & cs & ->)]; simpl.
  - done.
  - intros _. split; [by eexists | done].
Qed.

Lemma collect_all_spec (arrived : list cluster.ClusterClient) (errs : list string)
    (n : nat) (m : cluster.Manager) :
  cluster.collect_all arrived (errs, n) m
  = (((errs ++ map cluster.failureLine
                 (List.filter (λ c, negb (cluster.Connected c)) arrived))%list,
      (n + length (List.filter cluster.Connected arrived))%nat),
     cluster.mkManager (cluster.stored (cluster.clients m) arrived) (cluster.config m)).
Proof.
  revert errs n m. induction arrived as [|client rest IH]; intros errs n m; simpl.
  - rewrite app_nil_r, Nat.add_0_r. by destruct m.
  - unfold mbind, cluster.method_bind, cluster.Lock_store.
    destruct (cluster.Connected client) eqn:Hc; simpl; rewrite IH; simpl.
    + repeat f_equal. lia.
    + rewrite <- app_assoc. done.
Qed.

Lemma connectToAllClusters_spec (w : World) (sched : cluster.Schedule config.ClusterConfig)
    (m : cluster.Manager) :
  let arrived :=
    map (cluster.connectToCluster m w) (sched (config.Clusters (cluster.config m))) in
  cluster.connectToAllClusters w sched m
  = (if bool_decide (length (List.filter cluster.Connected arrived) = 0%nat)
     then Some ("failed to connect to any clusters:" +:+ nl
                +:+ strings_Join
                      (map cluster.failureLine
                         (List.filter (λ c, negb (cluster.Connected c)) arrived)) nl)
     else None,
     cluster.mkManager (cluster.stored (cluster.clients m) arrived) (cluster.config m)).
Proof.
  intros arrived. unfold cluster.connectToAllClusters, cluster.this.
  unfold mbind, cluster.method_bind. fold arrived.
  rewrite collect_all_spec. simpl.
  case_bool_decide; done.
Qed.

Lemma filter_Connected_nil (l : list cluster.ClusterClient) :
  length (List.filter cluster.Connected l) = 0%nat
  ↔ ∀ c, c ∈ l → cluster.Connected c = false.
Proof.
  induction l as [|c l IH]; simpl.
  - split; [intros _ c Hc; by apply elem_of_nil in Hc | done].
  - destruct (cluster.Connected c) eqn:Hc; simpl.
    + split; [done|]. intros Hall. specialize (Hall c). rewrite Hc in Hall.
      discriminate Hall. left.
    + rewrite IH. split.
      * intros Hall c' [->|Hin]%elem_of_cons; auto.
      * intros Hall c' Hin. apply Hall. by right.
Qed.

Lemma filter_unconnected_all (l : list cluster.ClusterClient) :
  (∀ c, c ∈ l → cluster.Connected c = false) →
  List.filter (λ c, negb (cluster.Connected c)) l = l.
Proof.
  induction l as [|c l IH]; simpl; intros Hall; [done|].
  rewrite (Hall c) by left. simpl. f_equal. apply IH.
  intros c' Hin. apply Hall. by right.
Qed.

(** C1: [NewManager] returns a registry exactly when at least one of the
    connection attempts it starts (one per configured cluster) connects,
    whatever the order the attempts finish in; it fails exactly when none
    does, and its error then lists the failure line of every attempt.
    This holds for every configuration, so in particular for the
    non-empty ones with unique names; there a run where some attempts
    connect and some do not returns a registry. *)
Theorem NewManager_succeeds_iff_some_attempt_connects
    (cfg : config.MultiClusterConfig) (w : World)
    (sched : cluster.Schedule config.ClusterConfig) :
  cluster.schedule_ok sched (config.Clusters cfg) →
  ((∃ m, cluster.NewManager cfg w sched = inl m)
   ↔ ∃ c, c ∈ cluster.attempts cfg w ∧ cluster.Connected c = true)
  ∧ ((∃ e, cluster.NewManager cfg w sched = inr e)
     ↔ ∀ c, c ∈ cluster.attempts cfg w → cluster.Connected c = false)
  ∧ (∀ e, cluster.NewManager cfg w sched = inr e →
       ∃ lines,
         lines ≡ₚ map cluster.failureLine (cluster.attempts cfg w)
         ∧ e = "failed to connect to clusters: failed to connect to any clusters:"
               +:+ nl +:+ strings_Join lines nl).
Proof.
  intros Hsched. unfold cluster.NewManager.
  rewrite connectToAllClusters_spec. simpl.
  set (arrived := map (cluster.connectToCluster (cluster.mkManager ∅ cfg) w)
                    (sched (config.Clusters cfg))).
  assert (Hperm : arrived ≡ₚ cluster.attempts cfg w).
  { unfold arrived, cluster.attempts. by apply fmap_Permutation. }
  assert (Hnone : length (List.filter cluster.Connected arrived) = 0%nat
                  ↔ ∀ c, c ∈ cluster.attempts cfg w → cluster.Connected c = false).
  { rewrite filter_Connected_nil. by setoid_rewrite Hperm. }
  case_bool_decide as Hzero.
  - pose proof (proj1 Hnone Hzero) as Hall.
    split; [|split].
    + split; [intros [m [=]] | intros (c & Hin & Hc)].
      rewrite (Hall c Hin) in Hc. done.
    + split; [done | intros _; by eexists].
    + intros e [= <-].
      exists (map cluster.failureLine arrived). split; [by rewrite Hperm|].
      rewrite filter_unconnected_all by (by apply filter_Connected_nil).
      done.
  - split; [|split].
    + split; [|intros _; by eexists].
      intros _. destruct (decide (Exists (λ c, cluster.Connected c = true)
                                     (cluster.attempts cfg w))) as [Hex|Hnex].
      * apply Exists_exists in Hex. done.
      * destruct Hzero. apply Hnone. intros c Hin.
        destruct (cluster.Connected c) eqn:Hc; [|done].
        destruct Hnex. apply Exists_exists. eauto.
    + split; [intros [e [=]] | intros Hall; destruct Hzero; by apply Hnone].
    + intros e [=].
Qed.

End registry.

(** C1 at a fleet of two clusters of which only A answers: one attempt
    fails, and [NewManager] still returns a registry. *)
Lemma NewManager_degraded_example :
  cluster.schedule_ok id (config.Clusters (fake.cfg [fake.clusterA; fake.clusterB]))
  ∧ (∃ c, c ∈ cluster.attempts (hostI := fake.host) (apiI := fake.api)
                (fake.cfg [fake.clusterA; fake.clusterB]) fake.onlyA
          ∧ cluster.Connected c = false)
  ∧ ∃ m, cluster.NewManager (hostI := fake.host) (apiI := fake.api)
           (fake.cfg [fake.clusterA; fake.clusterB]) fake.onlyA id = inl m.
Proof.
  split; [exact (Permutation_refl _)|]. split.
  - eexists. split; [apply list_elem_of_lookup_2 with 1%nat; reflexivity|].
    vm_compute. reflexivity.
  - apply (NewManager_succeeds_iff_some_attempt_connects
             (hostI := fake.host) (apiI := fake.api)
             (fake.cfg [fake.clusterA; fake.clusterB]) fake.onlyA id);
      [exact (Permutation_refl _)|].
    eexists. split; [apply list_elem_of_lookup_2 with 0%nat; reflexivity|].
    vm_compute. reflexivity.
Defined.

(** ** The registry after initialization *)

Section registry_state.
Context {hostI : Host} {World : Type} {apiI : KubeAPI World}.

Lemma stored_lookup_other (arrived : list cluster.ClusterClient)
    (cs : gmap string cluster.ClusterClient) (name : string) :
  name ∉ map (λ c, config.Name (cluster.Config c)) arrived →
  cluster.stored cs arrived !! name = cs !! name.
Proof.
  revert cs. induction arrived as [|c rest IH]; intros cs Hnot; simpl; [done|].
  simpl in Hnot. apply not_elem_of_cons in Hnot as [Hne Hrest].
  unfold cluster.stored in *. simpl. rewrite IH by done.
  by rewrite lookup_insert_ne.
Qed.

Lemma stored_lookup (arrived : list cluster.ClusterClient)
    (cs : gmap string cluster.ClusterClient) (c : cluster.ClusterClient) :
  NoDup (map (λ c, config.Name (cluster.Config c)) arrived) →
  c ∈ arrived →
  cluster.stored cs arrived !! config.Name (cluster.Config c) = Some c.
Proof.
  revert cs. induction arrived as [|c' rest IH]; intros cs Hnd Hin.
  - by apply elem_of_nil in Hin.
  - simpl in Hnd. apply NoDup_cons in Hnd as [Hfresh Hnd].
    change (cluster.stored cs (c' :: rest))
      with (cluster.stored (<[config.Name (cluster.Config c') := c']> cs) rest).
    apply elem_of_cons in Hin as [->|Hin].
    + rewrite stored_lookup_other by done. by rewrite lookup_insert_eq.
    + by apply IH.
Qed.

Lemma stored_dom (arrived : list cluster.ClusterClient)
    (cs : gmap string cluster.ClusterClient) :
  dom (cluster.stored cs arrived)
  = dom cs ∪ list_to_set (map (λ c, config.Name (cluster.Config c)) arrived).
Proof.
  revert cs. induction arrived as [|c rest IH]; intros cs; simpl.
  - set_solver.
  - change (cluster.stored cs (c :: rest))
      with (cluster.stored (<[config.Name (cluster.Config c) := c]> cs) rest).
    rewrite IH, dom_insert_L. set_solver.
Qed.

Lemma arrived_names (m : cluster.Manager) (w : World) (l : list config.ClusterConfig) :
  map (λ c, config.Name (cluster.Config c)) (map (cluster.connectToCluster m w) l)
  = map config.Name l.
Proof.
  rewrite map_map. apply map_ext. intros cc. by rewrite connectToCluster_Config.
Qed.

Lemma stored_entry (arrived : list cluster.ClusterClient)
    (cs : gmap string cluster.ClusterClient) (name : string)
    (c : cluster.ClusterClient) :
  cluster.stored cs arrived !! name = Some c →
  cs !! name = Some c ∨ (c ∈ arrived ∧ config.Name (cluster.Config c) = name).
Proof.
  revert cs. induction arrived as [|a rest IH]; intros cs; [by left|].
  change (cluster.stored cs (a :: rest))
    with (cluster.stored (<[config.Name (cluster.Config a) := a]> cs) rest).
  intros [Hhere|[Hin Hname]]%IH.
  - apply lookup_insert_Some in Hhere as [[<- <-]|[_ Hcs]].
    + right. split; [left | done].
    + by left.
  - right. split; [by right | done].
Qed.

(** Initialization keeps, and on an empty map establishes, that connected
    handles hold a clientset and sit under their own name. *)
Lemma connectToAllClusters_handles_live (w : World)
    (sched : cluster.Schedule config.ClusterConfig) (m : cluster.Manager) :
  cluster.handles_live m →
  cluster.handles_live (cluster.connectToAllClusters w sched m).2.
Proof.
  intros Hlive. rewrite connectToAllClusters_spec. simpl.
  intros name c [Hold|[Hin Hname]]%stored_entry; [by eapply Hlive|].
  apply list_elem_of_fmap in Hin as (cc & -> & _).
  intros Hc. by apply connectToCluster_connected.
Qed.

Lemma NewManager_handles_live (cfg : config.MultiClusterConfig) (w : World)
    (sched : cluster.Schedule config.ClusterConfig) (m : cluster.Manager) :
  cluster.NewManager cfg w sched = inl m → cluster.handles_live m.
Proof.
  unfold cluster.NewManager.
  pose proof (connectToAllClusters_handles_live w sched (cluster.mkManager ∅ cfg)) as H.
  destruct (cluster.connectToAllClusters w sched _) as [[err|] m']; [done|].
  intros [= <-]. apply H. intros name c Hc. simpl in Hc.
  by rewrite lookup_empty in Hc.
Qed.

(** The steady-state operations only read: each leaves the manager it was
    called on. *)
Lemma steady_state_reads_only (m : cluster.Manager) (name : string)
    (order : cluster.RangeOrder) (w : World) :
  (cluster.GetClient name m).2 = m
  ∧ (cluster.GetDefaultClient order m).2 = m
  ∧ (cluster.ListClusters order m).2 = m
  ∧ (cluster.TestConnections w order m).2 = m.
Proof.
  assert (HGet : ∀ n, (cluster.GetClient n m).2 = m).
  { intros n. unfold cluster.GetClient, mbind, cluster.method_bind. simpl.
    repeat case_match; done. }
  split; [apply HGet|]. split; [|split; reflexivity].
  unfold cluster.GetDefaultClient, mbind, cluster.method_bind. simpl.
  destruct (List.find config.IsDefault _); [apply HGet|].
  repeat case_match; done.
Qed.

(** C9: when the configured names are unique, after [connectToAllClusters]
    has run (with or without an error) the map holds exactly one handle
    per configured cluster and no other key: under each cluster's name the
    handle [connectToCluster] built for it, which for an unreachable
    cluster has [Connected = false] and its error set.  [GetClient],
    [GetDefaultClient], [ListClusters] and [TestConnections] leave the
    manager, hence every handle, as they found it. *)
Theorem connectToAllClusters_one_handle_per_cluster
    (cfg : config.MultiClusterConfig) (w : World)
    (sched : cluster.Schedule config.ClusterConfig) :
  NoDup (map config.Name (config.Clusters cfg)) →
  cluster.schedule_ok sched (config.Clusters cfg) →
  ∃ err m,
    cluster.connectToAllClusters w sched (cluster.mkManager ∅ cfg) = (err, m)
    ∧ cluster.config m = cfg
    ∧ dom (cluster.clients m) = list_to_set (map config.Name (config.Clusters cfg))
    ∧ size (cluster.clients m) = length (config.Clusters cfg)
    ∧ (∀ cc, cc ∈ config.Clusters cfg →
         ∃ client,
           cluster.clients m !! config.Name cc = Some client
           ∧ client = cluster.connectToCluster (cluster.mkManager ∅ cfg) w cc
           ∧ cluster.Config client = cc
           ∧ (cluster.Connected client = false →
              is_Some (cluster.Error client) ∧ cluster.Clientset client = None))
    ∧ cluster.handles_live m
    ∧ (∀ name order w',
         (cluster.GetClient name m).2 = m
         ∧ (cluster.GetDefaultClient order m).2 = m
         ∧ (cluster.ListClusters order m).2 = m
         ∧ (cluster.TestConnections w' order m).2 = m).
Proof.
  intros Hnd Hsched. unfold cluster.schedule_ok in Hsched.
  rewrite connectToAllClusters_spec. simpl.
  set (m0 := cluster.mkManager ∅ cfg).
  set (arrived := map (cluster.connectToCluster m0 w) (sched (config.Clusters cfg))).
  assert (Hnames : map (λ c, config.Name (cluster.Config c)) arrived
                   ≡ₚ map config.Name (config.Clusters cfg)).
  { unfold arrived. rewrite arrived_names. by apply fmap_Permutation. }
  assert (Hnd' : NoDup (map (λ c, config.Name (cluster.Config c)) arrived)).
  { by rewrite Hnames. }
  assert (Hdom : dom (cluster.stored ∅ arrived)
                 = list_to_set (map config.Name (config.Clusters cfg))).
  { rewrite stored_dom, dom_empty_L.
    apply set_eq. intros x.
    rewrite elem_of_union, !elem_of_list_to_set, Hnames, elem_of_empty.
    naive_solver. }
  assert (Hhandle : ∀ cc, cc ∈ config.Clusters cfg →
            cluster.stored ∅ arrived !! config.Name cc
            = Some (cluster.connectToCluster m0 w cc)).
  { intros cc Hin.
    rewrite <- (connectToCluster_Config m0 w cc) at 1.
    apply stored_lookup; [done|].
    unfold arrived. apply list_elem_of_fmap. exists cc. split; [done|].
    by rewrite Hsched. }
  eexists _, _. split; [reflexivity|]. simpl.
  split; [done|]. split; [done|]. split; [|split; [|split]].
  - rewrite <- size_dom, Hdom. rewrite size_list_to_set by done.
    by rewrite length_map.
  - intros cc Hin. eexists. split; [by apply Hhandle|]. split; [done|].
    split; [apply connectToCluster_Config | apply connectToCluster_unconnected].
  - intros name client Hlook.
    assert (Hin : name ∈ map config.Name (config.Clusters cfg)).
    { apply (elem_of_list_to_set (C := gset string)).
      rewrite <- Hdom. apply elem_of_dom. by eexists. }
    simpl in Hlook.
    apply list_elem_of_fmap in Hin as (cc & -> & Hcc).
    rewrite (Hhandle cc Hcc) in Hlook. injection Hlook as <-.
    intros Hc. by apply connectToCluster_connected.
  - intros name order w'. apply (steady_state_reads_only _ name order w').
Qed.

End registry_state.

(** C9 at the same fleet: two handles, B's among them. *)
Lemma connectToAllClusters_registry_example :
  NoDup (map config.Name (config.Clusters (fake.cfg [fake.clusterA; fake.clusterB])))
  ∧ cluster.schedule_ok id (config.Clusters (fake.cfg [fake.clusterA; fake.clusterB]))
  ∧ ∃ err m,
      cluster.connectToAllClusters (hostI := fake.host) (apiI := fake.api)
        fake.onlyA id (cluster.mkManager ∅ (fake.cfg [fake.clusterA; fake.clusterB]))
      = (err, m)
      ∧ size (cluster.clients m) = 2%nat
      ∧ cluster.handles_live m.
Proof.
  assert (Hnd : NoDup (map config.Name
                         (config.Clusters (fake.cfg [fake.clusterA; fake.clusterB])))).
  { apply (bool_decide_unpack _). vm_compute. exact I. }
  split; [exact Hnd|]. split; [exact (Permutation_refl _)|].
  destruct (connectToAllClusters_one_handle_per_cluster
              (hostI := fake.host) (apiI := fake.api)
              (fake.cfg [fake.clusterA; fake.clusterB]) fake.onlyA id
              Hnd (Permutation_refl _))
    as (err & m & Hrun & _ & _ & Hsize & _ & Hlive & _).
  exists err, m. split; [exact Hrun|]. split; [exact Hsize | exact Hlive].
Defined.

(** ** The default cluster *)

Lemma find_first {A} (p : A → bool) (l : list A) (x : A) :
  List.find p l = Some x →
  ∃ before after,
    l = (before ++ x :: after)%list ∧ Forall (λ y, p y = false) before ∧ p x = true.
Proof.
  induction l as [|y l IH]; simpl; [done|].
  destruct (p y) eqn:Hy.
  - intros [= <-]. exists [], l. split; [done|]. split; [constructor | done].
  - intros Hfind. destruct (IH Hfind) as (before & after & -> & Hbefore & Hx).
    exists (y :: before), after. split; [done|]. split; [by constructor | done].
Qed.

Lemma find_none_all {A} (p : A → bool) (l : list A) :
  List.find p l = None ↔ ∀ y, y ∈ l → p y = false.
Proof.
  induction l as [|y l IH]; simpl.
  - split; [intros _ y Hy; by apply elem_of_nil in Hy | done].
  - destruct (p y) eqn:Hy.
    + split; [done|]. intros Hall. rewrite (Hall y) in Hy by left. done.
    + rewrite IH. split.
      * intros Hall z [->|Hz]%elem_of_cons; auto.
      * intros Hall z Hz. apply Hall. by right.
Qed.

(** C2, as stated, fails: A is marked default and unreachable, B is
    connected, and [GetDefaultClient] answers with A's error instead of
    falling back to B. *)
Lemma GetDefaultClient_no_fallback_from_marked_default :
  ∃ m b,
    cluster.NewManager (hostI := fake.host) (apiI := fake.api)
      (fake.cfg [fake.clusterA; fake.clusterB]) fake.onlyB id = inl m
    ∧ cluster.clients m !! "B" = Some b
    ∧ cluster.Connected b = true
    ∧ (cluster.GetDefaultClient id m).1
      = inr "cluster 'A' is not connected: failed to connect to cluster: connection refused".
Proof.
  eexists _, _. split; [vm_compute; reflexivity|].
  split; [vm_compute; reflexivity|].
  split; vm_compute; reflexivity.
Qed.

Lemma GetClient_value (m : cluster.Manager) (name : string) :
  (cluster.GetClient name m).1
  = match cluster.clients m !! name with
    | None => inr ("cluster '" +:+ name +:+ "' not found in configuration")
    | Some client =>
        if cluster.Connected client then inl client
        else inr ("cluster '" +:+ name +:+ "' is not connected: "
                  +:+ fmt_v (cluster.Error client))
    end.
Proof.
  unfold cluster.GetClient, mbind, cluster.method_bind. simpl.
  destruct (cluster.clients m !! name) as [client|]; [|done].
  by destruct (cluster.Connected client).
Qed.

(** C2, amended: [GetDefaultClient] looks for the first cluster marked
    default in the configuration.  If there is one, the answer is that of
    [GetClient] for it: its handle when it is connected, and an error when
    it is not connected or not in the map, with no fallback to another
    connected cluster.  Only if no cluster is marked default does it
    return the first connected handle in the order the map is visited,
    and then it fails exactly when no handle is connected. *)
Theorem GetDefaultClient_marked_default_or_first_connected
    (m : cluster.Manager) (order : cluster.RangeOrder) :
  cluster.range_order_ok order m →
  (∀ d, List.find config.IsDefault (config.Clusters (cluster.config m)) = Some d →
     (cluster.GetDefaultClient order m).1 = (cluster.GetClient (config.Name d) m).1
     ∧ (∀ c, cluster.clients m !! config.Name d = Some c →
             cluster.Connected c = true →
             (cluster.GetDefaultClient order m).1 = inl c)
     ∧ (cluster.clients m !! config.Name d = None
        ∨ (∃ c, cluster.clients m !! config.Name d = Some c
                ∧ cluster.Connected c = false) →
        ∃ e, (cluster.GetDefaultClient order m).1 = inr e))
  ∧ (List.find config.IsDefault (config.Clusters (cluster.config m)) = None →
     ((∃ name c, cluster.clients m !! name = Some c ∧ cluster.Connected c = true) →
      ∃ name c before after,
        (cluster.GetDefaultClient order m).1 = inl c
        ∧ cluster.clients m !! name = Some c
        ∧ cluster.Connected c = true
        ∧ cluster.range order (cluster.clients m) = (before ++ (name, c) :: after)%list
        ∧ Forall (λ e, cluster.Connected e.2 = false) before)
     ∧ ((∀ name c, cluster.clients m !! name = Some c → cluster.Connected c = false) ↔
        ∃ e, (cluster.GetDefaultClient order m).1 = inr e)).
Proof.
  intros Horder. unfold cluster.range_order_ok in Horder.
  assert (Hvisit : ∀ name c, (name, c) ∈ cluster.range order (cluster.clients m)
                             ↔ cluster.clients m !! name = Some c).
  { intros name c. rewrite Horder. apply elem_of_map_to_list. }
  split.
  - intros d Hd.
    assert (Heq : (cluster.GetDefaultClient order m).1
                  = (cluster.GetClient (config.Name d) m).1).
    { unfold cluster.GetDefaultClient, mbind, cluster.method_bind. simpl.
      by rewrite Hd. }
    split; [done|]. rewrite Heq, GetClient_value. split.
    + intros c -> ->. done.
    + intros [->|(c & -> & ->)]; by eexists.
  - intros Hnone.
    assert (Heq : (cluster.GetDefaultClient order m).1
                  = match List.find (λ e, cluster.Connected e.2)
                            (cluster.range order (cluster.clients m)) with
                    | Some (_, client) => inl client
                    | None => inr "no connected clusters available"
                    end).
    { unfold cluster.GetDefaultClient, mbind, cluster.method_bind. simpl.
      rewrite Hnone. simpl. by repeat case_match. }
    rewrite Heq.
    destruct (List.find (λ e : string * cluster.ClusterClient, cluster.Connected e.2) _)
      as [[name c]|] eqn:Hfind.
    + apply find_first in Hfind as (before & after & Hsplit & Hbefore & Hc).
      simpl in Hc.
      assert (Hin : cluster.clients m !! name = Some c).
      { apply Hvisit. rewrite Hsplit. apply elem_of_app. right. left. }
      split.
      * intros _. by exists name, c, before, after.
      * split; [|intros [e [=]]].
        intros Hall. rewrite (Hall name c Hin) in Hc. done.
    + rewrite find_none_all in Hfind. split.
      * intros (name & c & Hin & Hc).
        apply Hvisit in Hin. apply Hfind in Hin. simpl in Hin. congruence.
      * split; [intros _; by eexists|].
        intros _ name c Hin. apply Hvisit in Hin. by apply Hfind in Hin.
Qed.

(** C2, amended, at a fleet where the marked default A is connected. *)
Lemma GetDefaultClient_example :
  cluster.range_order_ok id
    (fake.managerOf (fake.cfg [fake.clusterA; fake.clusterB]) fake.bothUp)
  ∧ ∃ c,
      (cluster.GetDefaultClient id
         (fake.managerOf (fake.cfg [fake.clusterA; fake.clusterB]) fake.bothUp)).1
      = inl c
      ∧ cluster.Config c = fake.clusterA.
Proof.
  split; [exact (Permutation_refl _)|].
  destruct (GetDefaultClient_marked_default_or_first_connected
              (fake.managerOf (fake.cfg [fake.clusterA; fake.clusterB]) fake.bothUp)
              id (Permutation_refl _)) as [Hmarked _].
  destruct (Hmarked fake.clusterA eq_refl) as (_ & Hconnected & _).
  eexists. split; [apply Hconnected; vm_compute; reflexivity | reflexivity].
Defined.

(** ** The mutation path *)

Section mutation.
Context {World : Type} {apiI : KubeAPI World} {yamlI : Yaml}.

(** What [applyDeployment] does once the manifest decoded and the handle
    holds a clientset: one read, then one update or one create. *)
Lemma applyDeployment_run (client : cluster.ClusterClient)
    (clusterName namespace yamlContent : string) (decoded : appsv1.Deployment)
    (clientset : kubernetes.Clientset) (s : workload.Sys World) :
  yaml_Unmarshal_Deployment yamlContent = inl decoded →
  cluster.Clientset client = Some clientset →
  let d := workload.inNamespace namespace decoded in
  workload.applyDeployment client clusterName namespace yamlContent s
  = match Deployments_Get (workload.world s) clientset
            (appsv1.Namespace d) (appsv1.Name d) with
    | inl existing =>
        let d' := appsv1.set_ResourceVersion (appsv1.ResourceVersion existing) d in
        let '(w', r) :=
          Deployments_Update (workload.world s) clientset (appsv1.Namespace d) d' in
        Ok (match r with
            | inr err => Some ("failed to update deployment: " +:+ err)
            | inl _ => None
            end,
            workload.mkSys w'
              (workload.calls s
               ++ [CallGet clientset (appsv1.Namespace d) (appsv1.Name d);
                   CallUpdate clientset (appsv1.Namespace d) d'])%list)
    | inr _ =>
        let '(w', r) :=
          Deployments_Create (workload.world s) clientset (appsv1.Namespace d) d in
        Ok (match r with
            | inr err => Some ("failed to create deployment: " +:+ err)
            | inl _ => None
            end,
            workload.mkSys w'
              (workload.calls s
               ++ [CallGet clientset (appsv1.Namespace d) (appsv1.Name d);
                   CallCreate clientset (appsv1.Namespace d) d])%list)
    end.
Proof.
  intros Hdec Hcs d. unfold workload.applyDeployment.
  rewrite Hdec, Hcs. fold d.
  unfold mbind, workload.W_bind, workload.lift, workload.api_Get. simpl.
  destruct (Deployments_Get _ _ _ _) as [existing|err].
  - unfold workload.api_Update. simpl.
    destruct (Deployments_Update _ _ _ _) as [w' [saved|err]]; simpl;
      by rewrite <- app_assoc.
  - unfold workload.api_Create. simpl.
    destruct (Deployments_Create _ _ _ _) as [w' [saved|err']]; simpl;
      by rewrite <- app_assoc.
Qed.

(** The exits of [DeployToCluster] that come before the first request. *)
Lemma DeployToCluster_run (m : workload.Manager)
    (clusterName namespace yamlContent : string) (s : workload.Sys World) :
  workload.DeployToCluster m clusterName namespace yamlContent s
  = match (cluster.GetClient clusterName (workload.clusterManager m)).1 with
    | inr err =>
        Ok (Some ("failed to get cluster client for " +:+ clusterName +:+ ": " +:+ err), s)
    | inl client =>
        match yaml_Unmarshal_map yamlContent with
        | inr err => Ok (Some ("failed to parse YAML: " +:+ err), s)
        | inl obj =>
            match workload.kindOf obj with
            | None => Ok (Some "YAML must specify a 'kind' field", s)
            | Some kind =>
                if bool_decide (kind = "Deployment")
                then workload.applyDeployment client clusterName namespace yamlContent s
                else Ok (Some ("resource kind '" +:+ kind +:+ "' is not supported yet"), s)
            end
        end
    end.
Proof.
  unfold workload.DeployToCluster.
  repeat case_match; done.
Qed.

(** C8, as stated, fails: the manifest declares kind Service, but the
    target is not a cluster of the registry, and the error returned is the
    lookup's, not an unsupported-kind or missing-kind error. *)
Lemma DeployToCluster_unknown_cluster_error_first :
  workload.declaredKind (yamlI := fake.yaml) fake.serviceManifest = Some "Service"
  ∧ workload.DeployToCluster (apiI := fake.api) (yamlI := fake.yaml)
      fake.fleet "C" "default" fake.serviceManifest fake.start
    = Ok (Some "failed to get cluster client for C: cluster 'C' not found in configuration",
          fake.start).
Proof. split; by_vm. Qed.

(** C8, amended: for a manifest that does not declare kind Deployment
    (another kind, no kind, a kind that is not a string, or a text that
    does not decode), [DeployToCluster] issues no request and changes
    nothing, and returns an error: the client lookup's error when the
    target cluster is unknown or not connected; otherwise the decoder's
    error, the missing-kind error, or the unsupported-kind error naming
    the kind. *)
Theorem DeployToCluster_other_kind_no_request (m : workload.Manager)
    (clusterName namespace yamlContent : string) (s : workload.Sys World) :
  workload.declaredKind yamlContent ≠ Some "Deployment" →
  ∃ e,
    workload.DeployToCluster m clusterName namespace yamlContent s = Ok (Some e, s)
    ∧ match (cluster.GetClient clusterName (workload.clusterManager m)).1 with
      | inr err =>
          e = "failed to get cluster client for " +:+ clusterName +:+ ": " +:+ err
      | inl _ =>
          match yaml_Unmarshal_map yamlContent with
          | inr err => e = "failed to parse YAML: " +:+ err
          | inl obj =>
              match workload.kindOf obj with
              | None => e = "YAML must specify a 'kind' field"
              | Some kind =>
                  kind ≠ "Deployment"
                  ∧ e = "resource kind '" +:+ kind +:+ "' is not supported yet"
              end
          end
      end.
Proof.
  intros Hkind. rewrite DeployToCluster_run.
  unfold workload.declaredKind in Hkind.
  destruct (cluster.GetClient _ _).1 as [client|err]; [|by eexists].
  destruct (yaml_Unmarshal_map yamlContent) as [obj|err]; [|by eexists].
  destruct (workload.kindOf obj) as [kind|]; [|by eexists].
  case_bool_decide as Hk; [congruence|].
  by eexists.
Qed.


End mutation.


(** C8, amended, at a Service manifest sent to the connected cluster A. *)
Lemma DeployToCluster_other_kind_example :
  workload.declaredKind (yamlI := fake.yaml) fake.serviceManifest ≠ Some "Deployment"
  ∧ workload.DeployToCluster (apiI := fake.api) (yamlI := fake.yaml)
      fake.fleet "A" "default" fake.serviceManifest fake.start
    = Ok (Some "resource kind 'Service' is not supported yet", fake.start).
Proof.
  assert (Hkind : workload.declaredKind (yamlI := fake.yaml) fake.serviceManifest
                  ≠ Some "Deployment").
  { vm_compute. discriminate. }
  split; [exact Hkind|].
  destruct (DeployToCluster_other_kind_no_request (apiI := fake.api) (yamlI := fake.yaml)
              fake.fleet "A" "default" fake.serviceManifest fake.start Hkind)
    as (e & -> & He).
  vm_compute in He. destruct He as [_ ->]. reflexivity.
Defined.



(** ** The mutation fan-out *)

Section fanout.
Context {World : Type} {apiI : KubeAPI World} {yamlI : Yaml}.

Lemma GetClient_connected (mgr : cluster.Manager) (name : string)
    (client : cluster.ClusterClient) :
  (cluster.GetClient name mgr).1 = inl client →
  cluster.clients mgr !! name = Some client ∧ cluster.Connected client = true.
Proof.
  rewrite GetClient_value.
  destruct (cluster.clients mgr !! name) as [c|]; [|done].
  destruct (cluster.Connected c) eqn:Hc; [|done].
  intros [= <-]. done.
Qed.

Lemma GetClient_live (mgr : cluster.Manager) (name : string)
    (client : cluster.ClusterClient) :
  cluster.handles_live mgr →
  (cluster.GetClient name mgr).1 = inl client →
  is_Some (cluster.Clientset client).
Proof.
  intros Hlive [Hin Hc]%GetClient_connected.
  by apply (Hlive name client Hin).
Qed.

(** With live handles [DeployToCluster] never panics: it returns nil or an
    error. *)
Lemma DeployToCluster_returns (m : workload.Manager)
    (clusterName namespace yamlContent : string) (s : workload.Sys World) :
  cluster.handles_live (workload.clusterManager m) →
  ∃ err s', workload.DeployToCluster m clusterName namespace yamlContent s = Ok (err, s').
Proof.
  intros Hlive. rewrite DeployToCluster_run.
  destruct (cluster.GetClient _ _).1 as [client|err] eqn:Hclient; [|by eexists _, _].
  destruct (yaml_Unmarshal_map yamlContent) as [obj|err]; [|by eexists _, _].
  destruct (workload.kindOf obj) as [kind|]; [|by eexists _, _].
  case_bool_decide; [|by eexists _, _].
  destruct (yaml_Unmarshal_Deployment yamlContent) as [decoded|err] eqn:Hdec.
  - destruct (GetClient_live _ _ _ Hlive Hclient) as [clientset Hcs].
    rewrite (applyDeployment_run _ _ _ _ _ _ _ Hdec Hcs). cbv zeta.
    destruct (Deployments_Get _ _ _ _).
    + destruct (Deployments_Update _ _ _ _). by eexists _, _.
    + destruct (Deployments_Create _ _ _ _). by eexists _, _.
  - unfold workload.applyDeployment. rewrite Hdec. by eexists _, _.
Qed.

Lemma replay_app (w : World) (l1 l2 : list ApiCall) :
  replay w (l1 ++ l2)%list = replay (replay w l1) l2.
Proof. apply foldl_app. Qed.

Lemma concat_insert_snoc {A} (sent : list (list A)) (i : nat) (r : list A) (c : A) :
  sent !! i = Some r → concat (<[i := (r ++ [c])%list]> sent) ≡ₚ c :: concat sent.
Proof.
  revert i. induction sent as [|x sent IH]; intros [|i] Hi; simplify_eq/=.
  - rewrite <- app_assoc. simpl. symmetry. apply Permutation_middle.
  - rewrite (IH i Hi). symmetry. apply Permutation_middle.
Qed.

Lemma requested_mono (w0 : World) (log extra : list ApiCall)
    (clientset : kubernetes.Clientset) (d : appsv1.Deployment) (err : error)
    (reqs : list ApiCall) :
  requested w0 log clientset d err reqs →
  requested w0 (log ++ extra)%list clientset d err reqs.
Proof.
  intros (before & between & after & write & -> & -> & H).
  exists before, between, (after ++ extra)%list, write.
  split; [|split; [done | exact H]].
  rewrite <- app_assoc. simpl. by rewrite <- app_assoc.
Qed.

Lemma attempted_mono (m : workload.Manager) (namespace yamlContent : string)
    (w0 : World) (log extra : list ApiCall) (name : string) (err : error)
    (reqs : list ApiCall) :
  attempted m namespace yamlContent w0 log name err reqs →
  attempted m namespace yamlContent w0 (log ++ extra)%list name err reqs.
Proof.
  unfold attempted.
  destruct (cluster.GetClient _ _).1 as [client|e]; [|done].
  destruct (yaml_Unmarshal_map yamlContent) as [obj|e]; [|done].
  destruct (workload.kindOf obj) as [kind|]; [|done].
  case_bool_decide; [|done].
  destruct (yaml_Unmarshal_Deployment yamlContent) as [decoded|e]; [|done].
  intros (clientset & Hcs & Hreq). exists clientset.
  split; [done | by apply requested_mono].
Qed.

Lemma standing_mono (m : workload.Manager) (namespace yamlContent : string)
    (w0 : World) (log extra : list ApiCall) (name : string)
    (g : workload.Goroutine) (reqs : list ApiCall) :
  standing m namespace yamlContent w0 log name g reqs →
  standing m namespace yamlContent w0 (log ++ extra)%list name g reqs.
Proof.
  destruct g as [n|n clientset d got|n err|n err]; simpl.
  - done.
  - intros (-> & client & obj & decoded & before & between
            & Hc & Hobj & Hkind & Hdec & Hcs & Hd & -> & Hgot & Hreqs).
    split; [done|].
    exists client, obj, decoded, before, (between ++ extra)%list.
    split_and!; try done.
    rewrite <- app_assoc. done.
  - intros [-> H]. split; [done | by apply attempted_mono].
  - intros [-> H]. split; [done | by apply attempted_mono].
Qed.

(** A goroutine takes a step: what is left to show. *)
Lemma inFlight_step (m : workload.Manager) (namespace yamlContent : string)
    (s0 : workload.Sys World) (clusterNames : list string)
    (goroutines : list workload.Goroutine) (results results' : gmap string error)
    (s : workload.Sys World) (log extra : list ApiCall) (sent : list (list ApiCall))
    (i : nat) (name : string) (g g' : workload.Goroutine) (reqs : list ApiCall) :
  inFlight m namespace yamlContent s0 clusterNames goroutines results s log sent →
  clusterNames !! i = Some name →
  goroutines !! i = Some g →
  sent !! i = Some reqs →
  (∀ c, c ∈ extra → extra = [c]) →
  standing m namespace yamlContent (workload.world s0) (log ++ extra)%list name g'
    (reqs ++ extra)%list →
  (∀ n e, g = workload.Stored n e → g' = g) →
  (∀ n e, results' !! n = Some e →
     results !! n = Some e ∨ g' = workload.Stored n e) →
  (∀ n, is_Some (results !! n) → is_Some (results' !! n)) →
  (∀ n e, g' = workload.Stored n e → is_Some (results' !! n)) →
  inFlight m namespace yamlContent s0 clusterNames (<[i := g']> goroutines) results'
    (served s0 (log ++ extra)%list) (log ++ extra)%list (<[i := (reqs ++ extra)%list]> sent).
Proof.
  intros (Hs & Hperm & Hlen & Hlens & Hstand & Hkeys & Hstored)
    Hname Hg Hreqs Hextra Hnew Hkeep Hr1 Hr2 Hr3.
  split; [done|]. split; [|split; [|split; [|split; [|split]]]].
  - destruct extra as [|c extra].
    + rewrite !app_nil_r, list_insert_id by done. done.
    + rewrite (Hextra c) by left.
      rewrite concat_insert_snoc by done.
      rewrite <- Hperm. symmetry. apply Permutation_cons_append.
  - by rewrite length_insert.
  - by rewrite length_insert.
  - intros j name' gj reqsj Hn Hgj Hsj.
    destruct (decide (j = i)) as [->|Hne].
    + rewrite list_lookup_insert_eq in Hgj by (by eapply lookup_lt_Some).
      rewrite list_lookup_insert_eq in Hsj by (by eapply lookup_lt_Some).
      by simplify_eq.
    + rewrite list_lookup_insert_ne in Hgj by done.
      rewrite list_lookup_insert_ne in Hsj by done.
      apply standing_mono. by eapply Hstand.
  - intros n e Hne. destruct (Hr1 n e Hne) as [Hold| ->].
    + destruct (Hkeys n e Hold) as [j Hj]. exists j.
      destruct (decide (j = i)) as [->|Hji].
      * rewrite list_lookup_insert_eq by (by eapply lookup_lt_Some).
        rewrite Hg in Hj. injection Hj as ->. by rewrite (Hkeep n e).
      * by rewrite list_lookup_insert_ne.
    + exists i. by rewrite list_lookup_insert_eq by (by eapply lookup_lt_Some).
  - intros j n e Hj. destruct (decide (j = i)) as [->|Hji].
    + rewrite list_lookup_insert_eq in Hj by (by eapply lookup_lt_Some).
      injection Hj as ->. by eapply Hr3.
    + rewrite list_lookup_insert_ne in Hj by done.
      apply Hr2. by eapply Hstored.
Qed.

Lemma served_nil (s0 : workload.Sys World) (log : list ApiCall) :
  served s0 (log ++ [])%list = served s0 log.
Proof. by rewrite app_nil_r. Qed.

(** Every step of a goroutine keeps the fan-out in order, and brings the
    goroutine nearer to its end. *)
Lemma advance_inFlight (m : workload.Manager) (namespace yamlContent : string)
    (s0 : workload.Sys World) (clusterNames : list string)
    (goroutines : list workload.Goroutine) (results : gmap string error)
    (s : workload.Sys World) (log : list ApiCall) (sent : list (list ApiCall))
    (i : nat) (g : workload.Goroutine) :
  cluster.handles_live (workload.clusterManager m) →
  inFlight m namespace yamlContent s0 clusterNames goroutines results s log sent →
  goroutines !! i = Some g →
  ∃ g' results' s' log' sent',
    workload.advance m namespace yamlContent g results s = Ok ((g', results'), s')
    ∧ inFlight m namespace yamlContent s0 clusterNames (<[i := g']> goroutines)
        results' s' log' sent'
    ∧ (stepsLeft g' ≤ stepsLeft g - 1)%nat.
Proof.
  intros Hlive Hinv Hg.
  assert (Hi : (i < length clusterNames)%nat).
  { destruct Hinv as (_ & _ & <- & _). by eapply lookup_lt_Some. }
  destruct (lookup_lt_is_Some_2 clusterNames i Hi) as [name Hname].
  assert (Hsi : is_Some (sent !! i)).
  { apply lookup_lt_is_Some_2. destruct Hinv as (_ & _ & _ & -> & _). done. }
  destruct Hsi as [reqs Hreqs].
  pose proof Hinv as (Hs & _ & _ & _ & Hstand & _).
  specialize (Hstand i name g reqs Hname Hg Hreqs).
  destruct g as [n|n clientset d got|n err|n err]; simpl in Hstand.
  - (* up to the Get *)
    destruct Hstand as [-> ->].
    assert (Hquiet : ∀ e,
              attempted m namespace yamlContent (workload.world s0) (log ++ [])%list
                name (Some e) ([] ++ [])%list →
              ∃ g' results' s' log' sent',
                Ok (workload.Returned name (Some e), results, s)
                = Ok ((g', results'), s')
                ∧ inFlight m namespace yamlContent s0 clusterNames
                    (<[i := g']> goroutines) results' s' log' sent'
                ∧ (stepsLeft g' ≤ 3 - 1)%nat).
    { intros e He.
      exists (workload.Returned name (Some e)), results, s, (log ++ [])%list,
        (<[i := ([] ++ [])%list]> sent).
      split; [done|]. split; [|simpl; lia].
      rewrite Hs, <- served_nil.
      eapply inFlight_step; try done.
      - by intros c ?%elem_of_nil.
      - intros n e' Hn. by left. }
    unfold workload.advance, workload.deployUntilGet.
    unfold attempted in Hquiet.
    destruct (cluster.GetClient _ _).1 as [client|e] eqn:Hc;
      [|apply Hquiet; done].
    destruct (yaml_Unmarshal_map yamlContent) as [obj|e] eqn:Hobj;
      [|apply Hquiet; done].
    destruct (workload.kindOf obj) as [kind|] eqn:Hkind;
      [|apply Hquiet; done].
    case_bool_decide as Hk; [|apply Hquiet; done].
    destruct (yaml_Unmarshal_Deployment yamlContent) as [decoded|e] eqn:Hdec;
      [|apply Hquiet; done].
    clear Hquiet. subst kind.
    destruct (GetClient_live _ _ _ Hlive Hc) as [clientset Hcs].
    rewrite Hcs.
    set (d := workload.inNamespace namespace decoded).
    set (get := CallGet clientset (appsv1.Namespace d) (appsv1.Name d)).
    exists (workload.Fetched name clientset d
              (Deployments_Get (workload.world s) clientset
                 (appsv1.Namespace d) (appsv1.Name d))),
      results, (served s0 (log ++ [get])%list), (log ++ [get])%list,
      (<[i := ([] ++ [get])%list]> sent).
    split; [|split; [|simpl; lia]].
    + unfold mbind, workload.W_bind, workload.lift, workload.api_Get, mret,
        workload.W_ret. simpl.
      do 2 f_equal. rewrite Hs. unfold served. simpl.
      rewrite replay_app. simpl. by rewrite <- app_assoc.
    + eapply inFlight_step; try done.
      * intros c ->%list_elem_of_singleton. done.
      * simpl. split; [done|].
        exists client, obj, decoded, log, [].
        split_and!; try done. rewrite Hs. done.
      * intros n e' Hn. by left.
  - (* the write *)
    destruct Hstand as (-> & client & obj & decoded & before & between
                        & Hc & Hobj & Hkind & Hdec & Hcs & Hd & Hlog & Hgot & ->).
    set (get := CallGet clientset (appsv1.Namespace d) (appsv1.Name d)) in *.
    assert (Hdone : ∀ write err,
              requested (workload.world s0) (log ++ [write])%list clientset d err
                [get; write] →
              inFlight m namespace yamlContent s0 clusterNames
                (<[i := workload.Returned name err]> goroutines) results
                (served s0 (log ++ [write])%list) (log ++ [write])%list
                (<[i := ([get] ++ [write])%list]> sent)).
    { intros write err Hreq.
      eapply inFlight_step; try done.
      - intros c ->%list_elem_of_singleton. done.
      - simpl. split; [done|]. unfold attempted.
        rewrite Hc, Hobj, Hkind, bool_decide_eq_true_2, Hdec by done.
        exists clientset. rewrite <- Hd. done.
      - intros n e' Hn. by left. }
    assert (Hat : replay (workload.world s0) (before ++ get :: between)%list
                  = workload.world s).
    { rewrite <- Hlog, Hs. done. }
    unfold workload.advance, workload.deployAfterGet.
    destruct got as [existing|e].
    + set (d' := appsv1.set_ResourceVersion (appsv1.ResourceVersion existing) d).
      set (write := CallUpdate clientset (appsv1.Namespace d) d').
      destruct (Deployments_Update (workload.world s) clientset
                  (appsv1.Namespace d) d') as [w' r] eqn:Hup.
      exists (workload.Returned name
                (match r with
                 | inl _ => None
                 | inr e => Some ("failed to update deployment: " +:+ e)
                 end)),
        results, (served s0 (log ++ [write])%list), (log ++ [write])%list,
        (<[i := ([get] ++ [write])%list]> sent).
      split; [|split; [|simpl; lia]].
      * unfold mbind, workload.W_bind, workload.api_Update, mret, workload.W_ret.
        simpl. fold d'. rewrite Hup.
        assert (Hs' : workload.mkSys w' (workload.calls s ++ [write])
                      = served s0 (log ++ [write])%list).
        { rewrite Hs. unfold served. simpl. rewrite replay_app. simpl.
          rewrite Hs in Hup. simpl in Hup. rewrite Hup. simpl.
          by rewrite <- app_assoc. }
        fold write. rewrite Hs'. by destruct r.
      * apply Hdone.
        exists before, between, [], write.
        split; [by rewrite Hlog, <- app_assoc|]. split; [done|].
        fold get. cbv zeta. rewrite <- Hgot, Hat.
        exists d'. split; [done|]. split; [done|].
        rewrite Hup. simpl. by destruct r.
    + set (write := CallCreate clientset (appsv1.Namespace d) d).
      destruct (Deployments_Create (workload.world s) clientset
                  (appsv1.Namespace d) d) as [w' r] eqn:Hcr.
      exists (workload.Returned name
                (match r with
                 | inl _ => None
                 | inr e => Some ("failed to create deployment: " +:+ e)
                 end)),
        results, (served s0 (log ++ [write])%list), (log ++ [write])%list,
        (<[i := ([get] ++ [write])%list]> sent).
      split; [|split; [|simpl; lia]].
      * unfold mbind, workload.W_bind, workload.api_Create, mret, workload.W_ret.
        simpl. rewrite Hcr.
        assert (Hs' : workload.mkSys w' (workload.calls s ++ [write])
                      = served s0 (log ++ [write])%list).
        { rewrite Hs. unfold served. simpl. rewrite replay_app. simpl.
          rewrite Hs in Hcr. simpl in Hcr. rewrite Hcr. simpl.
          by rewrite <- app_assoc. }
        fold write. rewrite Hs'. by destruct r.
      * apply Hdone.
        exists before, between, [], write.
        split; [by rewrite Hlog, <- app_assoc|]. split; [done|].
        fold get. cbv zeta. rewrite <- Hgot, Hat.
        split; [done|]. rewrite Hcr. simpl. by destruct r.
  - (* the store *)
    destruct Hstand as [-> Hatt].
    exists (workload.Stored name err), (<[name := err]> results), s,
      (log ++ [])%list, (<[i := (reqs ++ [])%list]> sent).
    split; [done|]. split; [|simpl; lia].
    rewrite Hs, <- served_nil.
    eapply inFlight_step; try done.
    + by intros c ?%elem_of_nil.
    + simpl. split; [done|]. rewrite !app_nil_r. done.
    + intros n e Hn. destruct (decide (n = name)) as [->|Hne].
      * rewrite lookup_insert_eq in Hn. injection Hn as ->. by right.
      * rewrite lookup_insert_ne in Hn by done. by left.
    + intros n Hn. destruct (decide (n = name)) as [->|Hne].
      * rewrite lookup_insert_eq. by eexists.
      * by rewrite lookup_insert_ne.
    + intros n e [= -> ->]. rewrite lookup_insert_eq. by eexists.
  - (* nothing left *)
    destruct Hstand as [-> Hatt].
    exists (workload.Stored name err), results, s, (log ++ [])%list,
      (<[i := (reqs ++ [])%list]> sent).
    split; [done|]. split; [|simpl; lia].
    rewrite Hs, <- served_nil.
    eapply inFlight_step; try done.
    + by intros c ?%elem_of_nil.
    + simpl. split; [done|]. rewrite !app_nil_r. done.
    + intros n e Hn. by left.
    + intros n e [= -> ->].
      destruct Hinv as (_ & _ & _ & _ & _ & _ & Hstored). by eapply Hstored.
Qed.

(** Under any scheduler the goroutines stay in order, and each pick of a
    goroutine brings it one step nearer to its end. *)
Lemma runGoroutines_inFlight (m : workload.Manager) (namespace yamlContent : string)
    (s0 : workload.Sys World) (clusterNames : list string) (picks : list nat)
    (goroutines : list workload.Goroutine) (results : gmap string error)
    (s : workload.Sys World) (log : list ApiCall) (sent : list (list ApiCall)) :
  cluster.handles_live (workload.clusterManager m) →
  inFlight m namespace yamlContent s0 clusterNames goroutines results s log sent →
  ∃ goroutines' results' s' log' sent',
    workload.runGoroutines m namespace yamlContent picks goroutines results s
    = Ok ((goroutines', results'), s')
    ∧ inFlight m namespace yamlContent s0 clusterNames goroutines' results' s'
        log' sent'
    ∧ ∀ j g, goroutines !! j = Some g →
        ∃ g', goroutines' !! j = Some g'
              ∧ (stepsLeft g' ≤ stepsLeft g - count_occ Nat.eq_dec picks j)%nat.
Proof.
  intros Hlive. revert goroutines results s log sent.
  induction picks as [|i picks IH]; intros goroutines results s log sent Hinv.
  - exists goroutines, results, s, log, sent. split; [done|]. split; [done|].
    intros j g Hj. exists g. split; [done | simpl; lia].
  - cbn [workload.runGoroutines].
    destruct (goroutines !! i) as [g|] eqn:Hg.
    + destruct (advance_inFlight _ _ _ _ _ _ _ _ _ _ i g Hlive Hinv Hg)
        as (g1 & results1 & s1 & log1 & sent1 & Hstep & Hinv1 & Hless).
      unfold mbind, workload.W_bind. rewrite Hstep. cbn [fst snd].
      destruct (IH _ _ _ _ _ Hinv1)
        as (goroutines' & results' & s' & log' & sent' & Hrun & Hinv' & Hall).
      exists goroutines', results', s', log', sent'.
      split; [done|]. split; [done|].
      intros j gj Hj. destruct (decide (j = i)) as [->|Hne].
      * destruct (Hall i g1) as (g' & Hg' & Hle).
        { apply list_lookup_insert_eq. by eapply lookup_lt_Some. }
        exists g'. split; [done|].
        rewrite count_occ_cons_eq by done. simplify_eq. lia.
      * destruct (Hall j gj) as (g' & Hg' & Hle).
        { by rewrite list_lookup_insert_ne. }
        exists g'. split; [done|].
        rewrite count_occ_cons_neq by done. done.
    + destruct (IH _ _ _ _ _ Hinv)
        as (goroutines' & results' & s' & log' & sent' & Hrun & Hinv' & Hall).
      exists goroutines', results', s', log', sent'.
      split; [done|]. split; [done|].
      intros j gj Hj. destruct (Hall j gj Hj) as (g' & Hg' & Hle).
      exists g'. split; [done|].
      rewrite count_occ_cons_neq by congruence. done.
Qed.

Lemma untilAllDone_count (n j : nat) :
  count_occ Nat.eq_dec (workload.untilAllDone n) j
  = if decide (j < n)%nat then 3%nat else 0%nat.
Proof.
  unfold workload.untilAllDone.
  induction n as [|n IH]; [done|].
  rewrite seq_S, flat_map_app, count_occ_app, IH. simpl.
  repeat case_decide; destruct (Nat.eq_dec n j); lia.
Qed.

Lemma concat_replicate_nil {A} (n : nat) : concat (replicate n (@nil A)) = [].
Proof. induction n; [done | by simpl]. Qed.

Lemma zip_with_snd {A B C} (f : A → C) (l : list A) (k : list B) :
  length l = length k → map snd (zip_with (λ a b, (f a, b)) l k) = k.
Proof.
  revert k. induction l as [|a l IH]; intros [|b k] Hlen; simplify_eq/=; [done|].
  by rewrite IH.
Qed.

(** [DeployToCluster] is its two halves, one after the other. *)
Lemma DeployToCluster_in_two_steps (m : workload.Manager)
    (name namespace yamlContent : string) (s : workload.Sys World) :
  workload.DeployToCluster m name namespace yamlContent s
  = match workload.deployUntilGet m name namespace yamlContent s with
    | Ok (workload.Fetched _ clientset d got, s1) =>
        workload.deployAfterGet clientset d got s1
    | Ok (workload.Returned _ err, s1) => Ok (err, s1)
    | Ok (_, s1) => Ok (None, s1)
    | Panic msg => Panic msg
    end.
Proof.
  unfold workload.DeployToCluster, workload.deployUntilGet, workload.applyDeployment.
  destruct (cluster.GetClient _ _).1 as [client|e]; [|done].
  destruct (yaml_Unmarshal_map yamlContent) as [obj|e]; [|done].
  destruct (workload.kindOf obj) as [kind|]; [|done].
  case_bool_decide; [|done].
  destruct (yaml_Unmarshal_Deployment yamlContent) as [decoded|e]; [|done].
  destruct (cluster.Clientset client) as [clientset|]; [|done].
  done.
Qed.

(** C5: for every registry whose connected handles hold a clientset (as
    every registry [NewManager] returns does, [NewManager_handles_live]),
    every list of requested names and every order in which the scheduler
    lets the goroutines take their steps, [DeployToMultipleClusters]
    returns a map whose keys are exactly the requested names.  Every
    goroutine makes its attempt, whatever the others do or get back: it
    returns the error of its own lookup or of the decoding without a
    request, or it sends a Get and then an Update or a Create to the
    clientset of its own cluster, and returns nil when the server accepts
    that write and the server's error otherwise.  The entry under a
    name is what a goroutine started for that very name returned.  The
    requests the servers receive are those of the goroutines and no
    others, and they leave the servers where these requests, in the order
    received, bring them. *)
Theorem DeployToMultipleClusters_one_entry_per_target (m : workload.Manager)
    (picks : list nat) (clusterNames : list string)
    (namespace yamlContent : string) (s0 : workload.Sys World) :
  cluster.handles_live (workload.clusterManager m) →
  ∃ results log outcomes,
    workload.DeployToMultipleClusters m picks clusterNames namespace yamlContent s0
    = Ok (results, served s0 log)
    ∧ dom results = list_to_set clusterNames
    ∧ Forall2 (λ name outcome,
                 attempted m namespace yamlContent (workload.world s0) log name
                   outcome.1 outcome.2)
        clusterNames outcomes
    ∧ log ≡ₚ concat (map snd outcomes)
    ∧ ∀ name, name ∈ clusterNames →
        ∃ i err reqs,
          clusterNames !! i = Some name
          ∧ outcomes !! i = Some (err, reqs)
          ∧ results !! name = Some err.
Proof.
  intros Hlive.
  set (n := length clusterNames).
  assert (Hinit : inFlight m namespace yamlContent s0 clusterNames
                    (map workload.Started clusterNames) ∅ s0 []
                    (replicate n [])).
  { split; [|split; [|split; [|split; [|split; [|split]]]]].
    - destruct s0. unfold served. simpl. by rewrite app_nil_r.
    - by rewrite concat_replicate_nil.
    - by rewrite length_map.
    - by rewrite length_replicate.
    - intros i name g reqs Hname Hg Hreqs.
      change (map workload.Started clusterNames) with (workload.Started <$> clusterNames)
        in Hg.
      rewrite list_lookup_fmap, Hname in Hg. injection Hg as <-.
      apply lookup_replicate in Hreqs as [-> _]. done.
    - intros name err Hin. by rewrite lookup_empty in Hin.
    - intros i name err Hg.
      change (map workload.Started clusterNames) with (workload.Started <$> clusterNames)
        in Hg.
      rewrite list_lookup_fmap in Hg. destruct (clusterNames !! i); done. }
  destruct (runGoroutines_inFlight m namespace yamlContent s0 clusterNames
              (picks ++ workload.untilAllDone n) _ _ _ _ _ Hlive Hinit)
    as (goroutines & results & s' & log & sent & Hrun & Hinv & Hall).
  destruct Hinv as (-> & Hperm & Hlen & Hlens & Hstand & Hkeys & Hstored).
  assert (Hend : ∀ i name, clusterNames !! i = Some name →
            ∃ err reqs,
              goroutines !! i = Some (workload.Stored name err)
              ∧ sent !! i = Some reqs
              ∧ attempted m namespace yamlContent (workload.world s0) log name err reqs).
  { intros i name Hname.
    assert (Hi : (i < n)%nat) by (by eapply lookup_lt_Some).
    destruct (Hall i (workload.Started name)) as (g & Hg & Hle).
    { change (map workload.Started clusterNames) with (workload.Started <$> clusterNames).
      by rewrite list_lookup_fmap, Hname. }
    rewrite count_occ_app, untilAllDone_count in Hle.
    rewrite decide_True in Hle by done.
    destruct (lookup_lt_is_Some_2 sent i) as [reqs Hreqs]; [by rewrite Hlens|].
    specialize (Hstand i name g reqs Hname Hg Hreqs).
    destruct g as [?|????|??|n' err]; simpl in Hle; try lia.
    destruct Hstand as [-> Hatt]. by exists err, reqs. }
  set (outcomes := zip_with (λ g reqs, (outcomeOf g, reqs)) goroutines sent).
  assert (Hout : ∀ i name, clusterNames !! i = Some name →
            ∃ err reqs,
              goroutines !! i = Some (workload.Stored name err)
              ∧ outcomes !! i = Some (err, reqs)
              ∧ attempted m namespace yamlContent (workload.world s0) log name err reqs).
  { intros i name Hname. destruct (Hend i name Hname) as (err & reqs & Hg & Hs & Hatt).
    exists err, reqs. split; [done|]. split; [|done].
    unfold outcomes. rewrite lookup_zip_with, Hg. simpl. by rewrite Hs. }
  assert (Hin : ∀ name, name ∈ clusterNames →
            ∃ i err reqs,
              clusterNames !! i = Some name
              ∧ outcomes !! i = Some (err, reqs)
              ∧ results !! name = Some err).
  { intros name [j Hj]%list_elem_of_lookup.
    destruct (Hend j name Hj) as (errj & _ & Hgj & _).
    destruct (Hstored j name errj Hgj) as [err Herr].
    destruct (Hkeys name err Herr) as [i Hi].
    assert (Hlt : (i < length clusterNames)%nat).
    { rewrite <- Hlen. by eapply lookup_lt_Some. }
    destruct (lookup_lt_is_Some_2 clusterNames i Hlt) as [name' Hname'].
    destruct (Hout i name' Hname') as (err' & reqs & Hg' & Ho & _).
    rewrite Hi in Hg'. injection Hg' as <- <-.
    by exists i, err, reqs. }
  exists results, log, outcomes.
  split; [|split; [|split; [|split]]].
  - unfold workload.DeployToMultipleClusters, mbind, workload.W_bind.
    fold n. rewrite Hrun. done.
  - apply set_eq. intros name. rewrite elem_of_dom, elem_of_list_to_set. split.
    + intros [err Herr]. destruct (Hkeys name err Herr) as [i Hi].
      assert (Hlt : (i < length clusterNames)%nat).
      { rewrite <- Hlen. by eapply lookup_lt_Some. }
      destruct (lookup_lt_is_Some_2 clusterNames i Hlt) as [name' Hname'].
      destruct (Hend i name' Hname') as (err' & _ & Hg' & _).
      rewrite Hi in Hg'. injection Hg' as -> ->.
      by eapply list_elem_of_lookup_2.
    + intros Hname. destruct (Hin name Hname) as (i & err & reqs & _ & _ & Hr).
      by exists err.
  - apply Forall2_same_length_lookup_2.
    + unfold outcomes. rewrite length_zip_with. lia.
    + intros i name [err reqs] Hname Ho.
      destruct (Hout i name Hname) as (err' & reqs' & _ & Ho' & Hatt).
      rewrite Ho in Ho'. by injection Ho' as -> ->.
  - unfold outcomes. rewrite zip_with_snd by lia. done.
  - exact Hin.
Qed.

End fanout.

(** The registry of the concrete fleet has live handles. *)
Lemma handles_live_example :
  cluster.handles_live (workload.clusterManager fake.fleet).
Proof.
  unfold fake.fleet, fake.managerOf. simpl.
  destruct (cluster.NewManager _ _ _) as [m|err] eqn:Hnew.
  - by eapply NewManager_handles_live.
  - intros name c Hc. simpl in Hc. by rewrite lookup_empty in Hc.
Qed.

(** C5 at the name B requested twice, the two goroutines taking their
    steps in turn: both Gets find nothing, both send a Create, the second
    Create is refused, and the entry under B is the error of the goroutine
    that stores last. *)
Lemma DeployToMultipleClusters_example :
  cluster.handles_live (workload.clusterManager fake.fleet)
  ∧ ∃ results log,
      workload.DeployToMultipleClusters (apiI := fake.api) (yamlI := fake.yaml)
        fake.fleet [0; 1; 0; 1]%nat ["B"; "B"] "default" fake.webManifest fake.start
      = Ok (results, served (apiI := fake.api) fake.start log)
      ∧ dom results = list_to_set ["B"; "B"]
      ∧ results !! "B" = Some (Some "failed to create deployment: already exists")
      ∧ log = [CallGet sample.clientsetB "default" "web";
               CallGet sample.clientsetB "default" "web";
               CallCreate sample.clientsetB "default"
                 (workload.inNamespace "default" (fake.web (Some 3) 0));
               CallCreate sample.clientsetB "default"
                 (workload.inNamespace "default" (fake.web (Some 3) 0))].
Proof.
  split; [exact handles_live_example|].
  destruct (DeployToMultipleClusters_one_entry_per_target
              (apiI := fake.api) (yamlI := fake.yaml)
              fake.fleet [0; 1; 0; 1]%nat ["B"; "B"] "default" fake.webManifest
              fake.start handles_live_example)
    as (results & log & outcomes & Hrun & Hdom & _).
  assert (Hrun' :
    match workload.DeployToMultipleClusters (apiI := fake.api) (yamlI := fake.yaml)
            fake.fleet [0; 1; 0; 1]%nat ["B"; "B"] "default" fake.webManifest
            fake.start with
    | Ok (r, s) => (r !! "B", workload.calls s)
    | Panic _ => (None, [])
    end
    = (Some (Some "failed to create deployment: already exists"),
       [CallGet sample.clientsetB "default" "web";
        CallGet sample.clientsetB "default" "web";
        CallCreate sample.clientsetB "default"
          (workload.inNamespace "default" (fake.web (Some 3) 0));
        CallCreate sample.clientsetB "default"
          (workload.inNamespace "default" (fake.web (Some 3) 0))])) by by_vm.
  rewrite Hrun in Hrun'. injection Hrun' as HB Hlog.
  exists results, log. split; [exact Hrun|]. split; [exact Hdom|].
  split; [exact HB | exact Hlog].
Defined.

(** ** The query fan-out *)

(** C4 at a target that answers with a deployment that carries no
    desired-replica count: the target is connected and its list call
    succeeds, and yet [ListDeployments] returns neither a nil error nor
    the target's items; the goroutine dereferences the nil count and the
    process panics. *)
Lemma ListDeployments_panics_on_nil_replicas :
  workload.targetFails (apiI := fake.api)
    (workload.mkManager (fake.managerOf (fake.cfg [fake.clusterA]) fake.nilReplicas))
    fake.nilReplicas "default" "A" = false
  ∧ workload.listedBy (apiI := fake.api)
      (workload.mkManager (fake.managerOf (fake.cfg [fake.clusterA]) fake.nilReplicas))
      fake.nilReplicas "default" "A" = [fake.web None 2]
  ∧ workload.ListDeployments (hostI := fake.host) (apiI := fake.api)
      (workload.mkManager (fake.managerOf (fake.cfg [fake.clusterA]) fake.nilReplicas))
      fake.nilReplicas id id ["A"] "default"
    = Panic nil_dereference.
Proof. repeat split; by_vm. Qed.

Lemma filter_length_Permutation {A} (p : A → bool) (l l' : list A) :
  l ≡ₚ l' → length (List.filter p l) = length (List.filter p l').
Proof.
  induction 1 as [|x l l' _ IH|x y l|l l' l'' _ IH1 _ IH2]; simpl.
  - done.
  - destruct (p x); simpl; by rewrite IH.
  - destruct (p x), (p y); done.
  - by rewrite IH1.
Qed.

Lemma elem_of_concat {A} (x : A) (ls : list (list A)) :
  x ∈ concat ls ↔ ∃ l, x ∈ l ∧ l ∈ ls.
Proof.
  induction ls as [|l ls IH]; simpl.
  - split; [by intros ?%elem_of_nil | by intros (l & _ & ?%elem_of_nil)].
  - rewrite elem_of_app, IH. split.
    + intros [Hx|(l' & Hx & Hl')]; [exists l; split; [done | left]|].
      exists l'. split; [done | by right].
    + intros (l' & Hx & [->|Hl']%elem_of_cons); [by left|].
      right. by exists l'.
Qed.

Lemma filter_app_length {A} (p : A → bool) (l l' : list A) :
  length (List.filter p (l ++ l'))
  = (length (List.filter p l) + length (List.filter p l'))%nat.
Proof. by rewrite List.filter_app, length_app. Qed.

Lemma result_mapM_Forall2 {A B} (f : A → result B) (xs : list A) (ys : list B) :
  result_mapM f xs = Ok ys ↔ Forall2 (λ x y, f x = Ok y) xs ys.
Proof.
  revert ys. induction xs as [|x xs IH]; intros ys; simpl.
  - split; [intros [= <-]; constructor | by inversion 1].
  - destruct (f x) as [y|msg] eqn:Hfx; simpl.
    + destruct (result_mapM f xs) as [ys'|msg] eqn:Hrest; simpl.
      * split.
        -- intros [= <-]. constructor; [done | by apply IH].
        -- inversion 1 as [|? y' ? ys'' Hy Hys]; subst.
           apply IH in Hys. congruence.
      * split; [done|]. inversion 1 as [|? y' ? ys'' Hy Hys]; subst.
        apply IH in Hys. done.
    + split; [done|]. inversion 1; congruence.
Qed.

Section query.
Context {hostI : Host} {World : Type} {apiI : KubeAPI World}.

(** What one goroutine of [ListDeployments] sends, when every deployment
    its target lists carries a desired count. *)
Lemma getDeploymentsFromCluster_returns (m : workload.Manager) (w : World)
    (clusterName namespace : string) :
  cluster.handles_live (workload.clusterManager m) →
  Forall (λ d, is_Some (appsv1.Replicas (appsv1.Spec d)))
    (workload.listedBy m w namespace clusterName) →
  ∃ sent,
    workload.getDeploymentsFromCluster m w clusterName namespace = Ok sent
    ∧ Forall (λ e, workload.DeploymentInfo.ClusterName e = clusterName) sent
    ∧ (if workload.targetFails m w namespace clusterName
       then ∃ msg,
              sent = [workload.DeploymentInfo.mk clusterName "" "" 0 0 "" "" "" msg]
              ∧ msg ≠ ""
              ∧ failureReported m w namespace clusterName msg
       else Forall2 (reports clusterName)
              (workload.listedBy m w namespace clusterName) sent).
Proof.
  intros Hlive Hset.
  unfold workload.getDeploymentsFromCluster, workload.targetFails, workload.listedBy,
    failureReported in *.
  destruct (cluster.GetClient _ _).1 as [client|err] eqn:Hclient.
  - destruct (GetClient_live _ _ _ Hlive Hclient) as [clientset Hcs].
    rewrite Hcs in *. simpl.
    destruct (Deployments_List w clientset namespace) as [items|err] eqn:Hlist.
    + clear Hlist. induction Hset as [|d items [desired Hd] _ IH]; simpl.
      * exists []. split; [done|]. split; constructor.
      * destruct IH as (sent & -> & Hnames & Hall).
        unfold workload.deploymentInfo at 1. rewrite Hd. simpl.
        eexists. split; [reflexivity|]. split; [by constructor|].
        constructor; [|done]. by exists desired.
    + eexists. split; [reflexivity|]. split; [by repeat constructor|].
      eexists. split; [reflexivity|]. split; [done|].
      by exists clientset, err.
  - eexists. split; [reflexivity|]. split; [by repeat constructor|].
    eexists. split; [reflexivity|]. done.
Qed.

(** X26.  For every registry whose connected handles hold a clientset (as
    every registry [NewManager] returns does), provided every deployment
    listed by a target of the call carries a desired-replica count,
    [ListDeployments] returns a nil error for every target list and every
    order of completion.  Every target whose client lookup or list call
    fails is present in the returned slice as one entry that holds its
    name and, in [Error], the failure; every deployment listed by a target
    that answers is present as an entry of that target holding the
    deployment's namespace, name, counts, first image, status and age,
    with an empty [Error]; the entries with an error are as many as the
    failing targets, and no entry belongs to another cluster. *)
Theorem ListDeployments_reports_every_target (m : workload.Manager) (w : World)
    (order : cluster.RangeOrder) (sched : cluster.Schedule string)
    (clusterNames : list string) (namespace : string) :
  cluster.handles_live (workload.clusterManager m) →
  cluster.schedule_ok sched (workload.listTargets m order clusterNames) →
  (∀ name, name ∈ workload.listTargets m order clusterNames →
     Forall (λ d, is_Some (appsv1.Replicas (appsv1.Spec d)))
       (workload.listedBy m w namespace name)) →
  ∃ all,
    workload.ListDeployments m w order sched clusterNames namespace = Ok (all, None)
    ∧ (∀ name, name ∈ workload.listTargets m order clusterNames →
         workload.targetFails m w namespace name = true →
         ∃ msg,
           msg ≠ ""
           ∧ failureReported m w namespace name msg
           ∧ workload.DeploymentInfo.mk name "" "" 0 0 "" "" "" msg ∈ all)
    ∧ (∀ name d, name ∈ workload.listTargets m order clusterNames →
         workload.targetFails m w namespace name = false →
         d ∈ workload.listedBy m w namespace name →
         ∃ e, e ∈ all ∧ reports name d e)
    ∧ length (List.filter workload.isErrorEntry all)
      = length (List.filter (workload.targetFails m w namespace)
                  (workload.listTargets m order clusterNames))
    ∧ (∀ e, e ∈ all →
         workload.DeploymentInfo.ClusterName e
         ∈ workload.listTargets m order clusterNames).
Proof.
  intros Hlive Hsched Hset. unfold cluster.schedule_ok in Hsched.
  unfold workload.ListDeployments.
  set (targets := workload.listTargets m order clusterNames) in *.
  set (f := λ name, workload.getDeploymentsFromCluster m w name namespace).
  assert (Hrun : ∀ done, (∀ name, name ∈ done → name ∈ targets) →
            ∃ delivered,
              result_mapM f done = Ok delivered
              ∧ Forall2 (λ name sent, f name = Ok sent) done delivered
              ∧ length (List.filter workload.isErrorEntry (concat delivered))
                = length (List.filter (workload.targetFails m w namespace) done)).
  { induction done as [|name rest IH]; intros Hin.
    - exists []. split; [done|]. split; [constructor | done].
    - destruct IH as (delivered & Hrest & Hall & Hcount).
      { intros n Hn. apply Hin. by right. }
      destruct (getDeploymentsFromCluster_returns m w name namespace Hlive)
        as (sent & Hsent & _ & Hkind).
      { apply Hset, Hin. left. }
      exists (sent :: delivered). simpl.
      change (f name) with (workload.getDeploymentsFromCluster m w name namespace) at 1.
      rewrite Hsent. simpl. rewrite Hrest. simpl.
      split; [done|]. split; [by constructor|].
      rewrite filter_app_length, Hcount.
      destruct (workload.targetFails m w namespace name); simpl.
      + destruct Hkind as (msg & -> & Hmsg & _). simpl.
        unfold workload.isErrorEntry. simpl.
        destruct (String.eqb_spec msg ""); done.
      + f_equal.
        assert (Hnone : List.filter workload.isErrorEntry sent = []).
        { apply filter_none. eapply Forall2_Forall_r; [exact Hkind|].
          apply Forall_forall. intros d _ e (desired & _ & ->). done. }
        by rewrite Hnone. }
  destruct (Hrun (sched targets)) as (delivered & Hmap & Hall & Hcount).
  { intros name Hin. by rewrite <- Hsched. }
  rewrite Hmap. simpl. exists (concat delivered). split; [done|].
  assert (Hsent : ∀ name, name ∈ targets →
            ∃ sent, sent ∈ delivered ∧ f name = Ok sent).
  { intros name Hin. rewrite <- Hsched in Hin.
    apply list_elem_of_lookup in Hin as [i Hi].
    destruct (Forall2_lookup_l _ _ _ _ _ Hall Hi) as (sent & Hs & Hf).
    exists sent. split; [by eapply list_elem_of_lookup_2 | done]. }
  split; [|split; [|split]].
  - intros name Hin Hfails.
    destruct (Hsent name Hin) as (sent & Hdel & Hf).
    destruct (getDeploymentsFromCluster_returns m w name namespace Hlive (Hset name Hin))
      as (sent' & Hsent' & Hnames & Hkind).
    unfold f in Hf. rewrite Hsent' in Hf. injection Hf as ->.
    rewrite Hfails in Hkind. destruct Hkind as (msg & -> & Hmsg & Hrep).
    exists msg. split; [done|]. split; [done|].
    apply elem_of_concat. eexists. split; [left | done].
  - intros name d Hin Hfails Hd.
    destruct (Hsent name Hin) as (sent & Hdel & Hf).
    destruct (getDeploymentsFromCluster_returns m w name namespace Hlive (Hset name Hin))
      as (sent' & Hsent' & Hnames & Hkind).
    unfold f in Hf. rewrite Hsent' in Hf. injection Hf as ->.
    rewrite Hfails in Hkind.
    apply list_elem_of_lookup in Hd as [i Hi].
    destruct (Forall2_lookup_l _ _ _ _ _ Hkind Hi) as (e & He & Hinfo).
    assert (Hemem : e ∈ sent) by (by eapply list_elem_of_lookup_2).
    exists e. split; [|done].
    apply elem_of_concat. by exists sent.
  - rewrite Hcount. by apply filter_length_Permutation.
  - intros e (sent & He & Hdel)%elem_of_concat.
    apply list_elem_of_lookup in Hdel as [i Hi].
    destruct (Forall2_lookup_r _ _ _ _ _ Hall Hi) as (name & Hn & Hf).
    assert (Hin : name ∈ targets).
    { rewrite <- Hsched. by eapply list_elem_of_lookup_2. }
    destruct (getDeploymentsFromCluster_returns m w name namespace Hlive (Hset name Hin))
      as (sent' & Hsent' & Hnames & _).
    unfold f in Hf. rewrite Hsent' in Hf. injection Hf as ->.
    rewrite Forall_forall in Hnames. by rewrite (Hnames e He).
Qed.

End query.

(** X26 at two targets of which one, C, is unknown to the registry: one
    error entry. *)
Lemma ListDeployments_example :
  cluster.handles_live (workload.clusterManager fake.fleet)
  ∧ cluster.schedule_ok (rev (A := string)) (workload.listTargets fake.fleet id ["A"; "C"])
  ∧ (∀ name, name ∈ workload.listTargets fake.fleet id ["A"; "C"] →
       Forall (λ d, is_Some (appsv1.Replicas (appsv1.Spec d)))
         (workload.listedBy (apiI := fake.api) fake.fleet fake.bothUp "default" name))
  ∧ ∃ all,
      workload.ListDeployments (hostI := fake.host) (apiI := fake.api)
        fake.fleet fake.bothUp id (rev (A := string)) ["A"; "C"] "default"
      = Ok (all, None)
      ∧ length (List.filter workload.isErrorEntry all) = 1%nat.
Proof.
  assert (Hsched : cluster.schedule_ok (rev (A := string))
                     (workload.listTargets fake.fleet id ["A"; "C"])).
  { unfold cluster.schedule_ok. apply Permutation_sym, Permutation_rev. }
  assert (Hset : ∀ name, name ∈ workload.listTargets fake.fleet id ["A"; "C"] →
            Forall (λ d, is_Some (appsv1.Replicas (appsv1.Spec d)))
              (workload.listedBy (apiI := fake.api) fake.fleet fake.bothUp "default" name)).
  { intros name Hin. change (name ∈ ["A"; "C"]) in Hin.
    apply elem_of_cons in Hin as [->|Hin].
    - assert (Hl : workload.listedBy (apiI := fake.api) fake.fleet fake.bothUp "default" "A"
                   = [fake.web (Some 3) 2]) by by_vm.
      rewrite Hl. repeat constructor. by eexists.
    - apply list_elem_of_singleton in Hin as ->.
      assert (Hl : workload.listedBy (apiI := fake.api) fake.fleet fake.bothUp "default" "C"
                   = []) by by_vm.
      rewrite Hl. constructor. }
  split; [exact handles_live_example|]. split; [exact Hsched|]. split; [exact Hset|].
  destruct (ListDeployments_reports_every_target (hostI := fake.host) (apiI := fake.api)
              fake.fleet fake.bothUp id (rev (A := string)) ["A"; "C"] "default"
              handles_live_example Hsched Hset)
    as (all & Hrun & _ & _ & Hcount & _).
  exists all. split; [exact Hrun|]. rewrite Hcount. by_vm.
Defined.

(** * Further properties *)

(** ** Loading a configuration *)

Section loading.
Context {hostI : Host} {configYamlI : config.ConfigYaml}.

Lemma validateClusters_None (i : nat) (seen : gset string)
    (cs : list config.ClusterConfig) :
  config.validateClusters i seen cs = None
  ↔ Forall entry_ok cs
    ∧ NoDup (map config.Name cs)
    ∧ (∀ c, c ∈ cs → config.Name c ∉ seen).
Proof.
  revert i seen. induction cs as [|c cs IH]; intros i seen; simpl.
  - split; [|done]. intros _. split; [constructor|]. split; [constructor|].
    intros c Hc. by apply elem_of_nil in Hc.
  - case_bool_decide as Hn.
    { split; [done|]. intros (Hall & _ & _).
      apply Forall_cons in Hall as [(Hn' & _ & _) _]. done. }
    case_bool_decide as Hc.
    { split; [done|]. intros (Hall & _ & _).
      apply Forall_cons in Hall as [(_ & Hc' & _) _]. done. }
    case_bool_decide as Hseen.
    { split; [done|]. intros (_ & _ & Hfresh). destruct (Hfresh c); [left | done]. }
    destruct (bool_decide (config.KubeConfig c ≠ "")
              && bool_decide (os_Stat (config.KubeConfig c) ≠ None)) eqn:Hk.
    { split; [done|]. intros (Hall & _ & _).
      apply Forall_cons in Hall as [(_ & _ & Hs) _].
      apply andb_true_iff in Hk as [Hk Hstat].
      apply bool_decide_eq_true in Hk, Hstat. by destruct Hstat; apply Hs. }
    assert (Hs : config.KubeConfig c ≠ "" → os_Stat (config.KubeConfig c) = None).
    { intros Hk'. apply andb_false_iff in Hk as [Hk|Hk];
        apply bool_decide_eq_false in Hk; [done|].
      by destruct (os_Stat (config.KubeConfig c)); [destruct Hk|]. }
    rewrite IH, Forall_cons, NoDup_cons. split.
    + intros (Hall & Hnd & Hfresh). split; [done|]. split.
      * split; [|done]. intros (c' & Heq & Hin)%list_elem_of_fmap.
        apply (Hfresh c' Hin). rewrite <- Heq. set_solver.
      * intros c' [->|Hin]%elem_of_cons; [done|].
        intros Hseen'. apply (Hfresh c' Hin). set_solver.
    + intros ([_ Hall] & [Hnotin Hnd] & Hfresh). split; [done|]. split; [done|].
      intros c' Hin [Heq%elem_of_singleton|Hseen']%elem_of_union.
      * apply Hnotin. apply list_elem_of_fmap. by exists c'.
      * apply (Hfresh c'); [by right | done].
Qed.

(** X1.  [validateConfig] accepts a configuration exactly when it lists at
    least one cluster, no two clusters share a name, and every cluster has
    a name, a context and, when it names a kubeconfig file, one that
    [os.Stat] finds.  The [default] marks play no part. *)
Theorem validateConfig_accepts_iff (c : config.MultiClusterConfig) :
  config.validateConfig c = None
  ↔ config.Clusters c ≠ []
    ∧ NoDup (map config.Name (config.Clusters c))
    ∧ Forall entry_ok (config.Clusters c).
Proof.
  unfold config.validateConfig. case_bool_decide as Hlen.
  - split; [done|]. intros [Hne _]. destruct (config.Clusters c); done.
  - rewrite validateClusters_None. split.
    + intros (Hall & Hnd & _). split; [|done]. intros Hnil. by rewrite Hnil in Hlen.
    + intros (_ & Hnd & Hall). split; [done|]. split; [done|]. set_solver.
Qed.

Lemma setDefaults_Clusters (c : config.MultiClusterConfig) :
  config.Clusters (config.setDefaults c)
  = match config.Clusters c with
    | first :: rest =>
        if existsb config.IsDefault (config.Clusters c) then config.Clusters c
        else config.set_IsDefault true first :: rest
    | [] => []
    end.
Proof.
  unfold config.setDefaults. cbn [config.Clusters].
  destruct (config.Clusters c) as [|first rest] eqn:Hcs; [by rewrite andb_comm|].
  destruct (existsb config.IsDefault (first :: rest)); [done|].
  simpl. first [done | case_bool_decide; [done | simpl in *; lia]].
Qed.

Lemma setDefaults_has_default (c : config.MultiClusterConfig) :
  config.Clusters c ≠ [] →
  existsb config.IsDefault (config.Clusters (config.setDefaults c)) = true.
Proof.
  intros Hne. rewrite setDefaults_Clusters.
  destruct (config.Clusters c) as [|first rest] eqn:Hcs; [done|].
  destruct (existsb config.IsDefault (first :: rest)) eqn:Hd; [done|]. done.
Qed.

(** X2.  [setDefaults] is idempotent: applied to its own result it changes
    nothing. *)
Theorem setDefaults_idempotent (c : config.MultiClusterConfig) :
  config.setDefaults (config.setDefaults c) = config.setDefaults c.
Proof.
  assert (Hcs : config.Clusters (config.setDefaults (config.setDefaults c))
                = config.Clusters (config.setDefaults c)).
  { rewrite (setDefaults_Clusters (config.setDefaults c)).
    destruct (config.Clusters (config.setDefaults c)) as [|first rest] eqn:Hcs; [done|].
    rewrite <- Hcs, setDefaults_has_default; [done|].
    intros Hnil. rewrite setDefaults_Clusters, Hnil in Hcs. done. }
  destruct (config.setDefaults (config.setDefaults c)) as [cs2 ns2 t2] eqn:H2.
  destruct (config.setDefaults c) as [cs1 ns1 t1] eqn:H1.
  simpl in Hcs. subst cs2.
  unfold config.setDefaults in H2, H1. cbn [config.DefaultNamespace config.Timeout] in *.
  injection H1 as _ Hns1 Ht1. injection H2 as _ Hns2 Ht2.
  subst ns2 t2 ns1 t1. f_equal; repeat case_bool_decide; first [done | lia].
Qed.

(** X3.  [setDefaults] fills in only what is missing: a namespace, a
    timeout and a list with a marked default are kept as they are; no
    cluster is added, dropped or renamed, and only the [default] mark of
    the first cluster can change. *)
Theorem setDefaults_keeps_what_is_set (c : config.MultiClusterConfig) :
  (config.DefaultNamespace c ≠ "" →
   config.DefaultNamespace (config.setDefaults c) = config.DefaultNamespace c)
  ∧ (config.Timeout c ≠ 0 →
     config.Timeout (config.setDefaults c) = config.Timeout c)
  ∧ (existsb config.IsDefault (config.Clusters c) = true →
     config.Clusters (config.setDefaults c) = config.Clusters c)
  ∧ map (config.set_IsDefault false) (config.Clusters (config.setDefaults c))
    = map (config.set_IsDefault false) (config.Clusters c)
  ∧ tail (config.Clusters (config.setDefaults c)) = tail (config.Clusters c)
  ∧ config.DefaultNamespace (config.setDefaults c) ≠ ""
  ∧ config.Timeout (config.setDefaults c) ≠ 0.
Proof.
  split_and!.
  - intros Hns. unfold config.setDefaults. simpl. by case_bool_decide.
  - intros Ht. unfold config.setDefaults. simpl. by case_bool_decide.
  - intros Hd. rewrite setDefaults_Clusters, Hd. by destruct (config.Clusters c).
  - rewrite setDefaults_Clusters. destruct (config.Clusters c) as [|first rest]; [done|].
    by destruct (existsb _ _).
  - rewrite setDefaults_Clusters. destruct (config.Clusters c) as [|first rest]; [done|].
    by destruct (existsb _ _).
  - unfold config.setDefaults. simpl. by case_bool_decide.
  - unfold config.setDefaults. simpl. case_bool_decide; lia.
Qed.

Lemma setDefaults_names (c : config.MultiClusterConfig) :
  map config.Name (config.Clusters (config.setDefaults c))
  = map config.Name (config.Clusters c).
Proof.
  rewrite setDefaults_Clusters. destruct (config.Clusters c) as [|first rest]; [done|].
  by destruct (existsb _ _).
Qed.

(** What went before a successful [LoadConfig]: the decoded document
    passed [validateConfig], and the result is its completion. *)
Lemma LoadConfig_inv (configPath : string) (cfg : config.MultiClusterConfig) :
  config.LoadConfig configPath = inl cfg →
  ∃ raw,
    config.Clusters raw ≠ []
    ∧ config.validateClusters 0 ∅ (config.Clusters raw) = None
    ∧ cfg = config.setDefaults raw.
Proof.
  unfold config.LoadConfig. intros Hload.
  destruct (os_ReadFile _) as [data|]; [|done].
  destruct (config.yaml_Unmarshal_config data) as [raw|]; [|done].
  destruct (config.validateConfig raw) eqn:Hvalid; [done|].
  injection Hload as <-. exists raw. unfold config.validateConfig in Hvalid.
  case_bool_decide as Hlen; [done|]. split; [|done].
  intros Hnil. by rewrite Hnil in Hlen.
Qed.

(** X4.  A configuration [LoadConfig] returns is usable as it stands: it
    lists at least one cluster, cluster names are unique, every cluster has
    a name and a context, some cluster is marked as the default, and the
    namespace and the timeout are set. *)
Theorem LoadConfig_returns_valid (configPath : string)
    (cfg : config.MultiClusterConfig) :
  config.LoadConfig configPath = inl cfg →
  config.Clusters cfg ≠ []
  ∧ NoDup (map config.Name (config.Clusters cfg))
  ∧ Forall (λ c, config.Name c ≠ "" ∧ config.Context c ≠ "") (config.Clusters cfg)
  ∧ existsb config.IsDefault (config.Clusters cfg) = true
  ∧ config.DefaultNamespace cfg ≠ ""
  ∧ config.Timeout cfg ≠ 0.
Proof.
  intros (raw & Hne & Hvalid & ->)%LoadConfig_inv.
  apply validateClusters_None in Hvalid as (Hall & Hnd & _).
  split_and!.
  - intros Hnil. pose proof (setDefaults_names raw) as Hnames.
    rewrite Hnil in Hnames. by destruct (config.Clusters raw).
  - by rewrite setDefaults_names.
  - rewrite setDefaults_Clusters. destruct (config.Clusters raw) as [|first rest]; [done|].
    destruct (existsb _ _).
    + eapply Forall_impl; [exact Hall|]. by intros x (? & ? & _).
    + apply Forall_cons in Hall as [(? & ? & _) Hall]. constructor; [done|].
      eapply Forall_impl; [exact Hall|]. by intros x (? & ? & _).
  - by apply setDefaults_has_default.
  - unfold config.setDefaults. simpl. by case_bool_decide.
  - unfold config.setDefaults. simpl. case_bool_decide; lia.
Qed.

End loading.

(** X4 on the sample host: the file under the home directory is found,
    read and accepted, and its first cluster becomes the default. *)
Lemma LoadConfig_returns_valid_example :
  config.LoadConfig (hostI := sample.host) (configYamlI := sample.configYaml) ""
  = inl (config.setDefaults sample.decoded)
  ∧ existsb config.IsDefault (config.Clusters (config.setDefaults sample.decoded))
    = true
  ∧ config.DefaultNamespace (config.setDefaults sample.decoded) ≠ "".
Proof.
  assert (Hload : config.LoadConfig (hostI := sample.host)
                    (configYamlI := sample.configYaml) ""
                  = inl (config.setDefaults sample.decoded)) by by_vm.
  split; [exact Hload|].
  destruct (LoadConfig_returns_valid (hostI := sample.host)
              (configYamlI := sample.configYaml) "" _ Hload)
    as (_ & _ & _ & Hdefault & Hns & _).
  split; [exact Hdefault | exact Hns].
Defined.

Section locating.
Context {hostI : Host}.

(** X5.  [findDefaultConfigPath] prefers a file that exists: the one in
    the working directory first, then the one under the home directory;
    and when the path it returns does not exist, none of the candidates
    it checks does. *)
Theorem findDefaultConfigPath_prefers_existing :
  (os_Stat "./mcm-config.yaml" = None →
   config.findDefaultConfigPath = "./mcm-config.yaml")
  ∧ (∀ home,
       os_Stat "./mcm-config.yaml" ≠ None →
       os_UserHomeDir = inl home →
       os_Stat (filepath_Join [home; ".mcm"; "config.yaml"]) = None →
       config.findDefaultConfigPath = filepath_Join [home; ".mcm"; "config.yaml"])
  ∧ (os_Stat config.findDefaultConfigPath ≠ None →
     os_Stat "./mcm-config.yaml" ≠ None
     ∧ (∀ home, os_UserHomeDir = inl home →
          os_Stat (filepath_Join [home; ".mcm"; "config.yaml"]) ≠ None)
     ∧ (os_Getenv "XDG_CONFIG_HOME" ≠ "" →
        os_Stat (filepath_Join [os_Getenv "XDG_CONFIG_HOME"; "mcm"; "config.yaml"])
        ≠ None)
     ∧ (∀ home, os_UserHomeDir = inl home → home ≠ "" →
          os_Getenv "XDG_CONFIG_HOME" = "" →
          filepath_Join [home; ".config"] ≠ "" →
          os_Stat (filepath_Join [filepath_Join [home; ".config"]; "mcm"; "config.yaml"])
          ≠ None)).
Proof.
  unfold config.findDefaultConfigPath.
  generalize "./mcm-config.yaml". intros cwd.
  destruct os_UserHomeDir as [home|err] eqn:Hhome; cbv zeta; cbn [default].
  - split_and!.
    + intros Hcwd. by rewrite bool_decide_eq_true_2.
    + intros ? Hcwd [= <-] Hin. rewrite bool_decide_eq_false_2 by done.
      rewrite (bool_decide_eq_true_2 (is_Some _)) by eauto.
      by rewrite bool_decide_eq_true_2.
    + rewrite (bool_decide_eq_true_2 (is_Some (Some home))) by eauto. cbn [andb].
      destruct (decide (os_Stat cwd = None)) as [Hcwd|Hcwd];
        [by rewrite (bool_decide_eq_true_2 _ Hcwd)
        |rewrite (bool_decide_eq_false_2 _ Hcwd)].
      destruct (decide (os_Stat (filepath_Join [home; ".mcm"; "config.yaml"]) = None))
        as [Hin|Hin];
        [by rewrite (bool_decide_eq_true_2 _ Hin)
        |rewrite (bool_decide_eq_false_2 _ Hin)].
      intros Hp. split; [done|]. split; [by intros ? [= <-]|].
      destruct (decide (os_Getenv "XDG_CONFIG_HOME" = "")) as [Hxdg|Hxdg].
      * split; [done|]. intros ? [= <-] Hne _ Hcfg. revert Hp.
        rewrite (bool_decide_eq_true_2 _ Hxdg).
        rewrite !(bool_decide_eq_true_2 _ Hne). cbn [andb]. cbv iota.
        rewrite (bool_decide_eq_true_2 _ Hcfg). cbn [andb].
        by case_bool_decide.
      * split; [|by intros ? [= <-] _ ?]. intros _. revert Hp.
        rewrite (bool_decide_eq_false_2 _ Hxdg). cbn [andb]. cbv iota.
        rewrite (bool_decide_eq_true_2 _ Hxdg). cbn [andb].
        by case_bool_decide.
  - split_and!.
    + intros Hcwd. by rewrite bool_decide_eq_true_2.
    + done.
    + rewrite (bool_decide_eq_false_2 (is_Some None)) by (by intros [? ?]).
      rewrite !(bool_decide_eq_false_2 ("" ≠ "")) by (by intros Hne; apply Hne).
      cbn [andb]. rewrite andb_false_r. cbv iota.
      destruct (decide (os_Stat cwd = None)) as [Hcwd|Hcwd];
        [by rewrite (bool_decide_eq_true_2 _ Hcwd)
        |rewrite (bool_decide_eq_false_2 _ Hcwd)].
      intros Hp. split; [done|]. split; [done|]. split; [|done].
      intros Hxdg. revert Hp.
      rewrite (bool_decide_eq_true_2 _ Hxdg). cbn [andb].
      by case_bool_decide.
Qed.

(** X6.  On a host with a home directory, [findConfigPath] (what
    [mcm config path] shows) names the file [LoadConfig] reads by default
    when that file exists, and is empty when it does not. *)
Theorem findConfigPath_agrees_with_LoadConfig (home : string) :
  os_UserHomeDir = inl home →
  home ≠ "" →
  filepath_Join [home; ".config"] ≠ "" →
  mcm.findConfigPath
  = if bool_decide (os_Stat config.findDefaultConfigPath = None)
    then config.findDefaultConfigPath else "".
Proof.
  intros Hhome Hne Hcfg. unfold mcm.findConfigPath, config.findDefaultConfigPath.
  rewrite Hhome. cbv zeta. cbn [default]. unfold id.
  rewrite (bool_decide_eq_true_2 (is_Some (Some home))) by eauto.
  rewrite !(bool_decide_eq_true_2 _ Hne). cbn [andb].
  assert (Hdir : (if bool_decide (os_Getenv "XDG_CONFIG_HOME" = "")
                  then filepath_Join [home; ".config"]
                  else os_Getenv "XDG_CONFIG_HOME") ≠ "").
  { by case_bool_decide. }
  assert (Hsame : (if bool_decide (os_Getenv "XDG_CONFIG_HOME" = "") && true
                   then filepath_Join [home; ".config"]
                   else os_Getenv "XDG_CONFIG_HOME")
                  = (if bool_decide (os_Getenv "XDG_CONFIG_HOME" = "")
                     then filepath_Join [home; ".config"]
                     else os_Getenv "XDG_CONFIG_HOME")).
  { by rewrite andb_true_r. }
  rewrite !Hsame. clear Hsame. revert Hdir.
  generalize (if bool_decide (os_Getenv "XDG_CONFIG_HOME" = "")
              then filepath_Join [home; ".config"]
              else os_Getenv "XDG_CONFIG_HOME").
  intros configDir Hdir.
  rewrite (bool_decide_eq_true_2 _ Hdir). cbn [andb].
  generalize "./mcm-config.yaml" (filepath_Join [home; ".mcm"; "config.yaml"])
    (filepath_Join [configDir; "mcm"; "config.yaml"]).
  intros cwd inHome inXdg.
  destruct (decide (os_Stat cwd = None)) as [Hcwd|Hcwd];
    [by rewrite !(bool_decide_eq_true_2 _ Hcwd)
    |rewrite !(bool_decide_eq_false_2 _ Hcwd)].
  destruct (decide (os_Stat inHome = None)) as [Hin|Hin];
    [by rewrite !(bool_decide_eq_true_2 _ Hin)
    |rewrite !(bool_decide_eq_false_2 _ Hin)].
  destruct (decide (os_Stat inXdg = None)) as [Hxdg|Hxdg];
    [by rewrite !(bool_decide_eq_true_2 _ Hxdg)
    |rewrite !(bool_decide_eq_false_2 _ Hxdg)].
  by rewrite (bool_decide_eq_false_2 _ Hin).
Qed.
(** X7.  The file [mcm config init] creates is one [LoadConfig] finds: on
    a host with a home directory, once the path [getConfigInitPath]
    returns exists, the default path exists too, and it is that very path
    unless a file in the working directory or under [.mcm] in the home
    directory takes precedence. *)
Theorem getConfigInitPath_is_searched (home path : string) :
  os_UserHomeDir = inl home →
  home ≠ "" →
  filepath_Join [home; ".config"] ≠ "" →
  mcm.getConfigInitPath = inl path →
  os_Stat path = None →
  os_Stat config.findDefaultConfigPath = None
  ∧ (os_Stat "./mcm-config.yaml" ≠ None →
     os_Stat (filepath_Join [home; ".mcm"; "config.yaml"]) ≠ None →
     config.findDefaultConfigPath = path ∧ mcm.findConfigPath = path).
Proof.
  intros Hhome Hne Hcfg. unfold mcm.getConfigInitPath, mcm.findConfigPath,
    config.findDefaultConfigPath.
  rewrite Hhome. cbv zeta. cbn [default]. unfold id.
  rewrite (bool_decide_eq_true_2 (is_Some (Some home))) by eauto.
  rewrite !(bool_decide_eq_true_2 _ Hne). cbn [andb].
  assert (Hdir : (if bool_decide (os_Getenv "XDG_CONFIG_HOME" = "")
                  then filepath_Join [home; ".config"]
                  else os_Getenv "XDG_CONFIG_HOME") ≠ "").
  { by case_bool_decide. }
  assert (Hsame : (if bool_decide (os_Getenv "XDG_CONFIG_HOME" = "") && true
                   then filepath_Join [home; ".config"]
                   else os_Getenv "XDG_CONFIG_HOME")
                  = (if bool_decide (os_Getenv "XDG_CONFIG_HOME" = "")
                     then filepath_Join [home; ".config"]
                     else os_Getenv "XDG_CONFIG_HOME")).
  { by rewrite andb_true_r. }
  rewrite !Hsame. clear Hsame. revert Hdir.
  generalize (if bool_decide (os_Getenv "XDG_CONFIG_HOME" = "")
              then filepath_Join [home; ".config"]
              else os_Getenv "XDG_CONFIG_HOME").
  intros configDir Hdir [= <-] Hinit.
  rewrite (bool_decide_eq_true_2 _ Hdir). cbn [andb].
  rewrite !(bool_decide_eq_true_2 _ Hinit).
  generalize "./mcm-config.yaml" (filepath_Join [home; ".mcm"; "config.yaml"]).
  intros cwd inHome. split.
  - repeat case_bool_decide; done.
  - intros Hcwd Hin. by rewrite !(bool_decide_eq_false_2 _ Hcwd),
      !(bool_decide_eq_false_2 _ Hin).
Qed.
End locating.

(** X6 on the sample host. *)
Lemma findConfigPath_agrees_with_LoadConfig_example :
  os_UserHomeDir (Host := sample.host) = inl "/home/op"
  ∧ mcm.findConfigPath (hostI := sample.host)
    = if bool_decide (os_Stat (Host := sample.host)
                        (config.findDefaultConfigPath (hostI := sample.host)) = None)
      then config.findDefaultConfigPath (hostI := sample.host) else "".
Proof.
  split; [reflexivity|].
  apply (findConfigPath_agrees_with_LoadConfig (hostI := sample.host) "/home/op").
  - reflexivity.
  - discriminate.
  - vm_compute. discriminate.
Defined.

(** X7 on the sample host after the file was created. *)
Lemma getConfigInitPath_is_searched_example :
  mcm.getConfigInitPath (hostI := sample.hostAfterInit)
  = inl "/home/op/.config/mcm/config.yaml"
  ∧ os_Stat (Host := sample.hostAfterInit) "/home/op/.config/mcm/config.yaml" = None
  ∧ config.findDefaultConfigPath (hostI := sample.hostAfterInit)
    = "/home/op/.config/mcm/config.yaml".
Proof.
  assert (Hinit : mcm.getConfigInitPath (hostI := sample.hostAfterInit)
                  = inl "/home/op/.config/mcm/config.yaml") by reflexivity.
  assert (Hstat : os_Stat (Host := sample.hostAfterInit)
                    "/home/op/.config/mcm/config.yaml" = None) by reflexivity.
  split; [exact Hinit|]. split; [exact Hstat|].
  assert (Hdir : filepath_Join (Host := sample.hostAfterInit) ["/home/op"; ".config"]
                 ≠ "") by (vm_compute; discriminate).
  destruct (getConfigInitPath_is_searched (hostI := sample.hostAfterInit)
              "/home/op" "/home/op/.config/mcm/config.yaml"
              eq_refl ltac:(discriminate) Hdir Hinit Hstat)
    as [_ Hfound].
  apply Hfound; vm_compute; discriminate.
Defined.

(** ** Substrings *)

Lemma prefix_app (p s t : string) :
  String.prefix p s = true → String.prefix p (s +:+ t) = true.
Proof.
  revert s. induction p as [|a p IH]; intros s; [by destruct (s +:+ t)|].
  destruct s as [|b s]; simpl; [done|].
  destruct (Ascii.ascii_dec a b); [apply IH | done].
Qed.

Lemma prefix_refl (s : string) : String.prefix s s = true.
Proof.
  induction s as [|a s IH]; simpl; [done|].
  by destruct (Ascii.ascii_dec a a).
Qed.

Lemma strings_Contains_refl (s : string) : strings_Contains s s = true.
Proof. destruct s; cbn [strings_Contains]; by rewrite prefix_refl. Qed.

Lemma strings_Contains_app_l (s t sub : string) :
  strings_Contains s sub = true → strings_Contains (s +:+ t) sub = true.
Proof.
  induction s as [|a s IH]; simpl.
  - rewrite orb_false_r. destruct sub; [|done]. intros _. by destruct t.
  - intros [Hp|Hc]%orb_true_iff; apply orb_true_iff.
    + left. by apply (prefix_app sub (String a s) t).
    + right. by apply IH.
Qed.

Lemma strings_Contains_app_r (s t sub : string) :
  strings_Contains t sub = true → strings_Contains (s +:+ t) sub = true.
Proof.
  intros Ht. induction s as [|a s IH]; simpl; [done|].
  apply orb_true_iff. by right.
Qed.

Lemma strings_Contains_Join (lines : list string) (sep line : string) :
  line ∈ lines → strings_Contains (strings_Join lines sep) line = true.
Proof.
  induction lines as [|l rest IH]; intros Hin; [by apply elem_of_nil in Hin|].
  apply elem_of_cons in Hin as [->|Hin].
  - destruct rest; simpl; [apply strings_Contains_refl|].
    apply strings_Contains_app_l, strings_Contains_refl.
  - destruct rest as [|l' rest']; [by apply elem_of_nil in Hin|].
    change (strings_Join (l :: l' :: rest') sep)
      with (l +:+ sep +:+ strings_Join (l' :: rest') sep).
    by apply strings_Contains_app_r, strings_Contains_app_r, IH.
Qed.

(** ** Connecting and probing *)

Section probing.
Context {hostI : Host} {World : Type} {apiI : KubeAPI World}.

Lemma connectToCluster_probe_ok (m : cluster.Manager) (w : World)
    (cc : config.ClusterConfig) :
  cluster.Connected (cluster.connectToCluster m w cc) = true →
  ∃ clientset,
    cluster.Clientset (cluster.connectToCluster m w cc) = Some clientset
    ∧ Discovery_ServerVersion w clientset = None.
Proof.
  unfold cluster.connectToCluster.
  repeat case_match; simplify_eq; simpl; try done; intros _; eauto.
Qed.

(** X8.  [connectToCluster] marks a handle connected only after the probe
    of the server went through: the handle then holds the clientset that
    was probed, built from the kubeconfig loaded for the cluster's context
    with the configured timeout in seconds, and no error.  An explicit
    kubeconfig path that does not start with a tilde is used as it is. *)
Theorem connectToCluster_connected_only_after_probe (m : cluster.Manager) (w : World)
    (cc : config.ClusterConfig) :
  cluster.Connected (cluster.connectToCluster m w cc) = true →
  ∃ path loaded clientset,
    clientcmd_ClientConfig path (config.Context cc) = inl loaded
    ∧ (config.KubeConfig cc ≠ "" →
       strings_HasPrefix (config.KubeConfig cc) "~/" = false →
       path = config.KubeConfig cc)
    ∧ let restConfig :=
        rest.mkConfig (rest.Host loaded)
          (wrap64 (config.Timeout (cluster.config m) * time_Second)) in
      kubernetes_NewForConfig restConfig = inl clientset
      ∧ Discovery_ServerVersion w clientset = None
      ∧ cluster.connectToCluster m w cc
        = cluster.mkClusterClient cc (Some restConfig) (Some clientset) true None.
Proof.
  unfold cluster.connectToCluster.
  case_bool_decide as Hk.
  - destruct os_UserHomeDir as [homeDir|]; [|done].
    destruct (strings_HasPrefix _ _).
    + destruct (clientcmd_ClientConfig _ _) as [loaded|] eqn:Hload; [|done].
      destruct (kubernetes_NewForConfig _) as [clientset|] eqn:Hnew; [|done].
      destruct (Discovery_ServerVersion w clientset) eqn:Hprobe; [done|].
      intros _. eexists _, loaded, clientset. by split_and!.
    + destruct (clientcmd_ClientConfig _ _) as [loaded|] eqn:Hload; [|done].
      destruct (kubernetes_NewForConfig _) as [clientset|] eqn:Hnew; [|done].
      destruct (Discovery_ServerVersion w clientset) eqn:Hprobe; [done|].
      intros _. eexists _, loaded, clientset. by split_and!.
  - destruct (strings_HasPrefix _ _) eqn:Htilde.
    + destruct os_UserHomeDir as [homeDir|]; [|done].
      destruct (clientcmd_ClientConfig _ _) as [loaded|] eqn:Hload; [|done].
      destruct (kubernetes_NewForConfig _) as [clientset|] eqn:Hnew; [|done].
      destruct (Discovery_ServerVersion w clientset) eqn:Hprobe; [done|].
      intros _. eexists _, loaded, clientset. by split_and!.
    + destruct (clientcmd_ClientConfig _ _) as [loaded|] eqn:Hload; [|done].
      destruct (kubernetes_NewForConfig _) as [clientset|] eqn:Hnew; [|done].
      destruct (Discovery_ServerVersion w clientset) eqn:Hprobe; [done|].
      intros _. eexists _, loaded, clientset. by split_and!.
Qed.


Lemma probe_all_spec (w : World) (entries : list (string * cluster.ClusterClient))
    (errors : list string) :
  (∀ e, e ∈ entries → cluster.Connected e.2 = true → is_Some (cluster.Clientset e.2)) →
  cluster.probe_all w entries errors = Ok (errors ++ omap (probeLine w) entries)%list.
Proof.
  revert errors. induction entries as [|[name client] rest IH]; intros errors Hlive.
  - simpl. by rewrite app_nil_r.
  - simpl. unfold probeLine at 1. simpl.
    assert (Hrest : ∀ e, e ∈ rest → cluster.Connected e.2 = true →
                         is_Some (cluster.Clientset e.2)).
    { intros e He. apply Hlive. by right. }
    destruct (cluster.Connected client) eqn:Hc; simpl; [|by apply IH].
    destruct (Hlive (name, client)) as [clientset Hcs]; [left | done |].
    simpl in Hcs. rewrite Hcs. simpl.
    destruct (Discovery_ServerVersion w clientset); [|by apply IH].
    rewrite IH by done. by rewrite <- app_assoc.
Qed.

Lemma range_entries (order : cluster.RangeOrder) (m : cluster.Manager)
    (e : string * cluster.ClusterClient) :
  cluster.range_order_ok order m →
  e ∈ cluster.range order (cluster.clients m) ↔ cluster.clients m !! e.1 = Some e.2.
Proof.
  intros Hok. rewrite Hok. destruct e as [name client]. apply elem_of_map_to_list.
Qed.

Lemma TestConnections_value (w : World) (order : cluster.RangeOrder)
    (m : cluster.Manager) :
  cluster.handles_live m →
  cluster.range_order_ok order m →
  (cluster.TestConnections w order m).1
  = Ok (match omap (probeLine w) (cluster.range order (cluster.clients m)) with
        | [] => None
        | lines => Some ("connection test failed:" +:+ nl +:+ strings_Join lines nl)
        end).
Proof.
  intros Hlive Hok. unfold cluster.TestConnections. simpl.
  rewrite probe_all_spec.
  - simpl. by destruct (omap _ _).
  - intros [name client] Hin. apply (range_entries order m) in Hin; [|done].
    apply Hlive in Hin. exact Hin.
Qed.

(** X9.  On a registry whose connected handles hold a clientset,
    [TestConnections] probes the connected clusters, whatever the order in
    which the map is visited: it returns nil exactly when every probe
    succeeds, and otherwise an error whose text has a line for each
    failing cluster.  Handles that never connected are not probed. *)
Theorem TestConnections_reports_failing_probes (w : World)
    (order : cluster.RangeOrder) (m : cluster.Manager) :
  cluster.handles_live m →
  cluster.range_order_ok order m →
  ∃ err,
    (cluster.TestConnections w order m).1 = Ok err
    ∧ (err = None
       ↔ ∀ name client clientset,
           cluster.clients m !! name = Some client →
           cluster.Connected client = true →
           cluster.Clientset client = Some clientset →
           Discovery_ServerVersion w clientset = None)
    ∧ (∀ name client clientset e,
         cluster.clients m !! name = Some client →
         cluster.Connected client = true →
         cluster.Clientset client = Some clientset →
         Discovery_ServerVersion w clientset = Some e →
         ∃ msg,
           err = Some msg
           ∧ strings_Contains msg ("Cluster " +:+ name +:+ ": " +:+ e) = true).
Proof.
  intros Hlive Hok. eexists. split; [by apply TestConnections_value|].
  set (lines := omap (probeLine w) (cluster.range order (cluster.clients m))).
  assert (Hline : ∀ name client clientset e,
             cluster.clients m !! name = Some client →
             cluster.Connected client = true →
             cluster.Clientset client = Some clientset →
             Discovery_ServerVersion w clientset = Some e →
             ("Cluster " +:+ name +:+ ": " +:+ e) ∈ lines).
  { intros name client clientset e Hin Hc Hcs He.
    apply list_elem_of_omap. exists (name, client). split.
    - by apply (range_entries order m).
    - unfold probeLine. simpl. by rewrite Hc, Hcs, He. }
  split.
  - split.
    + intros Hnone name client clientset Hin Hc Hcs.
      destruct (Discovery_ServerVersion w clientset) as [e|] eqn:He; [|done].
      pose proof (Hline _ _ _ _ Hin Hc Hcs He) as Hmem.
      destruct lines; [by apply elem_of_nil in Hmem | done].
    + intros Hall. destruct lines as [|line rest] eqn:Hlines; [done|]. exfalso.
      assert (Hmem : line ∈ lines) by (rewrite Hlines; left).
      apply list_elem_of_omap in Hmem as ([name client] & Hin & Hpl).
      apply (range_entries order m) in Hin; [|done]. simpl in Hin.
      unfold probeLine in Hpl. simpl in Hpl.
      destruct (cluster.Connected client) eqn:Hc; [|done].
      destruct (cluster.Clientset client) as [clientset|] eqn:Hcs; [|done].
      by rewrite (Hall _ _ _ Hin Hc Hcs) in Hpl.
  - intros name client clientset e Hin Hc Hcs He.
    pose proof (Hline _ _ _ _ Hin Hc Hcs He) as Hmem.
    destruct lines as [|line rest] eqn:Hlines; [by apply elem_of_nil in Hmem|].
    eexists. split; [done|].
    apply strings_Contains_app_r, strings_Contains_app_r.
    by apply strings_Contains_Join.
Qed.

Lemma NewManager_clients (cfg : config.MultiClusterConfig) (w : World)
    (sched : cluster.Schedule config.ClusterConfig) (m : cluster.Manager) :
  cluster.NewManager cfg w sched = inl m →
  m = cluster.mkManager
        (cluster.stored ∅
           (map (cluster.connectToCluster (cluster.mkManager ∅ cfg) w)
              (sched (config.Clusters cfg))))
        cfg.
Proof.
  unfold cluster.NewManager. rewrite connectToAllClusters_spec. cbv zeta. simpl.
  case_bool_decide; [done|]. by intros [= <-].
Qed.

Lemma NewManager_entry (cfg : config.MultiClusterConfig) (w : World)
    (sched : cluster.Schedule config.ClusterConfig) (m : cluster.Manager)
    (name : string) (client : cluster.ClusterClient) :
  cluster.NewManager cfg w sched = inl m →
  cluster.clients m !! name = Some client →
  ∃ cc, cc ∈ sched (config.Clusters cfg)
        ∧ client = cluster.connectToCluster (cluster.mkManager ∅ cfg) w cc
        ∧ config.Name cc = name.
Proof.
  intros -> %NewManager_clients. simpl.
  intros [Hempty|[Hin Hname]]%stored_entry; [by rewrite lookup_empty in Hempty|].
  apply list_elem_of_fmap in Hin as (cc & -> & Hin).
  exists cc. split; [done|]. split; [done|].
  by rewrite connectToCluster_Config in Hname.
Qed.

(** X10.  Against the servers as they were when the registry was built,
    [TestConnections] finds nothing to report: every handle [NewManager]
    marked connected answers the probe again. *)
Theorem TestConnections_after_NewManager (cfg : config.MultiClusterConfig) (w : World)
    (sched : cluster.Schedule config.ClusterConfig) (order : cluster.RangeOrder)
    (m : cluster.Manager) :
  cluster.NewManager cfg w sched = inl m →
  cluster.range_order_ok order m →
  cluster.TestConnections w order m = (Ok None, m).
Proof.
  intros Hnew Hok.
  assert (Hval := TestConnections_value w order m
                    (NewManager_handles_live _ _ _ _ Hnew) Hok).
  destruct (cluster.TestConnections w order m) as [r m'] eqn:Hrun.
  assert (m' = m) as ->.
  { change m' with (r, m').2. rewrite <- Hrun.
    apply (steady_state_reads_only m "" order w). }
  simpl in Hval. rewrite Hval. f_equal. f_equal.
  destruct (omap _ _) as [|line rest] eqn:Hlines; [done|]. exfalso.
  assert (Hmem : line ∈ omap (probeLine w) (cluster.range order (cluster.clients m)))
    by (rewrite Hlines; left).
  apply list_elem_of_omap in Hmem as ([name client] & Hin & Hpl).
  apply (range_entries order m) in Hin; [|done]. simpl in Hin.
  destruct (NewManager_entry _ _ _ _ _ _ Hnew Hin) as (cc & _ & -> & _).
  unfold probeLine in Hpl. simpl in Hpl.
  destruct (cluster.Connected _) eqn:Hc; [|done].
  apply connectToCluster_probe_ok in Hc as (clientset & Hcs & Hprobe).
  by rewrite Hcs, Hprobe in Hpl.
Qed.
End probing.

(** The concrete fleet is the registry [NewManager] builds when both
    servers answer. *)
Lemma fleet_built :
  cluster.NewManager (hostI := fake.host) (apiI := fake.api)
    (fake.cfg [fake.clusterA; fake.clusterB]) fake.bothUp id
  = inl (workload.clusterManager fake.fleet).
Proof. by_vm. Qed.

(** X8 at cluster A with its server up. *)
Lemma connectToCluster_connected_only_after_probe_example :
  cluster.Connected
    (cluster.connectToCluster (hostI := fake.host) (apiI := fake.api)
       (cluster.mkManager ∅ (fake.cfg [fake.clusterA])) fake.onlyA fake.clusterA)
  = true
  ∧ ∃ path loaded clientset,
      clientcmd_ClientConfig (Host := fake.host) path "ctx-a" = inl loaded
      ∧ Discovery_ServerVersion (KubeAPI := fake.api) fake.onlyA clientset = None
      ∧ cluster.Clientset
          (cluster.connectToCluster (hostI := fake.host) (apiI := fake.api)
             (cluster.mkManager ∅ (fake.cfg [fake.clusterA])) fake.onlyA fake.clusterA)
        = Some clientset.
Proof.
  assert (Hc : cluster.Connected
                 (cluster.connectToCluster (hostI := fake.host) (apiI := fake.api)
                    (cluster.mkManager ∅ (fake.cfg [fake.clusterA])) fake.onlyA
                    fake.clusterA) = true) by reflexivity.
  split; [exact Hc|].
  destruct (connectToCluster_connected_only_after_probe
              (hostI := fake.host) (apiI := fake.api) _ _ _ Hc)
    as (path & loaded & clientset & Hload & _ & _ & Hprobe & Heq).
  exists path, loaded, clientset. split; [exact Hload|]. split; [exact Hprobe|].
  by rewrite Heq.
Defined.

(** X9 on the fleet after the server behind B went away. *)
Lemma TestConnections_reports_failing_probes_example :
  cluster.handles_live (workload.clusterManager fake.fleet)
  ∧ cluster.range_order_ok id (workload.clusterManager fake.fleet)
  ∧ ∃ msg,
      (cluster.TestConnections (apiI := fake.api) fake.onlyA id
         (workload.clusterManager fake.fleet)).1 = Ok (Some msg)
      ∧ strings_Contains msg "Cluster B: connection refused" = true.
Proof.
  assert (Hok : cluster.range_order_ok id (workload.clusterManager fake.fleet))
    by exact (Permutation_refl _).
  split; [exact handles_live_example|]. split; [exact Hok|].
  destruct (TestConnections_reports_failing_probes (apiI := fake.api)
              fake.onlyA id (workload.clusterManager fake.fleet)
              handles_live_example Hok)
    as (err & Hrun & _ & Hline).
  assert (Hin : cluster.clients (workload.clusterManager fake.fleet) !! "B"
                = Some sample.handleB) by by_vm.
  assert (Hc : cluster.Connected sample.handleB = true) by reflexivity.
  assert (Hcs : cluster.Clientset sample.handleB = Some sample.clientsetB)
    by reflexivity.
  assert (Hprobe : Discovery_ServerVersion (KubeAPI := fake.api) fake.onlyA
                     sample.clientsetB = Some "connection refused") by reflexivity.
  destruct (Hline "B" _ _ _ Hin Hc Hcs Hprobe) as (msg & -> & Hmsg).
  exists msg. split; [exact Hrun | exact Hmsg].
Defined.

(** X10 on the fleet. *)
Lemma TestConnections_after_NewManager_example :
  cluster.NewManager (hostI := fake.host) (apiI := fake.api)
    (fake.cfg [fake.clusterA; fake.clusterB]) fake.bothUp id
  = inl (workload.clusterManager fake.fleet)
  ∧ cluster.TestConnections (apiI := fake.api) fake.bothUp id
      (workload.clusterManager fake.fleet)
    = (Ok None, workload.clusterManager fake.fleet).
Proof.
  split; [exact fleet_built|].
  exact (TestConnections_after_NewManager (hostI := fake.host) (apiI := fake.api)
           _ _ _ id _ fleet_built (Permutation_refl _)).
Defined.

(** ** The registry as the commands see it *)

Section startup.
Context {hostI : Host} {configYamlI : config.ConfigYaml}
  {World : Type} {apiI : KubeAPI World}.

Lemma fst_named (arrived : list cluster.ClusterClient) :
  (map (λ c, (config.Name (cluster.Config c), c)) arrived).*1
  = map (λ c, config.Name (cluster.Config c)) arrived.
Proof. induction arrived as [|c rest IH]; [done|]. simpl. by f_equal. Qed.

Lemma arrived_NoDup (m : cluster.Manager) (w : World)
    (sched : cluster.Schedule config.ClusterConfig) (l : list config.ClusterConfig) :
  NoDup (map config.Name l) →
  cluster.schedule_ok sched l →
  NoDup (map (λ c, config.Name (cluster.Config c))
           (map (cluster.connectToCluster m w) (sched l))).
Proof.
  intros Hnd Hsched. rewrite arrived_names.
  assert (map config.Name (sched l) ≡ₚ map config.Name l) as ->; [|done].
  apply Permutation_map, Hsched.
Qed.

Lemma stored_list_to_map (arrived : list cluster.ClusterClient) :
  NoDup (map (λ c, config.Name (cluster.Config c)) arrived) →
  cluster.stored ∅ arrived
  = list_to_map (map (λ c, (config.Name (cluster.Config c), c)) arrived).
Proof.
  intros Hnd. apply map_eq. intros name.
  pose proof (fst_named arrived) as Hfst.
  destruct (decide (name ∈ map (λ c, config.Name (cluster.Config c)) arrived))
    as [Hin|Hnot].
  - apply list_elem_of_fmap in Hin as (c & -> & Hin).
    rewrite stored_lookup by done. symmetry.
    apply elem_of_list_to_map_1; [by rewrite Hfst|].
    apply list_elem_of_fmap. by exists c.
  - rewrite stored_lookup_other, lookup_empty by done. symmetry.
    apply not_elem_of_list_to_map_1. by rewrite Hfst.
Qed.

Lemma connectToCluster_error_text (m : cluster.Manager) (w : World)
    (cc : config.ClusterConfig) :
  cluster.Connected (cluster.connectToCluster m w cc) = false →
  ∃ err, cluster.Error (cluster.connectToCluster m w cc) = Some err ∧ err ≠ "".
Proof.
  unfold cluster.connectToCluster.
  repeat case_match; simplify_eq; simpl; try done; intros _; eexists;
    (split; [reflexivity|]); done.
Qed.

Lemma statusOf_attempt (m : cluster.Manager) (w : World) (cc : config.ClusterConfig) :
  cluster.ClusterStatus.Name (cluster.statusOf (cluster.connectToCluster m w cc))
  = config.Name cc
  ∧ (cluster.ClusterStatus.Connected
       (cluster.statusOf (cluster.connectToCluster m w cc)) = true
     ↔ cluster.ClusterStatus.Error
         (cluster.statusOf (cluster.connectToCluster m w cc)) = "").
Proof.
  unfold cluster.statusOf. simpl. rewrite connectToCluster_Config. split; [done|].
  destruct (cluster.Connected _) eqn:Hc.
  - apply connectToCluster_connected in Hc as [_ ->]. done.
  - apply connectToCluster_error_text in Hc as (err & -> & Hne). done.
Qed.

(** X11.  After [NewManager] on a configuration with unique names,
    [ListClusters] returns one status per configured cluster, in the order
    the map happens to be visited: the statuses of the connection attempts.
    A status says connected exactly when it carries no error text. *)
Theorem ListClusters_one_status_per_cluster (cfg : config.MultiClusterConfig)
    (w : World) (sched : cluster.Schedule config.ClusterConfig)
    (order : cluster.RangeOrder) (m : cluster.Manager) :
  NoDup (map config.Name (config.Clusters cfg)) →
  cluster.schedule_ok sched (config.Clusters cfg) →
  cluster.NewManager cfg w sched = inl m →
  cluster.range_order_ok order m →
  (cluster.ListClusters order m).1 ≡ₚ map cluster.statusOf (cluster.attempts cfg w)
  ∧ map cluster.ClusterStatus.Name (cluster.ListClusters order m).1
    ≡ₚ map config.Name (config.Clusters cfg)
  ∧ (∀ status, status ∈ (cluster.ListClusters order m).1 →
       cluster.ClusterStatus.Connected status = true
       ↔ cluster.ClusterStatus.Error status = "").
Proof.
  intros Hnd Hsched Hnew Hok.
  assert (Hperm : (cluster.ListClusters order m).1
                  ≡ₚ map cluster.statusOf (cluster.attempts cfg w)).
  { unfold cluster.ListClusters. simpl.
    etransitivity; [apply Permutation_map, Hok|].
    apply NewManager_clients in Hnew as ->. simpl.
    rewrite stored_list_to_map by (by apply arrived_NoDup).
    etransitivity.
    { apply Permutation_map, map_to_list_to_map.
      rewrite fst_named. by apply arrived_NoDup. }
    rewrite map_map. simpl.
    apply (Permutation_map cluster.statusOf), Permutation_map, Hsched. }
  split; [done|]. split.
  - etransitivity; [apply Permutation_map, Hperm|].
    unfold cluster.attempts. rewrite !map_map.
    erewrite map_ext; [done|]. intros cc. simpl. apply statusOf_attempt.
  - intros status Hin. rewrite Hperm in Hin.
    apply list_elem_of_fmap in Hin as (c & -> & Hin).
    apply list_elem_of_fmap in Hin as (cc & -> & _).
    apply statusOf_attempt.
Qed.

(** X12.  When the root command's start-up succeeds, the registry it
    leaves holds a handle for every cluster of the loaded file under the
    cluster's name, and the default cluster is the first one marked in the
    file: [GetDefaultClient] answers for it whatever the order in which
    the map is visited, and never falls back to another cluster. *)
Theorem PersistentPreRunE_default_is_fixed (configPath : string) (w : World)
    (sched : cluster.Schedule config.ClusterConfig)
    (cfg : config.MultiClusterConfig) (mgr : cluster.Manager)
    (wm : workload.Manager) :
  mcm.PersistentPreRunE configPath w sched = inl (cfg, mgr, wm) →
  cluster.schedule_ok sched (config.Clusters cfg) →
  workload.clusterManager wm = mgr
  ∧ cluster.config mgr = cfg
  ∧ (∀ cc, cc ∈ config.Clusters cfg →
       ∃ client, cluster.clients mgr !! config.Name cc = Some client
                 ∧ cluster.Config client = cc)
  ∧ ∃ d, List.find config.IsDefault (config.Clusters cfg) = Some d
         ∧ ∀ order,
             (cluster.GetDefaultClient order mgr).1
             = (cluster.GetClient (config.Name d) mgr).1.
Proof.
  unfold mcm.PersistentPreRunE. intros Hrun Hsched.
  destruct (config.LoadConfig configPath) as [cfg'|] eqn:Hload; [|done].
  destruct (cluster.NewManager cfg' w sched) as [mgr'|] eqn:Hnew; [|done].
  injection Hrun as -> -> <-.
  apply LoadConfig_inv in Hload as (raw & Hne & Hvalid & Hcfg).
  apply validateClusters_None in Hvalid as (_ & Hnd & _).
  rewrite <- (setDefaults_names raw), <- Hcfg in Hnd.
  pose proof (setDefaults_has_default raw Hne) as Hdef. rewrite <- Hcfg in Hdef.
  clear raw Hne Hcfg.
  pose proof (NewManager_clients _ _ _ _ Hnew) as Hm.
  split; [done|]. split; [by rewrite Hm|]. split.
  - intros cc Hcc. exists (cluster.connectToCluster (cluster.mkManager ∅ cfg) w cc).
    rewrite connectToCluster_Config. split; [|done]. rewrite Hm. simpl.
    rewrite <- (connectToCluster_Config (cluster.mkManager ∅ cfg) w cc) at 1.
    apply stored_lookup; [by apply arrived_NoDup|].
    apply list_elem_of_fmap. exists cc. split; [done|]. by rewrite Hsched.
  - destruct (List.find config.IsDefault (config.Clusters cfg)) as [d|] eqn:Hfind.
    + exists d. split; [done|]. intros order.
      unfold cluster.GetDefaultClient, mbind, cluster.method_bind. simpl.
      rewrite Hm. simpl. by rewrite Hfind.
    + exfalso. apply existsb_exists in Hdef as (x & Hx & Hd).
      rewrite find_none_all in Hfind. rewrite Hfind in Hd; [done|].
      by apply list_elem_of_In.
Qed.
End startup.

(** X11 on the fleet: one status for A and one for B. *)
Lemma ListClusters_one_status_per_cluster_example :
  cluster.NewManager (hostI := fake.host) (apiI := fake.api)
    (fake.cfg [fake.clusterA; fake.clusterB]) fake.bothUp id
  = inl (workload.clusterManager fake.fleet)
  ∧ map cluster.ClusterStatus.Name
      (cluster.ListClusters id (workload.clusterManager fake.fleet)).1
    ≡ₚ ["A"; "B"].
Proof.
  split; [exact fleet_built|].
  assert (Hnd : NoDup (map config.Name
                         (config.Clusters (fake.cfg [fake.clusterA; fake.clusterB])))).
  { apply (bool_decide_unpack _). vm_compute. exact I. }
  destruct (ListClusters_one_status_per_cluster (hostI := fake.host) (apiI := fake.api)
              _ _ _ id _ Hnd (Permutation_refl _) fleet_built (Permutation_refl _))
    as (_ & Hnames & _).
  exact Hnames.
Defined.

(** The start-up on the sample host with both servers answering. *)
Lemma sample_started :
  mcm.PersistentPreRunE (hostI := sample.host) (configYamlI := sample.configYaml)
    (apiI := fake.api) "" fake.bothUp id
  = inl (config.setDefaults sample.decoded, sample.manager,
         workload.NewManager sample.manager).
Proof. by_vm. Qed.

(** X12 on the sample host: neither cluster is marked in the file, and the
    default is A whatever the order. *)
Lemma PersistentPreRunE_default_is_fixed_example :
  mcm.PersistentPreRunE (hostI := sample.host) (configYamlI := sample.configYaml)
    (apiI := fake.api) "" fake.bothUp id
  = inl (config.setDefaults sample.decoded, sample.manager,
         workload.NewManager sample.manager)
  ∧ ∃ d, config.Name d = "A"
         ∧ ∀ order,
             (cluster.GetDefaultClient order sample.manager).1
             = (cluster.GetClient (config.Name d) sample.manager).1.
Proof.
  split; [exact sample_started|].
  destruct (PersistentPreRunE_default_is_fixed (hostI := sample.host)
              (configYamlI := sample.configYaml) (apiI := fake.api)
              _ _ _ _ _ _ sample_started (Permutation_refl _))
    as (_ & _ & _ & d & Hfind & Hdefault).
  exists d. split; [|exact Hdefault].
  vm_compute in Hfind. by injection Hfind as <-.
Defined.

(** ** Clusters that share a name *)

Section shared_names.
Context {hostI : Host} {World : Type} {apiI : KubeAPI World}.

Lemma stored_snoc (cs : gmap string cluster.ClusterClient)
    (arrived : list cluster.ClusterClient) (c : cluster.ClusterClient) :
  cluster.stored cs (arrived ++ [c])
  = <[config.Name (cluster.Config c) := c]> (cluster.stored cs arrived).
Proof. unfold cluster.stored. by rewrite foldl_app. Qed.

Lemma stored_last (cs : gmap string cluster.ClusterClient)
    (arrived : list cluster.ClusterClient) (name : string) :
  cluster.stored cs arrived !! name
  = match last (List.filter
                  (λ c, bool_decide (config.Name (cluster.Config c) = name)) arrived) with
    | Some c => Some c
    | None => cs !! name
    end.
Proof.
  induction arrived as [|c arrived IH] using rev_ind; [done|].
  rewrite stored_snoc, List.filter_app. simpl. case_bool_decide as Hname.
  - rewrite last_snoc, Hname. apply lookup_insert_eq.
  - rewrite app_nil_r, lookup_insert_ne by done. exact IH.
Qed.

Lemma filter_map_comm {A B} (f : A → B) (p : B → bool) (l : list A) :
  List.filter p (map f l) = map f (List.filter (λ x, p (f x)) l).
Proof.
  induction l as [|x l IH]; [done|]. simpl. rewrite IH. by destruct (p (f x)).
Qed.

Lemma last_map {A B} (f : A → B) (l : list A) : last (map f l) = f <$> last l.
Proof.
  induction l as [|x l IH]; [done|]. destruct l as [|y l]; [done|].
  change (last (map f (x :: y :: l))) with (last (map f (y :: l))).
  by rewrite IH.
Qed.

(** X13.  [connectToAllClusters] stores each handle under its cluster's
    name as it arrives, so of several configured clusters with one name
    the registry keeps the one whose attempt finished last; what the map
    held under other names stays.  ([validateConfig] rejects such
    configurations; [NewManager] itself does not.) *)
Theorem connectToAllClusters_last_arrival_wins (w : World)
    (sched : cluster.Schedule config.ClusterConfig) (m : cluster.Manager)
    (name : string) :
  cluster.clients (cluster.connectToAllClusters w sched m).2 !! name
  = match last (List.filter (λ cc, bool_decide (config.Name cc = name))
                  (sched (config.Clusters (cluster.config m)))) with
    | Some cc => Some (cluster.connectToCluster m w cc)
    | None => cluster.clients m !! name
    end.
Proof.
  rewrite connectToAllClusters_spec. simpl.
  rewrite stored_last, filter_map_comm, last_map.
  rewrite (filter_ext _ (λ cc, bool_decide (config.Name cc = name))).
  - by destruct (last _).
  - intros cc. by rewrite connectToCluster_Config.
Qed.
End shared_names.

(** ** Requests of the mutation path *)

Section requests.
Context {World : Type} {apiI : KubeAPI World} {yamlI : Yaml}.

(** X14.  One [DeployToCluster] sends either no request, and then it
    returns an error and leaves everything as it was, or exactly two to
    the named cluster's own clientset: a Get followed by an Update when
    the Get found the object, by a Create when the Get failed for whatever
    reason.  The namespace is the manifest's own when it has one and the
    argument otherwise, and an Update sends the manifest with the resource
    version the Get returned written into it and nothing else changed. *)
Theorem DeployToCluster_two_requests_or_none (m : workload.Manager)
    (clusterName namespace yamlContent : string) (s : workload.Sys World) :
  cluster.handles_live (workload.clusterManager m) →
  ∃ err s',
    workload.DeployToCluster m clusterName namespace yamlContent s = Ok (err, s')
    ∧ ((s' = s ∧ is_Some err)
       ∨ ∃ client clientset decoded,
           (cluster.GetClient clusterName (workload.clusterManager m)).1 = inl client
           ∧ cluster.Clientset client = Some clientset
           ∧ yaml_Unmarshal_Deployment yamlContent = inl decoded
           ∧ let ns := if bool_decide (appsv1.Namespace decoded = "")
                       then namespace else appsv1.Namespace decoded in
             let d := workload.inNamespace namespace decoded in
             appsv1.Namespace d = ns
             ∧ appsv1.Name d = appsv1.Name decoded
             ∧ match Deployments_Get (workload.world s) clientset ns
                       (appsv1.Name decoded) with
               | inl existing =>
                   let d' :=
                     appsv1.set_ResourceVersion (appsv1.ResourceVersion existing) d in
                   workload.calls s'
                   = (workload.calls s
                      ++ [CallGet clientset ns (appsv1.Name decoded);
                          CallUpdate clientset ns d'])%list
                   ∧ carries (appsv1.ResourceVersion existing) d d'
                   ∧ workload.world s'
                     = (Deployments_Update (workload.world s) clientset ns d').1
                   ∧ (err = None
                      ↔ ∃ saved,
                          (Deployments_Update (workload.world s) clientset ns d').2
                          = inl saved)
               | inr _ =>
                   workload.calls s'
                   = (workload.calls s
                      ++ [CallGet clientset ns (appsv1.Name decoded);
                          CallCreate clientset ns d])%list
                   ∧ workload.world s'
                     = (Deployments_Create (workload.world s) clientset ns d).1
                   ∧ (err = None
                      ↔ ∃ saved,
                          (Deployments_Create (workload.world s) clientset ns d).2
                          = inl saved)
               end).
Proof.
  intros Hlive. rewrite DeployToCluster_run.
  destruct (cluster.GetClient clusterName _).1 as [client|e] eqn:Hget;
    [|eexists _, _; split; [done|]; left; eauto].
  destruct (yaml_Unmarshal_map yamlContent) as [obj|e];
    [|eexists _, _; split; [done|]; left; eauto].
  destruct (workload.kindOf obj) as [kind|];
    [|eexists _, _; split; [done|]; left; eauto].
  case_bool_decide as Hkind; [|eexists _, _; split; [done|]; left; eauto].
  destruct (GetClient_live _ _ _ Hlive Hget) as [clientset Hcs].
  destruct (yaml_Unmarshal_Deployment yamlContent) as [decoded|e] eqn:Hdec.
  - rewrite (applyDeployment_run _ _ _ _ decoded clientset s Hdec Hcs). cbv zeta.
    assert (Hns : appsv1.Namespace (workload.inNamespace namespace decoded)
                  = if bool_decide (appsv1.Namespace decoded = "")
                    then namespace else appsv1.Namespace decoded).
    { unfold workload.inNamespace. by case_bool_decide. }
    assert (Hname : appsv1.Name (workload.inNamespace namespace decoded)
                    = appsv1.Name decoded).
    { unfold workload.inNamespace. by case_bool_decide. }
    rewrite Hns, Hname.
    destruct (Deployments_Get _ _ _ _) as [existing|e] eqn:Hgot.
    + destruct (Deployments_Update _ _ _ _) as [w' r] eqn:Hupd.
      eexists _, _. split; [done|]. right. exists client, clientset, decoded.
      split_and!; try done. rewrite Hgot, Hupd. simpl. split_and!; try done.
      destruct r; split; try done; [eauto | by intros [? [=]]].
    + destruct (Deployments_Create _ _ _ _) as [w' r] eqn:Hcre.
      eexists _, _. split; [done|]. right. exists client, clientset, decoded.
      split_and!; try done. rewrite Hgot, Hcre. simpl. split_and!; try done.
      destruct r; split; try done; [eauto | by intros [? [=]]].
  - unfold workload.applyDeployment. rewrite Hdec.
    eexists _, _. split; [done|]. left. eauto.
Qed.
End requests.

(** ** The targets of a listing, and the pod listing *)

Section pods.
Context {hostI : Host} {clockI : Clock} {World : Type} {apiI : KubeAPI World}
  {podsI : PodsAPI World}.

(** X15.  A listing that is given cluster names goes to exactly these, in
    the order given, known or not; given none, it goes to the clusters
    whose handle is connected, each under the name in the handle's
    configuration. *)
Theorem listTargets_defaults_to_connected (m : workload.Manager)
    (order : cluster.RangeOrder) (clusterNames : list string) :
  cluster.range_order_ok order (workload.clusterManager m) →
  (clusterNames ≠ [] → workload.listTargets m order clusterNames = clusterNames)
  ∧ (∀ name,
       name ∈ workload.listTargets m order []
       ↔ ∃ key client,
           cluster.clients (workload.clusterManager m) !! key = Some client
           ∧ cluster.Connected client = true
           ∧ config.Name (cluster.Config client) = name).
Proof.
  intros Hok. split.
  - intros Hne. unfold workload.listTargets.
    destruct clusterNames; [done|]. by rewrite bool_decide_eq_false_2.
  - intros name. unfold workload.listTargets, workload.connectedNames.
    rewrite bool_decide_eq_true_2 by done.
    unfold cluster.ListClusters. simpl. split.
    + intros (st & -> & Hst)%list_elem_of_fmap.
      apply list_elem_of_In, filter_In in Hst as [Hin Hc].
      apply list_elem_of_In, list_elem_of_fmap in Hin as ([key client] & -> & Hin).
      apply (range_entries order _ (key, client)) in Hin; [|done].
      exists key, client. done.
    + intros (key & client & Hin & Hc & <-).
      apply list_elem_of_fmap. exists (cluster.statusOf client). split; [done|].
      apply list_elem_of_In, filter_In. split; [|done].
      apply list_elem_of_In, list_elem_of_fmap. exists (key, client). split; [done|].
      by apply (range_entries order _ (key, client)).
Qed.

Lemma wrap32_idemp (a b : Z) : wrap32 (wrap32 a + b) = wrap32 (a + b).
Proof.
  unfold wrap32. f_equal.
  replace ((a + 2 ^ 31) `mod` 2 ^ 32 - 2 ^ 31 + b + 2 ^ 31)
    with ((a + 2 ^ 31) `mod` 2 ^ 32 + b) by lia.
  rewrite Zplus_mod_idemp_l. f_equal. lia.
Qed.

Lemma totalRestarts_from (statuses : list corev1.ContainerStatus) (acc : Z) :
  foldl (λ total containerStatus,
           wrap32 (total + corev1.RestartCount containerStatus))
    (wrap32 acc) statuses
  = wrap32 (acc + foldr Z.add 0 (map corev1.RestartCount statuses)).
Proof.
  revert acc. induction statuses as [|st rest IH]; intros acc; simpl.
  - by rewrite Z.add_0_r.
  - rewrite wrap32_idemp, IH. f_equal. lia.
Qed.

Lemma readyContainers_from (statuses : list corev1.ContainerStatus) (n : nat) :
  foldl (λ n condition, if corev1.Ready condition then S n else n) n statuses
  = (n + length (List.filter corev1.Ready statuses))%nat.
Proof.
  revert n. induction statuses as [|st rest IH]; intros n; simpl; [lia|].
  rewrite IH. destruct (corev1.Ready st); simpl; lia.
Qed.

(** X16.  In a pod record the restart count is the sum of the containers'
    restart counts reduced to [int32] (the sum itself when that fits), the
    first number of [Ready] counts the container statuses that are ready,
    the second the containers of the pod's spec, and the node is never
    empty: a pod without a node is shown as unscheduled. *)
Theorem podInfo_totals (clusterName : string) (pod : corev1.Pod) :
  workload_pods.PodInfo.Restarts (workload_pods.podInfo clusterName pod)
  = wrap32 (foldr Z.add 0 (map corev1.RestartCount (corev1.ContainerStatuses pod)))
  ∧ (- 2 ^ 31 ≤ foldr Z.add 0 (map corev1.RestartCount (corev1.ContainerStatuses pod))
     < 2 ^ 31 →
     workload_pods.PodInfo.Restarts (workload_pods.podInfo clusterName pod)
     = foldr Z.add 0 (map corev1.RestartCount (corev1.ContainerStatuses pod)))
  ∧ workload_pods.PodInfo.Ready (workload_pods.podInfo clusterName pod)
    = pretty (length (List.filter corev1.Ready (corev1.ContainerStatuses pod)))
      +:+ "/" +:+ pretty (length (corev1.Containers pod))
  ∧ workload_pods.PodInfo.Node (workload_pods.podInfo clusterName pod) ≠ ""
  ∧ (corev1.NodeName pod ≠ "" →
     workload_pods.PodInfo.Node (workload_pods.podInfo clusterName pod)
     = corev1.NodeName pod)
  ∧ (corev1.NodeName pod = "" →
     workload_pods.PodInfo.Node (workload_pods.podInfo clusterName pod)
     = "unscheduled").
Proof.
  assert (Hsum : workload_pods.totalRestarts (corev1.ContainerStatuses pod)
                 = wrap32 (foldr Z.add 0
                             (map corev1.RestartCount (corev1.ContainerStatuses pod)))).
  { unfold workload_pods.totalRestarts.
    change 0 with (wrap32 0) at 1. by rewrite totalRestarts_from. }
  unfold workload_pods.podInfo. simpl. split_and!.
  - done.
  - intros Hfit. rewrite Hsum. unfold wrap32.
    rewrite Z.mod_small by lia. lia.
  - unfold workload_pods.readyContainers. by rewrite readyContainers_from.
  - by case_bool_decide.
  - intros Hne. by rewrite bool_decide_eq_false_2.
  - intros He. by rewrite bool_decide_eq_true_2.
Qed.

Lemma getPodsFromCluster_value (m : workload.Manager) (w : World)
    (clusterName namespace labelSelector : string) :
  cluster.handles_live (workload.clusterManager m) →
  ∃ sent,
    workload_pods.getPodsFromCluster m w clusterName namespace labelSelector = Ok sent
    ∧ Forall (λ p, workload_pods.PodInfo.ClusterName p = clusterName) sent
    ∧ match (cluster.GetClient clusterName (workload.clusterManager m)).1 with
      | inr err =>
          sent = [workload_pods.errorPod clusterName
                    ("Failed to get cluster client: " +:+ err)]
      | inl client =>
          ∃ clientset,
            cluster.Clientset client = Some clientset
            ∧ match Pods_List w clientset namespace labelSelector with
              | inr err =>
                  sent = [workload_pods.errorPod clusterName
                            ("Failed to list pods: " +:+ err)]
              | inl items => sent = map (workload_pods.podInfo clusterName) items
              end
      end.
Proof.
  intros Hlive. unfold workload_pods.getPodsFromCluster.
  destruct (cluster.GetClient clusterName _).1 as [client|e] eqn:Hget.
  - destruct (GetClient_live _ _ _ Hlive Hget) as [clientset Hcs].
    rewrite Hcs. simpl.
    assert (Hsel : (if bool_decide (labelSelector ≠ "") then labelSelector else "")
                   = labelSelector).
    { case_bool_decide as Hs; [done|]. by destruct (decide (labelSelector = "")). }
    rewrite Hsel.
    destruct (Pods_List w clientset namespace labelSelector) as [items|e] eqn:Hlist.
    + eexists. split; [done|]. split.
      * apply Forall_forall. by intros p (pod & -> & _)%list_elem_of_fmap.
      * exists clientset. by rewrite Hlist.
    + eexists. split; [done|]. split; [by repeat constructor|].
      exists clientset. by rewrite Hlist.
  - eexists. split; [done|]. split; [by repeat constructor | done].
Qed.
End pods.

(** X14 on the fleet: a first deployment of the web manifest to B is a Get
    and a Create in the namespace given. *)
Lemma DeployToCluster_two_requests_or_none_example :
  cluster.handles_live (workload.clusterManager fake.fleet)
  ∧ ∃ err s',
      workload.DeployToCluster (apiI := fake.api) (yamlI := fake.yaml)
        fake.fleet "B" "default" fake.webManifest fake.start = Ok (err, s')
      ∧ length (workload.calls s') = 2%nat.
Proof.
  split; [exact handles_live_example|].
  destruct (DeployToCluster_two_requests_or_none (apiI := fake.api) (yamlI := fake.yaml)
              fake.fleet "B" "default" fake.webManifest fake.start handles_live_example)
    as (err & s' & Hrun & _).
  exists err, s'. split; [exact Hrun|].
  assert (Hfirst : workload.DeployToCluster (apiI := fake.api) (yamlI := fake.yaml)
                     fake.fleet "B" "default" fake.webManifest fake.start
                   = Ok (None, fake.afterFirst)) by by_vm.
  rewrite Hfirst in Hrun. injection Hrun as _ <-. by_vm.
Defined.

(** X15 on the fleet. *)
Lemma listTargets_defaults_to_connected_example :
  cluster.range_order_ok id (workload.clusterManager fake.fleet)
  ∧ "B" ∈ workload.listTargets fake.fleet id [].
Proof.
  assert (Hok : cluster.range_order_ok id (workload.clusterManager fake.fleet))
    by exact (Permutation_refl _).
  split; [exact Hok|].
  destruct (listTargets_defaults_to_connected fake.fleet id [] Hok) as [_ Hall].
  apply Hall. exists "B", sample.handleB. split; [by_vm|]. split; reflexivity.
Defined.

(** ** The order on strings *)

Lemma ascii_compare_refl (a : ascii) : Ascii.compare a a = Eq.
Proof. apply N.compare_refl. Qed.

Lemma ascii_compare_lt_trans (a b c : ascii) :
  Ascii.compare a b = Lt → Ascii.compare b c = Lt → Ascii.compare a c = Lt.
Proof.
  unfold Ascii.compare. rewrite !N.compare_lt_iff. apply N.lt_trans.
Qed.

Lemma string_compare_refl (s : string) : String.compare s s = Eq.
Proof. induction s as [|a s IH]; simpl; [done|]. by rewrite ascii_compare_refl. Qed.

Lemma string_compare_lt_trans (s1 s2 s3 : string) :
  String.compare s1 s2 = Lt → String.compare s2 s3 = Lt → String.compare s1 s3 = Lt.
Proof.
  revert s2 s3. induction s1 as [|a s1 IH]; intros [|b s2] [|c s3]; simpl; try done.
  destruct (Ascii.compare a b) eqn:Hab; [|clear IH|done].
  - apply Ascii.compare_eq_iff in Hab as ->.
    destruct (Ascii.compare b c); [apply IH | done | done].
  - destruct (Ascii.compare b c) eqn:Hbc; [| |done].
    + apply Ascii.compare_eq_iff in Hbc as <-. by rewrite Hab.
    + by rewrite (ascii_compare_lt_trans a b c).
Qed.

Lemma string_ltb_irrefl (s : string) : String.ltb s s = false.
Proof. unfold String.ltb. by rewrite string_compare_refl. Qed.

Lemma string_ltb_trans (s1 s2 s3 : string) :
  String.ltb s1 s2 = true → String.ltb s2 s3 = true → String.ltb s1 s3 = true.
Proof.
  unfold String.ltb. intros H12 H23.
  rewrite (string_compare_lt_trans s1 s2 s3); [done| |].
  - by destruct (String.compare s1 s2).
  - by destruct (String.compare s2 s3).
Qed.

Lemma string_ltb_asym (s1 s2 : string) :
  String.ltb s1 s2 = true → String.ltb s2 s1 = false.
Proof.
  unfold String.ltb. rewrite (String.compare_antisym s2 s1).
  by destruct (String.compare s1 s2).
Qed.

Lemma string_ltb_connex (s1 s2 : string) :
  String.ltb s1 s2 = false → String.ltb s2 s1 = false → s1 = s2.
Proof.
  unfold String.ltb. rewrite (String.compare_antisym s2 s1).
  destruct (String.compare s1 s2) eqn:Hc; simpl; try done.
  intros _ _. by apply String.compare_eq_iff.
Qed.

Lemma string_leb_ltb (s1 s2 : string) :
  String.leb s1 s2 = true ↔ String.ltb s1 s2 = true ∨ s1 = s2.
Proof.
  unfold String.leb, String.ltb. split.
  - destruct (String.compare s1 s2) eqn:Hc; try done; [|by left].
    intros _. right. by apply String.compare_eq_iff.
  - intros [H| ->]; [by destruct (String.compare s1 s2)|].
    by rewrite string_compare_refl.
Qed.

#[local] Instance string_leb_trans : Transitive (λ a b : string, String.leb a b).
Proof.
  intros a b c Hab Hbc. apply Is_true_true in Hab, Hbc. apply Is_true_true.
  apply string_leb_ltb in Hab as [Hab| ->]; [|done].
  apply string_leb_ltb in Hbc as [Hbc| <-].
  - apply string_leb_ltb. left. by apply (string_ltb_trans a b c).
  - apply string_leb_ltb. by left.
Qed.

#[local] Instance string_leb_total : Total (λ a b : string, String.leb a b).
Proof.
  intros a b. destruct (String.leb_total a b) as [H|H]; [left | right];
    by apply Is_true_true.
Qed.

#[local] Instance string_leb_antisym : AntiSymm (=) (λ a b : string, String.leb a b).
Proof.
  intros a b Hab Hba. apply Is_true_true in Hab, Hba. by apply String.leb_antisym.
Qed.

(** ** Names given on the command line *)

Lemma strings_Split_nonempty (s : string) (sep : ascii) : strings_Split s sep ≠ [].
Proof.
  induction s as [|c s IH]; simpl; [done|].
  destruct (Ascii.eqb c sep); [done|]. by destruct (strings_Split s sep).
Qed.

Lemma contains_sep_cons (c : ascii) (s : string) (sep : ascii) :
  strings_Contains (String c s) (String sep "")
  = Ascii.eqb c sep || strings_Contains s (String sep "").
Proof.
  simpl. f_equal. destruct (Ascii.ascii_dec sep c) as [->|Hne].
  - rewrite Ascii.eqb_refl. by destruct s.
  - symmetry. apply Ascii.eqb_neq. congruence.
Qed.

(** The model of [strings.Split] loses nothing: joining the pieces with
    the separator gives the string back, no piece holds the separator, and
    there is one piece more than there are separators (so an empty string
    splits into one empty piece). *)
Lemma strings_Split_Join (s : string) (sep : ascii) :
  strings_Join (strings_Split s sep) (String sep "") = s
  ∧ Forall (λ piece, strings_Contains piece (String sep "") = false)
      (strings_Split s sep)
  ∧ length (strings_Split s sep)
    = S (length (List.filter (λ c, Ascii.eqb c sep) (String.list_ascii_of_string s))).
Proof.
  induction s as [|c s (IHj & IHc & IHl)]; simpl.
  - split; [done|]. split; [by repeat constructor | done].
  - pose proof (strings_Split_nonempty s sep) as Hne.
    destruct (Ascii.eqb c sep) eqn:Hc.
    + apply Ascii.eqb_eq in Hc as ->. split_and!.
      * destruct (strings_Split s sep) as [|p ps] eqn:Hs; [done|].
        change (strings_Join ("" :: p :: ps) (String sep ""))
          with (String sep (strings_Join (p :: ps) (String sep ""))).
        by rewrite IHj.
      * constructor; [done | exact IHc].
      * simpl. by rewrite IHl.
    + destruct (strings_Split s sep) as [|p ps] eqn:Hs; [done|]. split_and!.
      * rewrite <- IHj. by destruct ps as [|p' ps'].
      * apply Forall_cons in IHc as [Hp Hps]. constructor; [|done].
        by rewrite contains_sep_cons, Hc, Hp.
      * simpl in *. done.
Qed.

Section names.
Context {stringsI : GoStrings}.

Lemma parseClusterList_loop (pieces acc : list string) :
  foldl (λ result cluster,
           let cluster := strings_TrimSpace cluster in
           if bool_decide (cluster ≠ "") then (result ++ [cluster])%list else result)
    acc pieces
  = (acc ++ List.filter (λ name, negb (String.eqb name ""))
              (map strings_TrimSpace pieces))%list.
Proof.
  revert acc. induction pieces as [|p ps IH]; intros acc; simpl.
  - by rewrite app_nil_r.
  - rewrite IH. case_bool_decide as Hp.
    + apply String.eqb_neq in Hp. rewrite Hp. simpl. by rewrite <- app_assoc.
    + destruct (decide (strings_TrimSpace p = "")) as [Heq|Hne]; [|done].
      by rewrite Heq.
Qed.

Lemma parseClusterList_value (clusterString : string) :
  clusterString ≠ "" →
  mcm.parseClusterList clusterString
  = List.filter (λ name, negb (String.eqb name ""))
      (map strings_TrimSpace (strings_Split clusterString ",")).
Proof.
  intros Hne. unfold mcm.parseClusterList.
  rewrite bool_decide_eq_false_2 by done. by rewrite parseClusterList_loop.
Qed.

Lemma parseClusterList_no_empty (clusterString : string) :
  Forall (λ name, name ≠ "") (mcm.parseClusterList clusterString).
Proof.
  destruct (decide (clusterString = "")) as [->|Hne]; [by constructor|].
  rewrite parseClusterList_value by done. apply Forall_forall.
  intros name [_ Hname]%list_elem_of_In%filter_In.
  apply negb_true_iff, String.eqb_neq in Hname. done.
Qed.

(** X17.  [parseClusterList] returns the pieces between the commas,
    trimmed, in the order given, without the ones that are empty after
    trimming: it never returns an empty name, returns at most one name per
    piece, and returns nothing for an empty string. *)
Theorem parseClusterList_names (clusterString : string) :
  mcm.parseClusterList "" = []
  ∧ Forall (λ name, name ≠ "") (mcm.parseClusterList clusterString)
  ∧ (clusterString ≠ "" →
     mcm.parseClusterList clusterString
     = List.filter (λ name, negb (String.eqb name ""))
         (map strings_TrimSpace (strings_Split clusterString ",")))
  ∧ (length (mcm.parseClusterList clusterString)
     ≤ length (strings_Split clusterString ","))%nat.
Proof.
  split; [done|]. split; [apply parseClusterList_no_empty|].
  split; [apply parseClusterList_value|].
  destruct (decide (clusterString = "")) as [->|Hne]; [simpl; lia|].
  rewrite parseClusterList_value by done.
  etransitivity; [apply filter_length_le|]. by rewrite length_map.
Qed.
End names.

(** ** Sorting and counting the clusters of a listing *)

Section unique.

Lemma clusterSetOf_from (deployments : list workload.DeploymentInfo.t)
    (acc : gmap string bool) (name : string) :
  is_Some (foldl (λ clusters deployment,
                    <[workload.DeploymentInfo.ClusterName deployment := true]> clusters)
             acc deployments !! name)
  ↔ is_Some (acc !! name)
    ∨ name ∈ map workload.DeploymentInfo.ClusterName deployments.
Proof.
  revert acc. induction deployments as [|d rest IH]; intros acc; simpl.
  - split; [by left|]. intros [H|H]; [done|]. by apply elem_of_nil in H.
  - rewrite IH, lookup_insert_is_Some, elem_of_cons.
    destruct (decide (workload.DeploymentInfo.ClusterName d = name)); naive_solver.
Qed.

Lemma clusterSetOf_dom (deployments : list workload.DeploymentInfo.t) (name : string) :
  is_Some (mcm.clusterSetOf deployments !! name)
  ↔ name ∈ map workload.DeploymentInfo.ClusterName deployments.
Proof.
  unfold mcm.clusterSetOf. rewrite clusterSetOf_from.
  split; [|by right]. intros [H|H]; [|done].
  rewrite lookup_empty in H. by destruct H.
Qed.

Lemma StronglySorted_leb_ltb (l : list string) :
  NoDup l →
  StronglySorted (λ a b : string, String.leb a b) l →
  StronglySorted (λ a b : string, String.ltb a b = true) l.
Proof.
  intros Hnd Hs. induction Hs as [|x l Hs IH Hall]; [constructor|].
  apply NoDup_cons in Hnd as [Hx Hnd]. constructor; [by apply IH|].
  apply Forall_forall. intros y Hy.
  rewrite Forall_forall in Hall. specialize (Hall y Hy).
  apply Is_true_true, string_leb_ltb in Hall as [H| ->]; done.
Qed.

(** X18.  [getUniqueClusters] returns the cluster names that occur in the
    listing, each once, in strictly ascending order; the result does not
    depend on the order in which the set is visited, and
    [countUniqueClusters] is its length. *)
Theorem getUniqueClusters_sorted_set (order : mcm.MapOrder bool)
    (deployments : list workload.DeploymentInfo.t) :
  mcm.map_order_ok order (mcm.clusterSetOf deployments) →
  StronglySorted (λ a b : string, String.ltb a b = true)
    (mcm.getUniqueClusters order deployments)
  ∧ NoDup (mcm.getUniqueClusters order deployments)
  ∧ (∀ name,
       name ∈ mcm.getUniqueClusters order deployments
       ↔ ∃ d, d ∈ deployments ∧ workload.DeploymentInfo.ClusterName d = name)
  ∧ mcm.countUniqueClusters deployments
    = length (mcm.getUniqueClusters order deployments)
  ∧ mcm.getUniqueClusters order deployments = mcm.getUniqueClusters id deployments.
Proof.
  intros Hok. unfold mcm.getUniqueClusters, sort_Strings. cbv zeta.
  set (R := λ a b : string, String.leb a b).
  set (keys := map fst (order (map_to_list (mcm.clusterSetOf deployments)))).
  assert (Hkeys : keys ≡ₚ (map_to_list (mcm.clusterSetOf deployments)).*1).
  { apply Permutation_map, Hok. }
  assert (Hperm : merge_sort R keys ≡ₚ (map_to_list (mcm.clusterSetOf deployments)).*1).
  { by rewrite merge_sort_Permutation. }
  assert (Hnd : NoDup (merge_sort R keys)).
  { rewrite Hperm. apply NoDup_fst_map_to_list. }
  split_and!.
  - apply StronglySorted_leb_ltb; [done|]. apply (StronglySorted_merge_sort R).
  - done.
  - intros name. rewrite Hperm. rewrite list_elem_of_fmap. split.
    + intros ([k v] & -> & Hin%elem_of_map_to_list). simpl.
      assert (Hsome : is_Some (mcm.clusterSetOf deployments !! k)) by eauto.
      apply clusterSetOf_dom, list_elem_of_fmap in Hsome as (d & -> & Hd). eauto.
    + intros (d & Hd & <-).
      assert (Hsome : is_Some (mcm.clusterSetOf deployments
                               !! workload.DeploymentInfo.ClusterName d)).
      { apply clusterSetOf_dom, list_elem_of_fmap. eauto. }
      destruct Hsome as [v Hv]. exists (workload.DeploymentInfo.ClusterName d, v).
      split; [done|]. by apply elem_of_map_to_list.
  - unfold mcm.countUniqueClusters. rewrite Hperm, length_fmap.
    symmetry. apply length_map_to_list.
  - apply (StronglySorted_unique R).
    + apply (StronglySorted_merge_sort R).
    + apply (StronglySorted_merge_sort R).
    + rewrite Hperm. by rewrite merge_sort_Permutation.
Qed.

Ltac stable_eqs :=
  repeat match goal with
         | H : ¬ (_ ≠ _) |- _ => apply dec_stable in H
         end;
  subst.

Ltac order_tac :=
  try done;
  match goal with
  | H : String.ltb ?x ?x = true |- _ => by rewrite string_ltb_irrefl in H
  | H1 : String.ltb ?x ?y = true, H2 : String.ltb ?y ?x = true |- _ =>
      by rewrite (string_ltb_asym _ _ H1) in H2
  | H1 : String.ltb ?x ?y = true, H2 : String.ltb ?y ?z = true
    |- String.ltb ?x ?z = true =>
      exact (string_ltb_trans _ _ _ H1 H2)
  end.

(** X19.  The comparison the deployments command sorts by is a strict
    order on the triple of cluster, namespace and name: no record is below
    itself, the comparison is transitive, and two records neither of which
    is below the other agree on all three.  So the sorted table is grouped
    by cluster, then by namespace, then by name. *)
Theorem deploymentLess_strict_order (a b c : workload.DeploymentInfo.t) :
  mcm.deploymentLess a a = false
  ∧ (mcm.deploymentLess a b = true → mcm.deploymentLess b a = false)
  ∧ (mcm.deploymentLess a b = true → mcm.deploymentLess b c = true →
     mcm.deploymentLess a c = true)
  ∧ (mcm.deploymentLess a b = false → mcm.deploymentLess b a = false →
     workload.DeploymentInfo.ClusterName a = workload.DeploymentInfo.ClusterName b
     ∧ workload.DeploymentInfo.Namespace a = workload.DeploymentInfo.Namespace b
     ∧ workload.DeploymentInfo.Name a = workload.DeploymentInfo.Name b)
  ∧ (mcm.deploymentLess a b = true →
     String.leb (workload.DeploymentInfo.ClusterName a)
       (workload.DeploymentInfo.ClusterName b) = true).
Proof.
  unfold mcm.deploymentLess.
  destruct a as [ca na ma ? ? ? ? ? ?], b as [cb nb mb ? ? ? ? ? ?],
    c as [cc nc mc ? ? ? ? ? ?]. simpl.
  split_and!.
  - rewrite !bool_decide_eq_false_2 by (intros Hne; by apply Hne).
    apply string_ltb_irrefl.
  - repeat case_bool_decide; stable_eqs; try done; try apply string_ltb_asym.
  - repeat case_bool_decide; stable_eqs; intros Hab Hbc; order_tac.
  - repeat case_bool_decide; stable_eqs; try done; intros Hab Hba;
      pose proof (string_ltb_connex _ _ Hab Hba); done.
  - case_bool_decide as Hc.
    + intros Hlt. apply string_leb_ltb. by left.
    + intros _. apply string_leb_ltb. by right.
Qed.
End unique.

(** X18 at three records of two clusters. *)
Lemma getUniqueClusters_sorted_set_example :
  mcm.map_order_ok id
    (mcm.clusterSetOf
       [workload.errorEntry "B" "x"; workload.errorEntry "A" "y";
        workload.errorEntry "B" "z"])
  ∧ mcm.countUniqueClusters
      [workload.errorEntry "B" "x"; workload.errorEntry "A" "y";
       workload.errorEntry "B" "z"]
    = length
        (mcm.getUniqueClusters id
           [workload.errorEntry "B" "x"; workload.errorEntry "A" "y";
            workload.errorEntry "B" "z"]).
Proof.
  split; [exact (Permutation_refl _)|].
  destruct (getUniqueClusters_sorted_set id
              [workload.errorEntry "B" "x"; workload.errorEntry "A" "y";
               workload.errorEntry "B" "z"] (Permutation_refl _))
    as (_ & _ & _ & Hcount & _).
  exact Hcount.
Defined.

(** ** Table cells *)

Lemma string_length_app (a b : string) :
  String.length (a +:+ b) = (String.length a + String.length b)%nat.
Proof. induction a as [|c a IH]; simpl; [done|]. by rewrite IH. Qed.

Lemma string_to_length (n : nat) (s : string) :
  (n ≤ String.length s)%nat → String.length (string_to n s) = n.
Proof.
  unfold string_to. revert n. induction s as [|c s IH]; intros [|n] Hn; simpl in *;
    try done; try lia.
  rewrite IH; [done | lia].
Qed.

Lemma truncated_length (limit : nat) (s : string) :
  (limit + 3 < String.length s)%nat →
  String.length (string_to limit s +:+ "...") = (limit + 3)%nat.
Proof.
  intros Hlen. rewrite string_length_app, string_to_length by lia. done.
Qed.

(** X20.  The table columns that are cut keep to their width, mark what
    they cut and leave short values alone: the image column holds at most
    40 bytes, the pod name 35, the node 20 and the error 50; a value
    within the width is shown unchanged (an empty error as a dash), and a
    longer one ends in three dots. *)
Theorem table_cells_fit (s : string) :
  ((String.length (mcm.imageCell s) ≤ 40)%nat
   ∧ ((String.length s ≤ 40)%nat → mcm.imageCell s = s)
   ∧ ((40 < String.length s)%nat → strings_Contains (mcm.imageCell s) "..." = true))
  ∧ ((String.length (mcm.podNameCell s) ≤ 35)%nat
     ∧ ((String.length s ≤ 35)%nat → mcm.podNameCell s = s)
     ∧ ((35 < String.length s)%nat → mcm.podNameCell s = string_to 32 s +:+ "..."))
  ∧ ((String.length (mcm.nodeCell s) ≤ 20)%nat
     ∧ ((String.length s ≤ 20)%nat → mcm.nodeCell s = s)
     ∧ ((20 < String.length s)%nat → mcm.nodeCell s = string_to 17 s +:+ "..."))
  ∧ ((1 ≤ String.length (mcm.errorCell s) ≤ 50)%nat
     ∧ (s = "" → mcm.errorCell s = "-")
     ∧ (s ≠ "" → (String.length s ≤ 50)%nat → mcm.errorCell s = s)
     ∧ ((50 < String.length s)%nat → mcm.errorCell s = string_to 47 s +:+ "...")).
Proof.
  split; [|split; [|split]].
  - unfold mcm.imageCell. cbv zeta. case_bool_decide as Hlong.
    + set (shortened :=
             if bool_decide (1 < length (strings_Split s "/"))%nat
             then default "" (head (strings_Split s "/")) +:+ "/..."
                  +:+ default "" (last (strings_Split s "/"))
             else s).
      split_and!.
      * case_bool_decide as Hstill; [|lia].
        rewrite (truncated_length 37) by lia. lia.
      * lia.
      * intros _. case_bool_decide as Hstill.
        -- apply strings_Contains_app_r, strings_Contains_refl.
        -- unfold shortened in *. case_bool_decide as Hparts; [|lia].
           apply strings_Contains_app_r.
           change ("/..." +:+ default "" (last (strings_Split s "/")))
             with (String "/" ("..." +:+ default "" (last (strings_Split s "/")))).
           cbn [strings_Contains]. apply orb_true_iff. right.
           apply strings_Contains_app_l, strings_Contains_refl.
    + split_and!; [lia | done | lia].
  - unfold mcm.podNameCell. case_bool_decide as Hlong.
    + rewrite (truncated_length 32) by lia. split_and!; [lia | lia | done].
    + split_and!; [lia | done | lia].
  - unfold mcm.nodeCell. case_bool_decide as Hlong.
    + rewrite (truncated_length 17) by lia. split_and!; [lia | lia | done].
    + split_and!; [lia | done | lia].
  - unfold mcm.errorCell. cbv zeta.
    destruct (decide (50 < String.length s)%nat) as [Hlong|Hlong];
      [rewrite (bool_decide_eq_true_2 _ Hlong)
      |rewrite (bool_decide_eq_false_2 _ Hlong)].
    + assert (Hlen : String.length (string_to 47 s +:+ "...") = 50%nat)
        by (rewrite (truncated_length 47) by lia; done).
      rewrite bool_decide_eq_false_2.
      * rewrite Hlen. split; [lia|]. split_and!; [|lia|done].
        intros ->. simpl in Hlong. lia.
      * intros Hempty. rewrite Hempty in Hlen. simpl in Hlen. lia.
    + case_bool_decide as Hempty.
      * subst s. simpl. split; [lia|]. split_and!; [done | done | lia].
      * split; [|split_and!; [done | done | lia]].
        destruct s; [done | simpl in *; lia].
Qed.

(** ** The verdict on a fan-out *)

Lemma tally_fold (entries : list (string * error)) (n : nat)
    (failures warnings : list string) :
  ∃ failures' warnings',
    foldl mcm.tally (n, failures, warnings) entries
    = ((n + length (List.filter (λ e, bool_decide (e.2 = None)) entries))%nat,
       failures', warnings')
    ∧ length failures'
      = (length failures + length (List.filter hardFailure entries))%nat.
Proof.
  revert n failures warnings.
  induction entries as [|[name err] rest IH]; intros n failures warnings.
  - simpl. eexists _, _. split; [|by rewrite Nat.add_0_r]. by rewrite Nat.add_0_r.
  - cbn [foldl mcm.tally List.filter]. unfold hardFailure at 1. cbn [snd].
    destruct err as [errorMsg|]; cbn [bool_decide decide_rel].
    + destruct (mcm.isWarning errorMsg) eqn:Hw.
      * destruct (IH n failures (warnings ++ [name +:+ ": " +:+ errorMsg])%list)
          as (f' & w' & -> & Hlen).
        eexists _, _. split; [|exact Hlen].
        by rewrite bool_decide_eq_false_2.
      * destruct (IH n (failures ++ [name +:+ ": " +:+ errorMsg])%list warnings)
          as (f' & w' & -> & Hlen).
        eexists _, _. split.
        -- by rewrite bool_decide_eq_false_2.
        -- rewrite Hlen, length_app. simpl. lia.
    + destruct (IH (S n) failures warnings) as (f' & w' & -> & Hlen).
      eexists _, _. split; [|exact Hlen].
      rewrite bool_decide_eq_true_2 by done. simpl. f_equal. f_equal. lia.
Qed.

Lemma all_ok_no_failure (entries : list (string * error)) :
  length (List.filter (λ e, bool_decide (e.2 = None)) entries) = length entries →
  List.filter hardFailure entries = [].
Proof.
  induction entries as [|[name err] rest IH]; [done|]. simpl.
  pose proof (filter_length_le (λ e : string * error, bool_decide (e.2 = None)) rest).
  unfold hardFailure at 1. simpl. destruct err as [msg|].
  - rewrite bool_decide_eq_false_2 by done. intros Hlen. exfalso. simpl in Hlen. unfold error in *. lia.
  - rewrite bool_decide_eq_true_2 by done. simpl. intros Hlen. apply IH.
    unfold error in *. lia.
Qed.

(** X21.  [reportDeploymentResults] returns nil exactly when no cluster
    failed with an error other than the two kinds it takes for warnings
    (a message with "already exists" or "no changes"); otherwise its error
    gives the number of such failures out of the number of clusters.  The
    order in which the results are visited plays no part. *)
Theorem reportDeploymentResults_verdict (order : mcm.MapOrder error)
    (results : gmap string error) (yamlFile : string) :
  mcm.map_order_ok order results →
  mcm.reportDeploymentResults order results yamlFile
  = (if bool_decide (List.filter hardFailure (map_to_list results) = []) then None
     else Some ("deployment failed on "
                +:+ pretty (length (List.filter hardFailure (map_to_list results)))
                +:+ "/" +:+ pretty (size results) +:+ " clusters"))
  ∧ (mcm.reportDeploymentResults order results yamlFile = None
     ↔ ∀ name errorMsg,
         results !! name = Some (Some errorMsg) → mcm.isWarning errorMsg = true).
Proof.
  intros Hok.
  assert (Hhard : length (List.filter hardFailure (order (map_to_list results)))
                  = length (List.filter hardFailure (map_to_list results))).
  { by apply filter_length_Permutation. }
  assert (Hvalue : mcm.reportDeploymentResults order results yamlFile
    = (if bool_decide (List.filter hardFailure (map_to_list results) = []) then None
       else Some ("deployment failed on "
                  +:+ pretty (length (List.filter hardFailure (map_to_list results)))
                  +:+ "/" +:+ pretty (size results) +:+ " clusters"))).
  { unfold mcm.reportDeploymentResults.
    destruct (tally_fold (order (map_to_list results)) 0 [] [])
      as (failures & warnings & -> & Hlen).
    simpl in Hlen. rewrite Hhard in Hlen. cbn beta iota zeta.
    destruct (decide (List.filter hardFailure (map_to_list results) = []))
      as [Hnil|Hsome].
    - rewrite (bool_decide_eq_true_2 _ Hnil). rewrite Hnil in Hlen. simpl in Hlen.
      case_bool_decide; [done|]. by rewrite bool_decide_eq_false_2 by lia.
    - rewrite (bool_decide_eq_false_2 _ Hsome).
      rewrite (bool_decide_eq_false_2 (_ = size results)).
      + rewrite Hlen. rewrite bool_decide_eq_true_2; [done|].
        destruct (List.filter hardFailure (map_to_list results)); [done | simpl; lia].
      + intros Hall. apply Hsome, length_zero_iff_nil. rewrite <- Hhard.
        rewrite all_ok_no_failure; [done|].
        simpl in Hall. rewrite Hall, <- length_map_to_list.
        symmetry. by apply Permutation_length. }
  split; [done|]. rewrite Hvalue. case_bool_decide as Hnone.
  - split; [|done]. intros _ name errorMsg Hin.
    apply elem_of_map_to_list in Hin.
    destruct (mcm.isWarning errorMsg) eqn:Hw; [done|]. exfalso.
    assert (Hmem : (name, Some errorMsg)
                   ∈ List.filter hardFailure (map_to_list results)).
    { apply list_elem_of_In, filter_In. split; [by apply list_elem_of_In|].
      unfold hardFailure. simpl. by rewrite Hw. }
    rewrite Hnone in Hmem. by apply elem_of_nil in Hmem.
  - split; [done|]. intros Hall. exfalso. apply Hnone.
    destruct (List.filter hardFailure (map_to_list results)) as [|[name err] rest] eqn:Hf;
      [done|].
    assert (Hmem : (name, err) ∈ List.filter hardFailure (map_to_list results))
      by (rewrite Hf; left).
    apply list_elem_of_In, filter_In in Hmem as [Hin Hhf].
    apply list_elem_of_In, elem_of_map_to_list in Hin.
    unfold hardFailure in Hhf. simpl in Hhf. destruct err as [msg|]; [|done].
    by rewrite (Hall _ _ Hin) in Hhf.
Qed.

(** X21 at one success and one rejected creation: the rejection counts
    as a warning and the verdict is nil. *)
Lemma reportDeploymentResults_verdict_example :
  mcm.map_order_ok id
    ({[ "A" := None;
        "B" := Some "failed to create deployment: already exists" ]}
       : gmap string error)
  ∧ mcm.reportDeploymentResults id
      {[ "A" := None; "B" := Some "failed to create deployment: already exists" ]}
      "web.yaml"
    = None.
Proof.
  split; [exact (Permutation_refl _)|].
  destruct (reportDeploymentResults_verdict id
              {[ "A" := None;
                 "B" := Some "failed to create deployment: already exists" ]}
              "web.yaml" (Permutation_refl _)) as [-> _].
  by_vm.
Defined.

(** ** Pod statistics *)

Lemma countPodsByStatus_from (pods : list workload_pods.PodInfo.t) (status : string)
    (n : nat) :
  foldl (λ count pod,
           if bool_decide (workload_pods.PodInfo.Status pod = status) then S count
           else count) n pods
  = (n + length (List.filter
                   (λ pod, bool_decide (workload_pods.PodInfo.Status pod = status))
                   pods))%nat.
Proof.
  revert n. induction pods as [|pod rest IH]; intros n; simpl; [lia|].
  rewrite IH. case_bool_decide; simpl; lia.
Qed.

Lemma generatePodSummary_from (pods : list workload_pods.PodInfo.t)
    (acc : mcm.PodSummary.t) :
  let count status :=
    length (List.filter
              (λ pod, bool_decide (workload_pods.PodInfo.Status pod = status)) pods) in
  let summary :=
    foldl (λ summary pod,
             let '(mcm.PodSummary.mk running pending failed succeeded unknown other) :=
               summary in
             let status := workload_pods.PodInfo.Status pod in
             if bool_decide (status = "Running") then
               mcm.PodSummary.mk (S running) pending failed succeeded unknown other
             else if bool_decide (status = "Pending") then
               mcm.PodSummary.mk running (S pending) failed succeeded unknown other
             else if bool_decide (status = "Failed") then
               mcm.PodSummary.mk running pending (S failed) succeeded unknown other
             else if bool_decide (status = "Succeeded") then
               mcm.PodSummary.mk running pending failed (S succeeded) unknown other
             else if bool_decide (status = "Unknown") then
               mcm.PodSummary.mk running pending failed succeeded (S unknown) other
             else
               mcm.PodSummary.mk running pending failed succeeded unknown (S other))
      acc pods in
  mcm.PodSummary.Running summary = (mcm.PodSummary.Running acc + count "Running")%nat
  ∧ mcm.PodSummary.Pending summary = (mcm.PodSummary.Pending acc + count "Pending")%nat
  ∧ mcm.PodSummary.Failed summary = (mcm.PodSummary.Failed acc + count "Failed")%nat
  ∧ mcm.PodSummary.Succeeded summary
    = (mcm.PodSummary.Succeeded acc + count "Succeeded")%nat
  ∧ mcm.PodSummary.Unknown summary = (mcm.PodSummary.Unknown acc + count "Unknown")%nat
  ∧ (mcm.PodSummary.Running summary + mcm.PodSummary.Pending summary
     + mcm.PodSummary.Failed summary + mcm.PodSummary.Succeeded summary
     + mcm.PodSummary.Unknown summary + mcm.PodSummary.Other summary
     = mcm.PodSummary.Running acc + mcm.PodSummary.Pending acc
       + mcm.PodSummary.Failed acc + mcm.PodSummary.Succeeded acc
       + mcm.PodSummary.Unknown acc + mcm.PodSummary.Other acc + length pods)%nat.
Proof.
  cbv zeta. revert acc. induction pods as [|pod rest IH]; intros acc.
  - simpl. lia.
  - cbn [foldl List.filter length]. destruct acc as [r p f s u o].
    repeat case_bool_decide; simplify_eq;
      match goal with
      | |- context [foldl _ ?acc' rest] => specialize (IH acc')
      end;
      cbn [mcm.PodSummary.Running mcm.PodSummary.Pending mcm.PodSummary.Failed
           mcm.PodSummary.Succeeded mcm.PodSummary.Unknown mcm.PodSummary.Other
           length] in *;
      try congruence; lia.
Qed.

(** X22.  The pod summary is a partition: its six counts add up to the
    number of pods, and each of the five named counts is what
    [countPodsByStatus] returns for that status, the records of clusters
    that could not be queried falling under [Other]. *)
Theorem generatePodSummary_partition (pods : list workload_pods.PodInfo.t) :
  (mcm.PodSummary.Running (mcm.generatePodSummary pods)
   + mcm.PodSummary.Pending (mcm.generatePodSummary pods)
   + mcm.PodSummary.Failed (mcm.generatePodSummary pods)
   + mcm.PodSummary.Succeeded (mcm.generatePodSummary pods)
   + mcm.PodSummary.Unknown (mcm.generatePodSummary pods)
   + mcm.PodSummary.Other (mcm.generatePodSummary pods)
   = length pods)%nat
  ∧ mcm.PodSummary.Running (mcm.generatePodSummary pods)
    = mcm.countPodsByStatus pods "Running"
  ∧ mcm.PodSummary.Pending (mcm.generatePodSummary pods)
    = mcm.countPodsByStatus pods "Pending"
  ∧ mcm.PodSummary.Failed (mcm.generatePodSummary pods)
    = mcm.countPodsByStatus pods "Failed"
  ∧ mcm.PodSummary.Succeeded (mcm.generatePodSummary pods)
    = mcm.countPodsByStatus pods "Succeeded"
  ∧ mcm.PodSummary.Unknown (mcm.generatePodSummary pods)
    = mcm.countPodsByStatus pods "Unknown"
  ∧ (∀ status,
       mcm.countPodsByStatus pods status
       = length (List.filter
                   (λ pod, bool_decide (workload_pods.PodInfo.Status pod = status))
                   pods)).
Proof.
  pose proof (generatePodSummary_from pods (mcm.PodSummary.mk 0 0 0 0 0 0)) as H.
  cbv zeta in H. fold (mcm.generatePodSummary pods) in H. simpl in H.
  destruct H as (Hr & Hp & Hf & Hs & Hu & Hsum).
  unfold mcm.countPodsByStatus. rewrite !countPodsByStatus_from. simpl.
  split_and!; try done. intros status. by rewrite countPodsByStatus_from.
Qed.

(** ** The targets of a deployment *)

Section targets.
Context {hostI : Host} {stringsI : GoStrings} {World : Type} {apiI : KubeAPI World}.

Lemma allTargets_from (excludeList : list string)
    (statuses : list cluster.ClusterStatus.t) (acc : list string) :
  foldl (λ targetClusters status,
           if negb (cluster.ClusterStatus.Connected status) then targetClusters
           else
             let excluded :=
               existsb (λ excludeCluster,
                          bool_decide (cluster.ClusterStatus.Name status
                                       = excludeCluster))
                 excludeList in
             if negb excluded
             then (targetClusters ++ [cluster.ClusterStatus.Name status])%list
             else targetClusters)
    acc statuses
  = (acc ++ map cluster.ClusterStatus.Name
              (List.filter
                 (λ status,
                    cluster.ClusterStatus.Connected status
                    && bool_decide (cluster.ClusterStatus.Name status ∉ excludeList))
                 statuses))%list.
Proof.
  revert acc. induction statuses as [|st rest IH]; intros acc; simpl.
  - by rewrite app_nil_r.
  - rewrite IH. destruct (cluster.ClusterStatus.Connected st); simpl; [|done].
    destruct (existsb _ excludeList) eqn:Hex; simpl.
    + rewrite bool_decide_eq_false_2; [done|]. intros Hnot. apply Hnot.
      apply existsb_exists in Hex as (x & Hx & Heq).
      apply bool_decide_eq_true in Heq as ->. by apply list_elem_of_In.
    + rewrite bool_decide_eq_true_2; [by rewrite <- app_assoc|].
      intros Hin. apply list_elem_of_In in Hin.
      assert (existsb (λ excludeCluster,
                         bool_decide (cluster.ClusterStatus.Name st = excludeCluster))
                excludeList = true) as Htrue; [|by rewrite Htrue in Hex].
      apply existsb_exists. eexists. split; [exact Hin|]. by apply bool_decide_eq_true.
Qed.

Lemma validateTargets_None (m : cluster.Manager) (targetClusters : list string) :
  mcm.validateTargets m targetClusters = None
  ↔ Forall (λ name, ∃ client, (cluster.GetClient name m).1 = inl client) targetClusters.
Proof.
  induction targetClusters as [|name rest IH]; simpl; [by split; [constructor|]|].
  rewrite Forall_cons, <- IH.
  destruct (cluster.GetClient name m).1 as [client|e] eqn:Hget.
  - apply GetClient_connected in Hget as [_ ->]. simpl. split; [eauto | by intros [_ ?]].
  - split; [done|]. by intros [[? [=]] _].
Qed.

Lemma validateTargets_Some (m : cluster.Manager) (targetClusters : list string)
    (name e : string) :
  name ∈ targetClusters →
  (cluster.GetClient name m).1 = inr e →
  is_Some (mcm.validateTargets m targetClusters).
Proof.
  intros Hin Hget. destruct (mcm.validateTargets m targetClusters) eqn:Hv; [eauto|].
  apply validateTargets_None in Hv. rewrite Forall_forall in Hv.
  destruct (Hv name Hin) as [client Hc]. by rewrite Hget in Hc.
Qed.

Lemma excludeList_value (excludeFlag : string) :
  (if bool_decide (excludeFlag ≠ "") then mcm.parseClusterList excludeFlag else [])
  = mcm.parseClusterList excludeFlag.
Proof. case_bool_decide as H; [done|]. by rewrite H. Qed.

(** X23.  The flags of the deploy command are read in a fixed precedence:
    with [--all-clusters] the value of [--clusters] is ignored; without
    it, [--exclude] is ignored; and with [--clusters] alone the names are
    taken as given or not at all, one cluster that is unknown or
    disconnected failing the whole selection. *)
Theorem parseDeploymentTargets_flag_precedence (m : cluster.Manager)
    (order : cluster.RangeOrder) (flags : mcm.DeployFlags) :
  (mcm.allClusters flags = true →
   mcm.parseDeploymentTargets m order flags
   = mcm.parseDeploymentTargets m order
       (mcm.mkDeployFlags "" true (mcm.excludeFlag flags)))
  ∧ (mcm.allClusters flags = false →
     mcm.parseDeploymentTargets m order flags
     = mcm.parseDeploymentTargets m order
         (mcm.mkDeployFlags (mcm.clustersFlag flags) false ""))
  ∧ (mcm.allClusters flags = false → mcm.clustersFlag flags ≠ "" →
     (∀ targets, mcm.parseDeploymentTargets m order flags = inl targets →
                 targets = mcm.parseClusterList (mcm.clustersFlag flags))
     ∧ (∀ name e,
          name ∈ mcm.parseClusterList (mcm.clustersFlag flags) →
          (cluster.GetClient name m).1 = inr e →
          ∃ err, mcm.parseDeploymentTargets m order flags = inr err)).
Proof.
  destruct flags as [clusters all exclude]. unfold mcm.parseDeploymentTargets.
  cbn [mcm.allClusters mcm.clustersFlag mcm.excludeFlag]. split_and!.
  - by intros ->.
  - by intros ->.
  - intros -> Hne. rewrite bool_decide_eq_true_2 by done. cbv zeta. split.
    + intros targets.
      destruct (mcm.validateTargets m (mcm.parseClusterList clusters)); [done|].
      case_bool_decide; [done|]. by intros [= <-].
    + intros name e Hin Hget.
      destruct (validateTargets_Some _ _ _ _ Hin Hget) as [err ->]. eauto.
Qed.

(** X24.  On the registry [NewManager] built, the targets
    [parseDeploymentTargets] selects are never empty and every one of them
    has a connected handle.  With [--all-clusters] they are exactly the
    connected clusters that [--exclude] does not name. *)
Theorem parseDeploymentTargets_targets_connected (cfg : config.MultiClusterConfig)
    (w : World) (sched : cluster.Schedule config.ClusterConfig)
    (m : cluster.Manager) (order : cluster.RangeOrder) (flags : mcm.DeployFlags)
    (targets : list string) :
  cluster.NewManager cfg w sched = inl m →
  cluster.range_order_ok order m →
  mcm.parseDeploymentTargets m order flags = inl targets →
  targets ≠ []
  ∧ Forall (λ name, ∃ client, (cluster.GetClient name m).1 = inl client) targets
  ∧ (mcm.allClusters flags = true →
     ∀ name,
       name ∈ targets
       ↔ (∃ client, (cluster.GetClient name m).1 = inl client)
         ∧ name ∉ mcm.parseClusterList (mcm.excludeFlag flags)).
Proof.
  intros Hnew Hok. unfold mcm.parseDeploymentTargets. rewrite excludeList_value.
  cbv zeta.
  assert (Hkey : ∀ key client, cluster.clients m !! key = Some client →
                               config.Name (cluster.Config client) = key).
  { intros key client Hin.
    destruct (NewManager_entry _ _ _ _ _ _ Hnew Hin) as (cc & _ & -> & <-).
    by rewrite connectToCluster_Config. }
  assert (Hall : ∀ name,
            name ∈ mcm.allTargets (mcm.parseClusterList (mcm.excludeFlag flags))
                     (cluster.ListClusters order m).1
            ↔ (∃ client, (cluster.GetClient name m).1 = inl client)
              ∧ name ∉ mcm.parseClusterList (mcm.excludeFlag flags)).
  { intros name. unfold mcm.allTargets. rewrite allTargets_from. simpl. split.
    - intros (st & -> & Hst)%list_elem_of_fmap.
      apply list_elem_of_In, filter_In in Hst as [Hin Hc].
      apply andb_true_iff in Hc as [Hc Hex]. apply bool_decide_eq_true in Hex.
      apply list_elem_of_In, list_elem_of_fmap in Hin as ([key client] & -> & Hin).
      apply (range_entries order m (key, client)) in Hin; [|done].
      simpl in *. rewrite (Hkey _ _ Hin) in *. split; [|done].
      exists client. by rewrite GetClient_value, Hin, Hc.
    - intros [[client Hget] Hex].
      apply GetClient_connected in Hget as [Hin Hc].
      apply list_elem_of_fmap. exists (cluster.statusOf client).
      split; [by rewrite <- (Hkey _ _ Hin)|].
      apply list_elem_of_In, filter_In. split.
      + apply list_elem_of_In, list_elem_of_fmap. exists (name, client).
        split; [done|]. by apply (range_entries order m (name, client)).
      + simpl. rewrite Hc. simpl. apply bool_decide_eq_true.
        by rewrite (Hkey _ _ Hin). }
  destruct (mcm.allClusters flags).
  - case_bool_decide as Hlen; [done|]. intros [= <-].
    split; [intros Hnil; apply Hlen, length_zero_iff_nil; exact Hnil|]. split; [|done].
    apply Forall_forall. intros name Hin. by apply Hall.
  - case_bool_decide as Hclusters.
    + destruct (mcm.validateTargets m _) eqn:Hv; [done|].
      case_bool_decide as Hlen; [done|]. intros [= <-].
      split; [intros Hnil; apply Hlen, length_zero_iff_nil; exact Hnil|]. split; [|done].
      by apply validateTargets_None.
    + destruct (cluster.GetDefaultClient order m).1 as [c|] eqn:Hdef; [|done].
      simpl. intros [= <-]. split; [done|]. split; [|done].
      constructor; [|constructor]. exists c.
      unfold cluster.GetDefaultClient, mbind, cluster.method_bind in Hdef.
      simpl in Hdef.
      destruct (List.find config.IsDefault _) as [d|].
      * pose proof Hdef as Hget. apply GetClient_connected in Hget as [Hin _].
        by rewrite (Hkey _ _ Hin).
      * destruct (List.find (λ e : string * cluster.ClusterClient, cluster.Connected e.2)
                    (cluster.range order (cluster.clients m)))
          as [[key c']|] eqn:Hfind; [|done].
        simpl in Hdef. injection Hdef as ->.
        apply find_some in Hfind as [Hin Hc]. simpl in Hc.
        apply list_elem_of_In, (range_entries order m (key, c)) in Hin; [|done].
        simpl in Hin. by rewrite GetClient_value, (Hkey _ _ Hin), Hin, Hc.
Qed.
End targets.

(** X24 on the fleet: every cluster but B. *)
Lemma parseDeploymentTargets_targets_connected_example :
  cluster.NewManager (hostI := fake.host) (apiI := fake.api)
    (fake.cfg [fake.clusterA; fake.clusterB]) fake.bothUp id
  = inl (workload.clusterManager fake.fleet)
  ∧ mcm.parseDeploymentTargets (stringsI := sample.strings)
      (workload.clusterManager fake.fleet) id (mcm.mkDeployFlags "" true " B ")
    = inl ["A"]
  ∧ ∃ client, (cluster.GetClient "A" (workload.clusterManager fake.fleet)).1 = inl client.
Proof.
  split; [exact fleet_built|].
  assert (Hrun : mcm.parseDeploymentTargets (stringsI := sample.strings)
                   (workload.clusterManager fake.fleet) id
                   (mcm.mkDeployFlags "" true " B ")
                 = inl ["A"]) by by_vm.
  split; [exact Hrun|].
  destruct (parseDeploymentTargets_targets_connected
              (hostI := fake.host) (stringsI := sample.strings) (apiI := fake.api)
              _ _ _ _ id _ _ fleet_built (Permutation_refl _) Hrun)
    as (_ & Hall & _).
  by apply Forall_cons in Hall as [HA _].
Defined.

(** ** The pod listing *)

Section pod_listing.
Context {hostI : Host} {clockI : Clock} {World : Type} {apiI : KubeAPI World}
  {podsI : PodsAPI World}.

Lemma Forall2_elem_l {A B} (P : A → B → Prop) (xs : list A) (ys : list B) (x : A) :
  Forall2 P xs ys → x ∈ xs → ∃ y, y ∈ ys ∧ P x y.
Proof.
  induction 1 as [|x' y' xs ys Hxy _ IH]; intros Hin; [by apply elem_of_nil in Hin|].
  apply elem_of_cons in Hin as [->|Hin].
  - exists y'. split; [left | done].
  - destruct (IH Hin) as (y & Hy & HP). exists y. split; [by right | done].
Qed.

Lemma Forall2_elem_r {A B} (P : A → B → Prop) (xs : list A) (ys : list B) (y : B) :
  Forall2 P xs ys → y ∈ ys → ∃ x, x ∈ xs ∧ P x y.
Proof.
  induction 1 as [|x' y' xs ys Hxy _ IH]; intros Hin; [by apply elem_of_nil in Hin|].
  apply elem_of_cons in Hin as [->|Hin].
  - exists x'. split; [left | done].
  - destruct (IH Hin) as (x & Hx & HP). exists x. split; [by right | done].
Qed.

(** X25.  With connected handles that hold a clientset, [ListPods] always
    returns, whatever the servers list: it has no counterpart of the nil
    dereference of [ListDeployments].  The result is the slices of the
    targets appended in the order the goroutines finish; every record
    belongs to a target; a target that cannot be queried is there with one
    record, which the pods table prints as an [ERROR] row; a target that
    answers is there with a record for each pod. *)
Theorem ListPods_reports_every_target (m : workload.Manager) (w : World)
    (order : cluster.RangeOrder) (sched : cluster.Schedule string)
    (clusterNames : list string) (namespace labelSelector : string) :
  cluster.handles_live (workload.clusterManager m) →
  cluster.schedule_ok sched (workload.listTargets m order clusterNames) →
  ∃ slices,
    workload_pods.ListPods m w order sched clusterNames namespace labelSelector
    = Ok (concat slices, None)
    ∧ Forall2 (λ name sent,
                 workload_pods.getPodsFromCluster m w name namespace labelSelector
                 = Ok sent)
        (sched (workload.listTargets m order clusterNames)) slices
    ∧ (∀ p, p ∈ concat slices →
         workload_pods.PodInfo.ClusterName p
         ∈ workload.listTargets m order clusterNames)
    ∧ (∀ name, name ∈ workload.listTargets m order clusterNames →
         match (cluster.GetClient name (workload.clusterManager m)).1 with
         | inr err =>
             let p := workload_pods.errorPod name
                        ("Failed to get cluster client: " +:+ err) in
             p ∈ concat slices ∧ mcm.isErrorRow p = true
         | inl client =>
             ∃ clientset,
               cluster.Clientset client = Some clientset
               ∧ match Pods_List w clientset namespace labelSelector with
                 | inr err =>
                     let p := workload_pods.errorPod name
                                ("Failed to list pods: " +:+ err) in
                     p ∈ concat slices ∧ mcm.isErrorRow p = true
                 | inl items =>
                     ∀ pod, pod ∈ items →
                            workload_pods.podInfo name pod ∈ concat slices
                 end
         end).
Proof.
  intros Hlive Hsched. unfold workload_pods.ListPods. cbv zeta.
  set (targets := workload.listTargets m order clusterNames) in *.
  set (f := λ name, workload_pods.getPodsFromCluster m w name namespace labelSelector).
  assert (Hok : is_Ok (result_mapM f (sched targets))).
  { apply result_mapM_Ok_iff, Forall_forall. intros name _.
    destruct (getPodsFromCluster_value m w name namespace labelSelector Hlive)
      as (sent & Hsent & _). by exists sent. }
  destruct Hok as [slices Hslices]. rewrite Hslices. simpl.
  pose proof (proj1 (result_mapM_Forall2 f (sched targets) slices) Hslices) as Hall.
  exists slices. split; [done|]. split; [done|]. split.
  - intros p (sent & Hp & Hsent)%elem_of_concat.
    destruct (Forall2_elem_r _ _ _ _ Hall Hsent) as (name & Hname & Hrun).
    destruct (getPodsFromCluster_value m w name namespace labelSelector Hlive)
      as (sent' & Hsent' & Hcn & _).
    unfold f in Hrun. rewrite Hrun in Hsent'. injection Hsent' as <-.
    rewrite Forall_forall in Hcn. rewrite (Hcn p Hp).
    by rewrite <- Hsched.
  - intros name Hname. rewrite <- Hsched in Hname.
    destruct (Forall2_elem_l _ _ _ _ Hall Hname) as (sent & Hsent & Hrun).
    destruct (getPodsFromCluster_value m w name namespace labelSelector Hlive)
      as (sent' & Hsent' & _ & Hval).
    unfold f in Hrun. rewrite Hrun in Hsent'. injection Hsent' as <-.
    destruct (cluster.GetClient name _).1 as [client|e].
    + destruct Hval as (clientset & Hcs & Hval). exists clientset. split; [done|].
      destruct (Pods_List w clientset namespace labelSelector) as [items|e].
      * intros pod Hpod. apply elem_of_concat. exists sent. split; [|done].
        rewrite Hval. apply list_elem_of_fmap. by exists pod.
      * cbv zeta. split; [|done]. apply elem_of_concat. exists sent.
        split; [|done]. rewrite Hval. left.
    + cbv zeta. split; [|done]. apply elem_of_concat. exists sent.
      split; [|done]. rewrite Hval. left.
Qed.
End pod_listing.

(** X25 on the fleet, asked for A and for a cluster it does not know. *)
Lemma ListPods_reports_every_target_example :
  cluster.handles_live (workload.clusterManager fake.fleet)
  ∧ cluster.schedule_ok id (workload.listTargets fake.fleet id ["A"; "C"])
  ∧ ∃ slices,
      workload_pods.ListPods (hostI := fake.host) (clockI := sample.clock)
        (podsI := sample.pods) fake.fleet fake.bothUp id id ["A"; "C"] "default" ""
      = Ok (concat slices, None)
      ∧ length (concat slices) = 3%nat.
Proof.
  assert (Hsched : cluster.schedule_ok id (workload.listTargets fake.fleet id ["A"; "C"]))
    by exact (Permutation_refl _).
  split; [exact handles_live_example|]. split; [exact Hsched|].
  destruct (ListPods_reports_every_target (hostI := fake.host) (clockI := sample.clock)
              (podsI := sample.pods) fake.fleet fake.bothUp id id ["A"; "C"] "default" ""
              handles_live_example Hsched)
    as (slices & Hrun & _).
  exists slices. split; [exact Hrun|].
  assert (Hlen : match workload_pods.ListPods (hostI := fake.host)
                         (clockI := sample.clock) (podsI := sample.pods)
                         fake.fleet fake.bothUp id id ["A"; "C"] "default" "" with
                  | Ok (all, _) => length all
                  | Panic _ => 0%nat
                  end = 3%nat) by by_vm.
  by rewrite Hrun in Hlen.
Defined.
